(** * astrosource: comparison-star selection and calibration

    A shallow embedding of [astrosource/comparison.py]: the rejection loop of
    [find_comparisons], [calculate_comparison_variation],
    [final_candidate_catalogue], [remove_stars_targets], the target and
    crowding filters of [catalogue_call], and the filter lookup and the
    uncertainty aggregation of [find_comparisons_calibrated].

    Python floats are IEEE binary64 numbers: they are the kernel's primitive
    floats here.  Exceptions are values of [exn]; a computation that may raise
    returns a [Result].  What the program takes from outside the repository
    (libm's [log10], astropy's angular separation) is a section variable. *)

From Stdlib Require Import String ZArith Bool Floats Lia PeanoNat List.
From Stdlib Require Import Permutation Sorted.
Import ListNotations.

Set Warnings "-inexact-float".

Local Open Scope string_scope.
Local Open Scope list_scope.

(** ** Exceptions and results *)

(** Modelled from the spec: the class [AstrosourceException], which the
    program imports from [astrosource/utils.py] and which is not among the
    sources: an exception of the program's own, distinct from the built-in
    ones, raised with a message. *)
Definition AstrosourceMessage : Type := string.

(** The exceptions the program can end with: Python's built-in ones and its
    own. *)
Inductive exn : Type :=
| IndexError
| KeyError (key : string)
| ValueError
| NameError (name : string)
| SystemExit
| AstrosourceException (msg : AstrosourceMessage).

Inductive Result (A : Type) : Type :=
| Ok (a : A)
| Raise (e : exn).

Arguments Ok {A} a.
Arguments Raise {A} e.

Definition bind {A B : Type} (r : Result A) (k : A -> Result B) : Result B :=
  match r with
  | Ok a => k a
  | Raise e => Raise e
  end.

Notation "x <- r ;; k" := (bind r (fun x => k))
  (at level 61, r at next level, right associativity).
Notation "' p <- r ;; k" := (bind r (fun p => k))
  (at level 61, p pattern, r at next level, right associativity).

(** [for x in xs: ...] collecting one result per element, stopping at the
    first exception. *)
Fixpoint mapM {A B : Type} (f : A -> Result B) (xs : list A) : Result (list B) :=
  match xs with
  | [] => Ok []
  | x :: xs' => y <- f x ;; ys <- mapM f xs' ;; Ok (y :: ys)
  end.

(** [xs[i]] for a non-negative index. *)
Definition getitem {A : Type} (xs : list A) (i : nat) : Result A :=
  match nth_error xs i with
  | Some x => Ok x
  | None => Raise IndexError
  end.

(** [xs[i] = v] on a Python list. *)
Fixpoint setitem {A : Type} (xs : list A) (i : nat) (v : A) : Result (list A) :=
  match xs, i with
  | [], _ => Raise IndexError
  | _ :: xs', O => Ok (v :: xs')
  | x :: xs', S i' => ys <- setitem xs' i' v ;; Ok (x :: ys)
  end.

(** [enumerate(xs)]. *)
Fixpoint enumerate_from {A : Type} (i : nat) (xs : list A) : list (nat * A) :=
  match xs with
  | [] => []
  | x :: xs' => (i, x) :: enumerate_from (S i) xs'
  end.

Definition enumerate {A : Type} (xs : list A) : list (nat * A) :=
  enumerate_from 0 xs.

Definition list_bool_eqb (a b : list bool) : bool :=
  if list_eq_dec Bool.bool_dec a b then true else false.

(** ** Floats *)

Definition float_of_nat (n : nat) : float :=
  PrimFloat.of_uint63 (Uint63.of_Z (Z.of_nat n)).

Definition float_of_Z (z : Z) : float :=
  if (z <? 0)%Z then (- PrimFloat.of_uint63 (Uint63.of_Z (- z)))%float
  else PrimFloat.of_uint63 (Uint63.of_Z z).

Definition float_of_bool (b : bool) : float :=
  if b then 1%float else 0%float.

(** ** numpy

    [np.min], [np.median] and [np.std] on a one-dimensional array.  Sums are
    taken from left to right; numpy adds long arrays pairwise, which can move
    the last bits of a sum.  No theorem below depends on the order. *)
Module np.

Definition isnan (x : float) : bool := PrimFloat.is_nan x.

(** The order numpy sorts floats by: [a < b], every NaN last. *)
Definition lt (a b : float) : bool :=
  (a <? b)%float || (isnan b && negb (isnan a)).

Definition sum (xs : list float) : float :=
  fold_left PrimFloat.add xs 0%float.

Definition mean (xs : list float) : float :=
  (sum xs / float_of_nat (length xs))%float.

(** [np.std]: the population standard deviation,
    [sqrt(mean((x - mean(x))**2))]; NaN on an empty array. *)
Definition std (xs : list float) : float :=
  let m := mean xs in
  PrimFloat.sqrt (mean (map (fun x => ((x - m) * (x - m))%float) xs)).

(** [np.minimum], which propagates NaN. *)
Definition minimum (a b : float) : float :=
  if (a <? b)%float || isnan a then a else b.

(** [np.min]; a zero-size array has no minimum. *)
Definition min (xs : list float) : Result float :=
  match xs with
  | [] => Raise ValueError
  | x :: xs' => Ok (fold_left minimum xs' x)
  end.

Fixpoint insert (x : float) (l : list float) : list float :=
  match l with
  | [] => [x]
  | y :: l' => if lt x y then x :: l else y :: insert x l'
  end.

Definition sort (xs : list float) : list float :=
  fold_left (fun acc x => insert x acc) xs [].

(** [np.median]: the mean of the middle element(s) of the sorted array, NaN
    as soon as one element is NaN or the array is empty. *)
Definition median (xs : list float) : float :=
  let n := length xs in
  let s := sort xs in
  if (n =? 0)%nat then PrimFloat.nan
  else if existsb isnan xs then PrimFloat.nan
  else if Nat.odd n then mean [nth (n / 2) s PrimFloat.nan]
  else mean [nth (n / 2 - 1) s PrimFloat.nan; nth (n / 2) s PrimFloat.nan].

(** [keys.argsort()]: the indices of [keys] in ascending order of key.
    Insertion keeps equal keys in their original order. *)
Fixpoint insert_index (keys : list float) (i : nat) (l : list nat) : list nat :=
  match l with
  | [] => [i]
  | j :: l' =>
      if lt (nth i keys PrimFloat.nan) (nth j keys PrimFloat.nan)
      then i :: l else j :: insert_index keys i l'
  end.

Definition argsort (keys : list float) : list nat :=
  fold_left (fun acc i => insert_index keys i acc) (seq 0 (length keys)) [].

(** [c[mask]] with a boolean mask: the rows whose flag is set; numpy raises
    IndexError when the mask and the indexed axis differ in length. *)
Fixpoint select {A : Type} (c : list A) (mask : list bool) : list A :=
  match c, mask with
  | x :: c', b :: mask' => if b then x :: select c' mask' else select c' mask'
  | _, _ => []
  end.

Definition bool_index {A : Type} (c : list A) (mask : list bool) : Result (list A) :=
  if (length c =? length mask)%nat then Ok (select c mask) else Raise IndexError.

End np.

(** ** Photometry tables *)

(** One row of a photometry table; the field order is the column order, so
    [counts] is column 4. *)
Record PhotRow : Type := mkRow {
  ra : float;
  dec : float;
  xcen : float;
  ycen : float;
  counts : float;
  counts_err : float
}.

(** A row of [sortStars]: [ra, dec, std] followed by ten zeros. *)
Record SortStar : Type := mkSortStar {
  ss_ra : float;
  ss_dec : float;
  ss_std : float
}.

Definition sortStars_columns : nat := 13.

(** A sky position in degrees. *)
Definition SkyCoord : Type := (float * float)%type.

(** A three-dimensional array [frames x stars x columns] as its list of
    frames.  Every caller has read [photlist[0]] before, so there is a first
    frame; [shape[1]] is its number of rows. *)
Definition numstars (comparisons : list (list PhotRow)) : nat :=
  match comparisons with
  | [] => 0
  | frame :: _ => length frame
  end.

Definition getitem2 (comparisons : list (list PhotRow)) (q j : nat) : Result PhotRow :=
  frame <- getitem comparisons q ;; getitem frame j.

Section Photometry.

(** [numpy.log10] on a float. *)
Variable log10 : float -> float.

(** [calculate_comparison_variation], lines 172-193.  Line 175 unpacks the
    shape into three names; the shape of a table with no frame has a single
    entry, and the unpacking is a ValueError. *)
Definition calculate_comparison_variation
    (comparisons : list (list PhotRow)) (fileCount : list float)
    : Result (list float * list SortStar) :=
  match comparisons with
  | [] => Raise ValueError
  | _ :: _ =>
      rows <- mapM (fun j =>
          ref <- getitem2 comparisons 0 j ;;
          compDiffMags <- mapM (fun '(q, count) =>
              row <- getitem2 comparisons q j ;;
              Ok (2.5 * log10 (counts row / count))%float)
            (enumerate fileCount) ;;
          if (np.std compDiffMags =? PrimFloat.nan)%float then Raise SystemExit
          else Ok (np.std compDiffMags,
                   mkSortStar (ra ref) (dec ref) (np.std compDiffMags)))
        (seq 0 (numstars comparisons)) ;;
      Ok (map fst rows, map snd rows)
  end.

(** [np.ndarray.sum(comparisons, axis=1)[:,4]]: per frame, the counts of all
    candidates added up. *)
Definition ensemble_counts (comparisons : list (list PhotRow)) : list float :=
  map (fun frame => np.sum (map counts frame)) comparisons.

(** Lines 87-93: [starRejecter[j] = False] for every score above the
    threshold or NaN. *)
Fixpoint mark_rejects (threshold : float) (scores : list (nat * float))
    (starRejecter : list bool) : Result (list bool) :=
  match scores with
  | [] => Ok starRejecter
  | (j, stdComp) :: rest =>
      if (threshold <? stdComp)%float || np.isnan stdComp
      then marked <- setitem starRejecter j false ;; mark_rejects threshold rest marked
      else mark_rejects threshold rest starRejecter
  end.

(** What one pass of the [while True] body computes. *)
Record Pass : Type := mkPass {
  pass_comparisons : list (list PhotRow);
  pass_sortStars : list SortStar;
  pass_variabilityMax : float;
  pass_starRejecter : list bool
}.

(** The body of the loop of [find_comparisons], lines 69-107. *)
Definition rejection_pass (stdMultiplier variabilityMultiplier : float)
    (fileCount : list float) (comparisons : list (list PhotRow))
    (starRejecter : list bool) : Result Pass :=
  _ <- getitem comparisons 0 ;;
  '(stdCompStar, sortStars) <- calculate_comparison_variation comparisons fileCount ;;
  minStd <- np.min stdCompStar ;;
  let variabilityMax := (minStd * variabilityMultiplier)%float in
  let stdCompMed := np.median stdCompStar in
  let stdCompStd := np.std stdCompStar in
  marked <- (if (0.002 <? minStd)%float
             then mark_rejects (stdCompMed + stdMultiplier * stdCompStd)%float
                    (enumerate stdCompStar) starRejecter
             else Ok starRejecter) ;;
  kept <- mapM (fun c => np.bool_index c marked) comparisons ;;
  Ok (mkPass kept sortStars variabilityMax marked).

(** The state the loop leaves behind when it breaks. *)
Record Converged : Type := mkConverged {
  final_comparisons : list (list PhotRow);
  final_sortStars : list SortStar;
  final_variabilityMax : float;
  final_starRejecter : list bool;
  iterations : nat
}.

(** The [while True] loop, lines 67-115.  [done] counts the passes already
    made; [None] means the fuel ran out before the loop broke. *)
Fixpoint rejection_loop (fuel done : nat) (stdMultiplier variabilityMultiplier : float)
    (fileCount : list float) (comparisons : list (list PhotRow))
    (starRejecter oldrejects : list bool) : option (Result Converged) :=
  match fuel with
  | O => None
  | S fuel' =>
      match rejection_pass stdMultiplier variabilityMultiplier fileCount
              comparisons starRejecter with
      | Raise e => Some (Raise e)
      | Ok p =>
          if list_bool_eqb (pass_starRejecter p) oldrejects
          then Some (Ok (mkConverged (pass_comparisons p) (pass_sortStars p)
                           (pass_variabilityMax p) (pass_starRejecter p) (S done)))
          else rejection_loop fuel' (S done) stdMultiplier variabilityMultiplier
                 fileCount (pass_comparisons p) (pass_starRejecter p)
                 (pass_starRejecter p)
      end
  end.

(** Lines 63-115 of [find_comparisons]: the ensemble counts, the two masks
    and the loop. *)
Definition stable_candidates (fuel : nat) (stdMultiplier variabilityMultiplier : float)
    (comparisons : list (list PhotRow)) : option (Result Converged) :=
  let fileCount := ensemble_counts comparisons in
  let starRejecter := repeat true (numstars comparisons) in
  let oldrejects := repeat false (numstars comparisons) in
  rejection_loop fuel 0 stdMultiplier variabilityMultiplier fileCount
    comparisons starRejecter oldrejects.

(** ** astropy

    [separation a b] is the angular separation of two sky positions in
    arcseconds.  The two matchers are written from astropy's contract for
    [match_to_catalog_sky]: the catalogue entry nearest to a position, and,
    with [nthneighbor=2] on the catalogue itself, for every entry the nearest
    entry that is not itself. *)
Variable separation : SkyCoord -> SkyCoord -> float.

Definition closer (coord : SkyCoord) (best : nat * float) (entry : nat * SkyCoord)
    : nat * float :=
  if (separation coord (snd entry) <? snd best)%float
  then (fst entry, separation coord (snd entry)) else best.

(** [coord.match_to_catalog_sky(catalog)] for a scalar [coord]: the index of
    the nearest entry and the separation to it; an empty catalogue is a
    ValueError. *)
Definition match_to_catalog_sky (coord : SkyCoord) (catalog : list SkyCoord)
    : Result (nat * float) :=
  match enumerate catalog with
  | [] => Raise ValueError
  | (i, c) :: rest => Ok (fold_left (closer coord) rest (i, separation coord c))
  end.

(** The entries of [catalog] other than the one at index [q]. *)
Definition others (q : nat) (catalog : list SkyCoord) : list SkyCoord :=
  firstn q catalog ++ skipn (S q) catalog.

(** [catalog.match_to_catalog_sky(catalog, nthneighbor=2)]: per entry, the
    separation to its nearest other entry.  With fewer than two entries there
    is no second neighbour and the call raises. *)
Definition match_to_catalog_sky_nth2 (catalog : list SkyCoord) : Result (list float) :=
  match catalog with
  | [] => Raise ValueError
  | [_] => Raise IndexError
  | _ =>
      mapM (fun '(q, c) =>
              '(_, d2d) <- match_to_catalog_sky c (others q catalog) ;; Ok d2d)
           (enumerate catalog)
  end.

(** ** [final_candidate_catalogue], lines 123-170 *)

Definition coords_of (frame : list PhotRow) : list SkyCoord :=
  map (fun r => (ra r, dec r)) frame.

(** The state of the selection walk: [compFile], [tempCountCounter] and
    [finalCountCounter]. *)
Record Selection : Type := mkSelection {
  compFile : list (float * float * float);
  tempCountCounter : float;
  finalCountCounter : float
}.

(** One pass of the body of [for j in sortorder], lines 147-158.  When
    [sortStars] was wrapped into a one-element list (line 138), [sortStars[j]]
    is the whole one-row table and [sortStars[j][1]] is out of range. *)
Definition select_step (wrapped : bool) (sortorder_len : nat)
    (sortStars : list SortStar) (referenceFrame : list PhotRow)
    (thresholdCounts variabilityMax : float) (st : Selection) (j : nat)
    : Result Selection :=
  if wrapped then Raise IndexError
  else
    star <- getitem sortStars j ;;
    '(idx, _) <- match_to_catalog_sky (ss_ra star, ss_dec star) (coords_of referenceFrame) ;;
    row <- getitem referenceFrame idx ;;
    let accepted :=
      (tempCountCounter st <? thresholdCounts)%float
      && ((sortorder_len =? 1)%nat || (ss_std star <? variabilityMax)%float) in
    Ok (mkSelection
          (if accepted then compFile st ++ [(ss_ra star, ss_dec star, ss_std star)]
           else compFile st)
          (tempCountCounter st + counts row)%float
          (if accepted then (finalCountCounter st + counts row)%float
           else finalCountCounter st)).

Fixpoint select_loop (wrapped : bool) (sortorder_len : nat)
    (sortStars : list SortStar) (referenceFrame : list PhotRow)
    (thresholdCounts variabilityMax : float) (st : Selection) (sortorder : list nat)
    : Result Selection :=
  match sortorder with
  | [] => Ok st
  | j :: rest =>
      st' <- select_step wrapped sortorder_len sortStars referenceFrame
               thresholdCounts variabilityMax st j ;;
      select_loop wrapped sortorder_len sortStars referenceFrame
        thresholdCounts variabilityMax st' rest
  end.

(** Returns [compFile] and [compFile.shape[0]].  An empty [sortStars] is a
    one-dimensional array, on which [sortStars[:,2]] is an IndexError. *)
Definition final_candidate_catalogue (comparisons : list (list PhotRow))
    (sortStars : list SortStar) (thresholdCounts variabilityMax : float)
    : Result (list (float * float * float) * nat) :=
  referenceFrame <- getitem comparisons 0 ;;
  _ <- (if (length sortStars =? 0)%nat then Raise IndexError else Ok tt) ;;
  let sortorder := np.argsort (map ss_std sortStars) in
  let wrapped :=
    (sortStars_columns * length sortStars =? 13)%nat && (length sortStars =? 1)%nat in
  st <- select_loop wrapped (length sortorder) sortStars referenceFrame
          thresholdCounts variabilityMax (mkSelection [] 0 0) sortorder ;;
  Ok (compFile st, length (compFile st)).

(** ** Names

    The names bound at module level in [comparison.py]: its imports, [logger]
    and its six functions.  A name a function never assigns is looked up
    here and then among the builtins, which hold neither of the two names
    looked up below; a miss is a NameError. *)
Definition module_globals : list string :=
  [ "glob"; "sys"; "os"; "Path"; "namedtuple"; "np";
    "min"; "max"; "median"; "std"; "isnan"; "delete"; "genfromtxt"; "savetxt";
    "load"; "asarray"; "add"; "append"; "log10"; "average"; "array"; "where";
    "degree"; "arcsecond"; "SkyCoord"; "SDSS"; "ConeSearch"; "VOSError";
    "Vizier"; "AstrosourceException"; "logging"; "logger";
    "find_comparisons"; "final_candidate_catalogue";
    "calculate_comparison_variation"; "remove_stars_targets";
    "catalogue_call"; "find_comparisons_calibrated" ].

Definition global_name (name : string) : Result unit :=
  if existsb (String.eqb name) module_globals then Ok tt else Raise (NameError name).

(** ** [remove_stars_targets], lines 195-270 *)

Record Target : Type := mkTarget {
  tg_ra : float;
  tg_dec : float;
  tg_col2 : float;
  tg_col3 : float
}.

(** The target array: one target of shape [(4,)], or a table of targets. *)
Inductive Targets : Type :=
| SingleTarget (t : Target)
| TargetTable (rows : list Target).

(** Lines 203-208: rows whose first entry is NaN are deleted from a table. *)
Definition drop_nan_targets (targetFile : Targets) : Targets :=
  match targetFile with
  | SingleTarget t => SingleTarget t
  | TargetTable rows => TargetTable (filter (fun r => negb (np.isnan (tg_ra r))) rows)
  end.

Definition row_values (r : PhotRow) : list float :=
  [ra r; dec r; xcen r; ycen r; counts r; counts_err r].

(** [compFile.shape[0] == 2 and compFile.size == 2], line 229, on a table of
    six columns. *)
Definition is_pair_shape (compFile : list PhotRow) : bool :=
  (length compFile =? 2)%nat && (6 * length compFile =? 2)%nat.

(** [x.any()] on a float scalar: whether it is non-zero. *)
Definition float_any (x : float) : bool := negb (x =? 0)%float.

(** Line 247: [d2dcomp.arcsecond.any() < max_sep.value], a truth value
    compared with the acceptance distance. *)
Definition variable_star_match (acceptDistance d2dcomp : float) : bool :=
  (float_of_bool (float_any d2dcomp) <? acceptDistance)%float.

(** The body of [for t in range(raCat.size)], lines 227-252.  A separation
    that comes from a match is an angle, which differs from the bare number
    9999, so the test of line 246 passes. *)
Definition vsx_step (acceptDistance : float) (compFile : list PhotRow)
    (raCat_size : nat) (mask : list bool) (compCoord : SkyCoord)
    : Result (list bool) :=
  '(idxcomp, d2dcomp) <-
    (if negb (is_pair_shape compFile)
     then match_to_catalog_sky compCoord (coords_of compFile)
     else if negb (raCat_size =? 1)%nat
     then
       row0 <- getitem compFile 0 ;;
       row1 <- getitem compFile 1 ;;
       match match_to_catalog_sky compCoord (combine (row_values row0) (row_values row1)) with
       | Raise ValueError =>
           Raise (AstrosourceException "Error with variable star catalogue match")
       | r => r
       end
     else Raise ValueError) ;;
  if variable_star_match acceptDistance d2dcomp
  then _ <- global_name "varStarReject" ;; setitem mask idxcomp false
  else Ok mask.

Fixpoint vsx_loop (acceptDistance : float) (compFile : list PhotRow)
    (raCat_size : nat) (mask : list bool) (variableResult : list SkyCoord)
    : Result (list bool) :=
  match variableResult with
  | [] => Ok mask
  | compCoord :: rest =>
      mask' <- vsx_step acceptDistance compFile raCat_size mask compCoord ;;
      vsx_loop acceptDistance compFile raCat_size mask' rest
  end.

(** [variableResult] is the table the VSX query returned, as positions. *)
Definition remove_stars_targets (variableResult : list SkyCoord)
    (photlist : list (list PhotRow)) (acceptDistance : float)
    (targetFile : Targets) (removeTargets : bool) : Result (list (list PhotRow)) :=
  compFile <- getitem photlist 0 ;;
  let targetFile := drop_nan_targets targetFile in
  let mask := repeat true (length compFile) in
  mask <- vsx_loop acceptDistance compFile (length variableResult) mask variableResult ;;
  photlist <- mapM (fun c => np.bool_index c mask) photlist ;;
  if (length compFile =? 1)%nat
  then
    _ <- global_name "parentPath" ;;
    Raise (AstrosourceException "Looks like you have a single comparison star!")
  else Ok photlist.

(** ** [find_comparisons], lines 25-121

    The VSX filter, the rejection loop and the selection, in sequence. *)
Definition find_comparisons (fuel : nat) (variableResult : list SkyCoord)
    (targets : Targets) (photlist : list (list PhotRow))
    (stdMultiplier thresholdCounts variabilityMultiplier : float)
    (removeTargets : bool) (acceptDistance : float)
    : option (Result (list (float * float * float) * nat)) :=
  match remove_stars_targets variableResult photlist acceptDistance targets removeTargets with
  | Raise e => Some (Raise e)
  | Ok comparisons =>
      match stable_candidates fuel stdMultiplier variabilityMultiplier comparisons with
      | None => None
      | Some (Raise e) => Some (Raise e)
      | Some (Ok c) =>
          Some (final_candidate_catalogue (final_comparisons c) (final_sortStars c)
                  thresholdCounts (final_variabilityMax c))
      end
  end.

(** ** [catalogue_call], lines 273-350 *)

(** A row of a catalogue response: position, the magnitude and error columns
    the filter asks for, and the catalogue's quality column. *)
Record CatRow : Type := mkCatRow {
  cat_ra : float;
  cat_dec : float;
  cat_mag : float;
  cat_emag : float;
  cat_quality : Z
}.

Record CatData : Type := mkCatData {
  data_cat_name : string;
  data_ra : list float;
  data_dec : list float;
  data_mag : list float;
  data_emag : list float
}.

(** Lines 310-315. *)
Definition quality_filter (cat_name : string) (resp : list CatRow) : list CatRow :=
  if String.eqb cat_name "PanSTARRS"
  then filter (fun r => (cat_quality r =? 52)%Z || (cat_quality r =? 60)%Z
                        || (cat_quality r =? 61)%Z) resp
  else if String.eqb cat_name "SDSS" then filter (fun r => (cat_quality r =? 3)%Z) resp
  else if String.eqb cat_name "SkyMapper" then filter (fun r => (cat_quality r =? 0)%Z) resp
  else resp.

(** [where(flags)]: the one-element tuple holding the indices of the set
    flags. *)
Definition where_ (flags : list bool) : list nat :=
  map fst (filter (fun e => snd e) (enumerate flags)).

(** [a and b] on two such tuples: a tuple of one element is true whatever it
    holds, so the value is [b]. *)
Definition tuple_and (a b : list nat) : list nat := b.

(** [resp[indices]]: the rows at the given indices. *)
Definition take_rows (resp : list CatRow) (indices : list nat) : Result (list CatRow) :=
  mapM (getitem resp) indices.

(** Line 323. *)
Definition exclude_target (tg : Target) (resp : list CatRow) : Result (list CatRow) :=
  take_rows resp
    (tuple_and
       (where_ (map (fun r => (0.0014 <? abs (cat_ra r - tg_ra tg))%float) resp))
       (where_ (map (fun r => (0.0014 <? abs (cat_dec r - tg_dec tg))%float) resp))).

(** Lines 320-323. *)
Definition target_rows (targets : Targets) : list Target :=
  match targets with
  | SingleTarget t => [t]
  | TargetTable rows => rows
  end.

Fixpoint exclude_targets (targets : list Target) (resp : list CatRow)
    : Result (list CatRow) :=
  match targets with
  | [] => Ok resp
  | tg :: rest => resp' <- exclude_target tg resp ;; exclude_targets rest resp'
  end.

Definition cat_coords (resp : list CatRow) : list SkyCoord :=
  map (fun r => (cat_ra r, cat_dec r)) resp.

(** Lines 329-334: [catReject], the rows whose nearest other row is closer
    than [closerejectd] arcseconds. *)
Definition crowding_rejects (closerejectd : float) (resp : list CatRow)
    : Result (list nat) :=
  d2d <- match_to_catalog_sky_nth2 (cat_coords resp) ;;
  Ok (map fst (filter (fun e => (snd e <? closerejectd)%float) (enumerate d2d))).

(** [del resp[catReject]]. *)
Definition delete_rows (resp : list CatRow) (catReject : list nat) : list CatRow :=
  map snd (filter (fun e => negb (existsb (Nat.eqb (fst e)) catReject)) (enumerate resp)).

(** The [while True] loop of lines 328-338. *)
Fixpoint crowding_loop (fuel : nat) (closerejectd : float) (resp : list CatRow)
    : option (Result (list CatRow)) :=
  match fuel with
  | O => None
  | S fuel' =>
      match crowding_rejects closerejectd resp with
      | Raise e => Some (Raise e)
      | Ok [] => Some (Ok resp)
      | Ok catReject => crowding_loop fuel' closerejectd (delete_rows resp catReject)
      end
  end.

(** [query] is the table the catalogue service returned for [cat_name], or
    [None] when the lookup failed or found nothing; the message leaves the
    coordinates out. *)
Definition catalogue_call (fuel : nat) (query : option (list CatRow))
    (cat_name : string) (targets : Targets) (closerejectd : float)
    : option (Result CatData) :=
  match query with
  | None => Some (Raise (AstrosourceException ("Could not find RA Dec in " ++ cat_name)%string))
  | Some resp =>
      match exclude_targets (target_rows targets) (quality_filter cat_name resp) with
      | Raise e => Some (Raise e)
      | Ok resp' =>
          match crowding_loop fuel closerejectd resp' with
          | None => None
          | Some (Raise e) => Some (Raise e)
          | Some (Ok kept) =>
              Some (Ok (mkCatData cat_name (map cat_ra kept) (map cat_dec kept)
                          (map cat_mag kept) (map cat_emag kept)))
          end
      end
  end.

End Photometry.

(** ** [find_comparisons_calibrated] *)

(** A Python dict as the list of its items, in insertion order. *)
Definition dict (V : Type) : Type := list (string * V).

(** [d[key]]: a missing key is a KeyError. *)
Fixpoint dict_getitem {V : Type} (d : dict V) (key : string) : Result V :=
  match d with
  | [] => Raise (KeyError key)
  | (k, v) :: d' => if String.eqb k key then Ok v else dict_getitem d' key
  end.

Record Columns : Type := mkColumns {
  filter_column : string;
  error_column : string
}.

(** Lines 355-373. *)
Definition FILTERS : dict (dict Columns) :=
  [ ("B", [ ("APASS", mkColumns "Bmag" "e_Bmag") ]);
    ("V", [ ("APASS", mkColumns "Vmag" "e_Vmag") ]);
    ("up", [ ("SDSS", mkColumns "umag" "e_umag");
             ("SkyMapper", mkColumns "uPSF" "e_uPSF");
             ("PanSTARRS", mkColumns "umag" "e_umag") ]);
    ("gp", [ ("SDSS", mkColumns "gmag" "e_mag");
             ("SkyMapper", mkColumns "gPSF" "e_gPSF");
             ("PanSTARRS", mkColumns "gmag" "e_gmag") ]);
    ("rp", [ ("SDSS", mkColumns "rmag" "e_rmag");
             ("SkyMapper", mkColumns "rPSF" "e_rPSF");
             ("PanSTARRS", mkColumns "rmag" "e_rmag") ]);
    ("ip", [ ("SDSS", mkColumns "imag" "e_imag");
             ("SkyMapper", mkColumns "iPSF" "e_iPSF");
             ("PanSTARRS", mkColumns "imag" "e_imag") ]);
    ("zs", [ ("SDSS", mkColumns "zmag" "e_zmag");
             ("SkyMapper", mkColumns "zPSF" "e_zPSF");
             ("PanSTARRS", mkColumns "zmag" "e_zmag") ]) ].

(** Lines 404-407: the lookup, whose handler catches IndexError only. *)
Definition filter_catalogues (filterCode : string) : Result (dict Columns) :=
  match dict_getitem FILTERS filterCode with
  | Raise IndexError =>
      Raise (AstrosourceException (filterCode ++ " is not accepted at present")%string)
  | r => r
  end.

(** [pow(x, 0.5)], the power function at one half: the square root. *)
Definition pow_half (x : float) : float := PrimFloat.sqrt x.

(** [calibCompUsed[:,r]]: column [r] of the table that has one row per frame
    and one column per comparison star. *)
Definition column (calibCompUsed : list (list float)) (r : nat) : Result (list float) :=
  mapM (fun frame => getitem frame r) calibCompUsed.

(** The comparisons actually used, [compUsedFile]: one star of shape [(3,)]
    or a table.  No statement of the module binds the name; [None] is the
    module as written, [Some] a binding supplied from outside. *)
Inductive CompUsed : Type :=
| OneComp (c : float * float * float)
| CompTable (rows : list (float * float * float)).

Record Calibration : Type := mkCalibration {
  finalCompUsedFile : list (list float);
  sumStd : list float;
  errCalib : float
}.

(** One pass of the loop of lines 546-553. *)
Definition calibrated_star (compUsedFile : option CompUsed)
    (calibStands : list (list float)) (calibCompUsed : list (list float)) (r : nat)
    : Result (float * list float) :=
  col <- column calibCompUsed r ;;
  match compUsedFile with
  | None => Raise (NameError "compUsedFile")
  | Some (OneComp (a, d, v)) =>
      stand <- getitem calibStands 0 ;;
      emag <- getitem stand 4 ;;
      Ok (np.std col, [a; d; v; np.median col; emag])
  | Some (CompTable rows) =>
      '(a, d, v) <- getitem rows r ;;
      Ok (np.std col, [a; d; v; np.median col; np.std col])
  end.

(** Lines 541-559: per comparison star the median and the standard deviation
    of its calibrated magnitudes over the frames, then [errCalib], the
    uncertainty written to [calibrationErrors.txt]. *)
Definition calibration_summary (compUsedFile : option CompUsed)
    (calibStands : list (list float)) (calibCompUsed : list (list float))
    : Result Calibration :=
  first <- getitem calibCompUsed 0 ;;
  stars <- mapM (calibrated_star compUsedFile calibStands calibCompUsed)
             (seq 0 (length first)) ;;
  let sumStd := map fst stars in
  Ok (mkCalibration (map snd stars) sumStd
        (np.median sumStd / pow_half (float_of_nat (length first)))%float).

(** ** The rest of [find_comparisons_calibrated], lines 404-579

    What precedes line 404 reads the inputs: [fileList] from
    [usedImages.txt], [compFile] from [stdComps.csv] (after line 397 a table
    of at least two rows) and, per frame, the photometry file.  They are
    arguments here, the frames already loaded. *)
Section Calibrated.

Variable log10 : float -> float.
Variable separation : SkyCoord -> SkyCoord -> float.

(** The catalogue service: the table it returns for a catalogue and the
    columns asked of it, or [None] when the lookup fails or finds nothing. *)
Variable vizier : string -> Columns -> option (list CatRow).

(** Lines 422-425. *)
Definition catalogue_max_sep (cat_name : string) : float :=
  if String.eqb cat_name "PanSTARRS" || String.eqb cat_name "APASS"
  then 2.5%float else 1.5%float.

(** Lines 416-419: the catalogues the two switches pass over. *)
Definition skipped (nopanstarrs nosdss : bool) (cat_name : string) : bool :=
  (String.eqb cat_name "PanSTARRS" && nopanstarrs)
  || (String.eqb cat_name "SDSS" && nosdss).

(** What the search has found: [None] is [coords == []]; otherwise [coords],
    [max_sep] and [cat_used], which are bound together. *)
Definition Found : Type := (CatData * float * string)%type.

(** The body of [for cat_name, opt in catalogues.items()], lines 413-431.
    Only an AstrosourceException is caught. *)
Definition search_step (fuel : nat) (targets : Targets) (nopanstarrs nosdss : bool)
    (closerejectd : float) (coords : option Found) (entry : string * Columns)
    : option (Result (option Found)) :=
  match coords with
  | Some _ => Some (Ok coords)
  | None =>
      if skipped nopanstarrs nosdss (fst entry) then Some (Ok coords)
      else
        match catalogue_call separation fuel (vizier (fst entry) (snd entry))
                (fst entry) targets closerejectd with
        | None => None
        | Some (Ok data) =>
            Some (Ok (Some (data, catalogue_max_sep (data_cat_name data), fst entry)))
        | Some (Raise (AstrosourceException _)) => Some (Ok coords)
        | Some (Raise e) => Some (Raise e)
        end
  end.

(** Lines 411-431. *)
Fixpoint search_catalogues (fuel : nat) (targets : Targets) (nopanstarrs nosdss : bool)
    (closerejectd : float) (catalogues : dict Columns) (coords : option Found)
    : option (Result (option Found)) :=
  match catalogues with
  | [] => Some (Ok coords)
  | entry :: rest =>
      match search_step fuel targets nopanstarrs nosdss closerejectd coords entry with
      | None => None
      | Some (Raise e) => Some (Raise e)
      | Some (Ok coords') =>
          search_catalogues fuel targets nopanstarrs nosdss closerejectd rest coords'
      end
  end.

(** A row of [calibStands]: position and score of a candidate, magnitude and
    error of its catalogue match. *)
Record CalibStand : Type := mkCalibStand {
  cs_ra : float;
  cs_dec : float;
  cs_std : float;
  cs_mag : float;
  cs_emag : float
}.

Definition stand_values (s : CalibStand) : list float :=
  [cs_ra s; cs_dec s; cs_std s; cs_mag s; cs_emag s].

(** The body of the loop of lines 445-450: the rows it appends, none or
    one. *)
Definition match_standard (coords : CatData) (max_sep : float) (star : SortStar)
    : Result (list CalibStand) :=
  '(idxcomp, d2dcomp) <- match_to_catalog_sky separation (ss_ra star, ss_dec star)
                           (combine (data_ra coords) (data_dec coords)) ;;
  if (d2dcomp <? max_sep)%float
  then
    mag <- getitem (data_mag coords) idxcomp ;;
    if negb (np.isnan mag)
    then
      emag <- getitem (data_emag coords) idxcomp ;;
      Ok [mkCalibStand (ss_ra star) (ss_dec star) (ss_std star) mag emag]
    else Ok []
  else Ok [].

(** [delete(rows, indices, axis=0)]. *)
Definition delete_at {A : Type} (rows : list A) (indices : list nat) : list A :=
  map snd (filter (fun e => negb (existsb (Nat.eqb (fst e)) indices)) (enumerate rows)).

(** Lines 441-471: the candidates matched in the catalogue, less those whose
    score is above [varimin]. *)
Definition calibration_standards (coords : CatData) (max_sep : float)
    (compFile : list SortStar) (variabilityMultiplier : float)
    : Result (list CalibStand) :=
  matched <- mapM (match_standard coords max_sep) compFile ;;
  let calibStands := concat matched in
  if (length calibStands =? 0)%nat
  then Raise (AstrosourceException "Stars are too dim to calibrate to.")
  else
    least <- np.min (map cs_std calibStands) ;;
    let varimin := (least * variabilityMultiplier)%float in
    let calibStandsReject :=
      map fst (filter (fun e => (varimin <? cs_std (snd e))%float) (enumerate calibStands)) in
    Ok (delete_at calibStands calibStandsReject).

(** Lines 487-489 on one row: the error from the flux, then the flux as an
    instrumental magnitude. *)
Definition instrumental (r : PhotRow) : PhotRow :=
  mkRow (ra r) (dec r) (xcen r) (ycen r)
    (-2.5 * log10 (counts r))%float (1.0857 * (counts_err r / counts r))%float.

Definition shift (tempZP : float) (r : PhotRow) : PhotRow :=
  mkRow (ra r) (dec r) (xcen r) (ycen r) (counts r + tempZP)%float (counts_err r).

(** [photFile[idx,4]] for the row nearest to a position. *)
Definition nearest_magnitude (photCoords : list SkyCoord) (photFile : list PhotRow)
    (coord : SkyCoord) : Result float :=
  '(idx, _) <- match_to_catalog_sky separation coord photCoords ;;
  row <- getitem photFile idx ;;
  Ok (counts row).

(** Lines 483-511: the frame calibrated, which is saved. *)
Definition calibrate_frame (calibStands : list CalibStand) (photFile : list PhotRow)
    : Result (list PhotRow) :=
  let photCoords := coords_of photFile in
  let converted := map instrumental photFile in
  tempDiff <- mapM (fun s =>
                      m <- nearest_magnitude photCoords converted (cs_ra s, cs_dec s) ;;
                      Ok (cs_mag s - m)%float) calibStands ;;
  let tempZP := np.median tempDiff in
  Ok (map (shift tempZP) converted).

(** Lines 515-529: [lineCompUsed], the calibrated magnitudes of the
    comparisons actually used, read off the calibrated frame. *)
Definition comparisons_used (compUsedFile : option CompUsed) (photFile calibrated : list PhotRow)
    : Result (list float) :=
  match compUsedFile with
  | None => Raise (NameError "compUsedFile")
  | Some (OneComp (a, d, _)) =>
      m <- nearest_magnitude (coords_of photFile) calibrated (a, d) ;; Ok [m]
  | Some (CompTable rows) =>
      mapM (fun c => nearest_magnitude (coords_of photFile) calibrated (fst (fst c), snd (fst c)))
        rows
  end.

(** The body of [for file in fileList], lines 479-534. *)
Definition calibrate_file (compUsedFile : option CompUsed) (calibStands : list CalibStand)
    (photFile : list PhotRow) : Result (list float) :=
  calibrated <- calibrate_frame calibStands photFile ;;
  comparisons_used compUsedFile photFile calibrated.

(** Lines 404-579, returning [finalCompUsedFile] as an array. *)
Definition find_comparisons_calibrated (fuel : nat) (compUsedFile : option CompUsed)
    (targets : Targets) (filterCode : string) (photFiles : list (list PhotRow))
    (compFile : list SortStar) (nopanstarrs nosdss : bool)
    (closerejectd variabilityMultiplier : float)
    : option (Result (list (list float))) :=
  match filter_catalogues filterCode with
  | Raise e => Some (Raise e)
  | Ok catalogues =>
      match search_catalogues fuel targets nopanstarrs nosdss closerejectd catalogues None with
      | None => None
      | Some (Raise e) => Some (Raise e)
      | Some (Ok None) =>
          Some (Raise (AstrosourceException
                  ("Could not find coordinate match in any catalogues for " ++ filterCode)%string))
      | Some (Ok (Some (coords, max_sep, cat_used))) =>
          Some (calibStands <- calibration_standards coords max_sep compFile
                                 variabilityMultiplier ;;
                calibCompUsed <- mapM (calibrate_file compUsedFile calibStands) photFiles ;;
                summary <- calibration_summary compUsedFile (map stand_values calibStands)
                             calibCompUsed ;;
                Ok (finalCompUsedFile summary))
      end
  end.

End Calibrated.

(** ** Stand-ins for evaluation

    Executable instances of the two section variables, used where a theorem
    is run on a concrete input. *)
Module Libm.

Definition ln2 : float := 0x1.62e42fefa39efp-1%float.
Definition ln10 : float := 0x1.26bb1bbb55516p+1%float.
Definition sqrt_half : float := 0x1.6a09e667f3bcdp-1%float.

(** [1/k + t2/(k+2) + t2^2/(k+4) + ...], [n+1] terms, by Horner's rule. *)
Fixpoint atanh_tail (n : nat) (k : float) (t2 : float) : float :=
  match n with
  | O => (1 / k)%float
  | S n' => (1 / k + t2 * atanh_tail n' (k + 2) t2)%float
  end.

(** The base-10 logarithm: NaN on NaN and on negative numbers, minus infinity
    at zero, infinity at infinity; elsewhere [x = m * 2^e] with [m] near one
    and the series of [2 * atanh((m-1)/(m+1))], within a few units in the
    last place of the exact value. *)
Definition log10 (x : float) : float :=
  if PrimFloat.is_nan x then PrimFloat.nan
  else if (x <? 0)%float then PrimFloat.nan
  else if (x =? 0)%float then PrimFloat.neg_infinity
  else if (x =? PrimFloat.infinity)%float then PrimFloat.infinity
  else
    let (m, e) := Z.frexp x in
    let (m', e') :=
      if (m <? sqrt_half)%float then ((m * 2)%float, (e - 1)%Z) else (m, e) in
    let t := ((m' - 1) / (m' + 1))%float in
    ((float_of_Z e' * ln2 + 2 * t * atanh_tail 14 1 (t * t)) / ln10)%float.

End Libm.

Module Sky.

(** The separation of two positions in arcseconds on a flat sky:
    [3600 * sqrt(dra^2 + ddec^2)].  For two positions on one meridian it is
    the great-circle separation, [3600 * |ddec|]. *)
Definition separation (a b : SkyCoord) : float :=
  let dra := (fst a - fst b)%float in
  let ddec := (snd a - snd b)%float in
  (3600 * PrimFloat.sqrt (dra * dra + ddec * ddec))%float.

End Sky.

(** * Statements

    What the theorems below speak of, besides the program itself. *)

(** [a] does not come after [b] in numpy's order: [b < a] fails, and a NaN
    [a] is only followed by NaN. *)
Definition np_le (a b : float) : bool := negb (np.lt b a).

(** [argsort]'s order on indices: index [i] holds a key that does not come
    after the key of index [j]. *)
Definition key_le (keys : list float) (i j : nat) : Prop :=
  np_le (nth i keys PrimFloat.nan) (nth j keys PrimFloat.nan) = true.

Definition triple (star : SortStar) : float * float * float :=
  (ss_ra star, ss_dec star, ss_std star).

(** The selection rule in the words of the specification (4.4), on a walk
    that lists each candidate with its flux contribution: a candidate is
    accepted when the running sum before it is below the threshold and it is
    the only candidate or its score is below [variabilityMax]; its
    contribution is added to the running sum either way. *)
Fixpoint selector_spec (thresholdCounts variabilityMax : float) (single : bool)
    (running : float) (walk : list (SortStar * float)) : list (float * float * float) :=
  match walk with
  | [] => []
  | (star, flux) :: rest =>
      let later :=
        selector_spec thresholdCounts variabilityMax single (running + flux)%float rest in
      if (running <? thresholdCounts)%float
         && (single || (ss_std star <? variabilityMax)%float)
      then triple star :: later else later
  end.

(** The running sum before the [k]-th candidate of a walk: the contributions
    of all earlier candidates, accepted or not. *)
Definition running_sum (walk : list (SortStar * float)) (k : nat) : float :=
  fold_left PrimFloat.add (map snd (firstn k walk)) 0%float.

(** The flux contribution of a candidate: the counts of the row of the
    reference frame that matches its position. *)
Definition contribution (separation : SkyCoord -> SkyCoord -> float)
    (referenceFrame : list PhotRow) (star : SortStar) (flux : float) : Prop :=
  exists idx d2d row,
    match_to_catalog_sky separation (ss_ra star, ss_dec star) (coords_of referenceFrame)
      = Ok (idx, d2d)
    /\ nth_error referenceFrame idx = Some row
    /\ flux = counts row.

(** Whether a VSX entry passes the test of line 247 against the candidate
    nearest to it. *)
Definition passes_match_test (separation : SkyCoord -> SkyCoord -> float)
    (acceptDistance : float) (compFile : list PhotRow) (compCoord : SkyCoord) : bool :=
  match match_to_catalog_sky separation compCoord (coords_of compFile) with
  | Ok (_, d2dcomp) => variable_star_match acceptDistance d2dcomp
  | Raise _ => false
  end.

(** Whether every separation between two positions of a catalogue is a
    number. *)
Definition numbers (separation : SkyCoord -> SkyCoord -> float)
    (catalog : list SkyCoord) : bool :=
  forallb (fun a => forallb (fun b => negb (PrimFloat.is_nan (separation a b))) catalog)
    catalog.


(** The search of lines 411-431 passes over a catalogue that a switch
    excludes, and over one whose call ends in an AstrosourceException. *)
Definition passed_over (separation : SkyCoord -> SkyCoord -> float)
    (vizier : string -> Columns -> option (list CatRow)) (fuel : nat) (targets : Targets)
    (nopanstarrs nosdss : bool) (closerejectd : float) (entry : string * Columns) : Prop :=
  skipped nopanstarrs nosdss (fst entry) = true
  \/ exists msg,
       catalogue_call separation fuel (vizier (fst entry) (snd entry)) (fst entry) targets
         closerejectd
       = Some (Raise (AstrosourceException msg)).

(** A candidate and the row of [calibStands] made of it: the nearest entry of
    the catalogue is within [max_sep], its magnitude is a number, and the row
    carries the candidate's position and score with that entry's magnitude
    and error. *)
Definition standard_of (separation : SkyCoord -> SkyCoord -> float) (coords : CatData)
    (max_sep : float) (star : SortStar) (s : CalibStand) : Prop :=
  exists idx d2d,
    match_to_catalog_sky separation (ss_ra star, ss_dec star)
      (combine (data_ra coords) (data_dec coords)) = Ok (idx, d2d)
    /\ (d2d <? max_sep)%float = true
    /\ nth_error (data_mag coords) idx = Some (cs_mag s)
    /\ PrimFloat.is_nan (cs_mag s) = false
    /\ nth_error (data_emag coords) idx = Some (cs_emag s)
    /\ s = mkCalibStand (ss_ra star) (ss_dec star) (ss_std star) (cs_mag s) (cs_emag s).

(** A candidate without a row in [calibStands]: the catalogue has an entry,
    and the nearest one is not within [max_sep] or its magnitude is NaN. *)
Definition unmatched (separation : SkyCoord -> SkyCoord -> float) (coords : CatData)
    (max_sep : float) (star : SortStar) : Prop :=
  exists idx d2d,
    match_to_catalog_sky separation (ss_ra star, ss_dec star)
      (combine (data_ra coords) (data_dec coords)) = Ok (idx, d2d)
    /\ ((d2d <? max_sep)%float = false
        \/ exists mag, nth_error (data_mag coords) idx = Some mag
                       /\ PrimFloat.is_nan mag = true).

(** The comparisons of [compUsedFile], one star or the rows of a table. *)
Definition comparisons_of (used : CompUsed) : list (float * float * float) :=
  match used with
  | OneComp c => [c]
  | CompTable rows => rows
  end.

(** The calibrated magnitudes of a comparison over the frames: per frame,
    column 4 of the row of the calibrated frame nearest to the comparison. *)
Definition calibrated_magnitudes (log10 : float -> float)
    (separation : SkyCoord -> SkyCoord -> float) (calibStands : list CalibStand)
    (photFiles : list (list PhotRow)) (c : float * float * float) (col : list float)
    : Prop :=
  Forall2 (fun photFile m =>
             exists calibrated,
               calibrate_frame log10 separation calibStands photFile = Ok calibrated
               /\ nearest_magnitude separation (coords_of photFile) calibrated
                    (fst (fst c), snd (fst c)) = Ok m)
    photFiles col.

(** * Inputs the theorems are run on *)

(** Two frames of two candidates; the second candidate has no counts in the
    first frame. *)
Definition nan_frames : list (list PhotRow) :=
  [ [ mkRow 10 1 100 100 1000 30; mkRow 10 2 200 200 0 30 ];
    [ mkRow 10 1 100 100 1000 30; mkRow 10 2 200 200 500 30 ] ]%float.

(** Calibrated magnitudes of four comparison stars in two frames. *)
Definition two_frames_four_stars : list (list float) :=
  [ [1; 5; 10; 20]; [3; 7; 12; 22] ]%float.

Definition four_comps : CompUsed :=
  CompTable [ (10, 1, 0.1); (10, 2, 0.1); (10, 3, 0.1); (10, 4, 0.1) ]%float.

(** One frame of two candidates: each score is the deviation of a single
    number, zero, so the minimum is below 0.002 and nothing is rejected. *)
Definition one_frame_two_stars : list (list PhotRow) :=
  [ [ mkRow 10 1 100 100 1000 30; mkRow 10 2 200 200 3000 50 ] ]%float.

Definition one_frame_pass : Pass :=
  mkPass one_frame_two_stars [mkSortStar 10 1 0; mkSortStar 10 2 0]%float
    0%float [true; true].

(** Two frames of six candidates; the last candidate brightens fourfold in
    the second frame. *)
Definition six_stars : list (list PhotRow) :=
  [ [ mkRow 10 1 0 0 1000 30; mkRow 10 2 0 0 1000 30; mkRow 10 3 0 0 1000 30;
      mkRow 10 4 0 0 1000 30; mkRow 10 5 0 0 1000 30; mkRow 10 6 0 0 1000 30 ];
    [ mkRow 10 1 0 0 1000 30; mkRow 10 2 0 0 1000 30; mkRow 10 3 0 0 1000 30;
      mkRow 10 4 0 0 1000 30; mkRow 10 5 0 0 1000 30; mkRow 10 6 0 0 4000 60 ] ]%float.

(** Two candidates on the meridian of right ascension 10 degrees. *)
Definition two_candidates : list (list PhotRow) :=
  [ [ mkRow 10 1 100 100 4000 60; mkRow 10 2 200 200 3000 50 ] ]%float.

Definition single_candidate : list (list PhotRow) :=
  [ [ mkRow 10 1 100 100 4000 60 ]; [ mkRow 10 1 100 100 4100 60 ] ]%float.

(** Four catalogue rows on one meridian; the first two are 3.6 arcseconds
    apart. *)
Definition crowded_catalogue : list CatRow :=
  [ mkCatRow 10 1 12 0.01 0; mkCatRow 10 1.001 13 0.01 0;
    mkCatRow 10 2 14 0.01 0; mkCatRow 10 3 15 0.01 0 ]%float.

(** Two frames of three candidates with small changes of flux. *)
Definition quiet_frames : list (list PhotRow) :=
  [ [ mkRow 10 1 0 0 4000 60; mkRow 10 2 0 0 3000 50; mkRow 10 3 0 0 5000 70 ];
    [ mkRow 10 1 0 0 4400 60; mkRow 10 2 0 0 3000 50; mkRow 10 3 0 0 5200 70 ] ]%float.

(** Three candidates; the reference frame gives them 4000, 3000 and 5000
    counts. *)
Definition three_stars : list (list PhotRow) :=
  [ [ mkRow 10 1 100 100 4000 60; mkRow 10 2 200 200 3000 50;
      mkRow 10 3 300 300 5000 70 ] ]%float.

Definition three_scores : list SortStar :=
  [ mkSortStar 10 1 0.03; mkSortStar 10 2 0.01; mkSortStar 10 3 0.02 ]%float.

(** A catalogue service that has the field in SkyMapper only. *)
Definition skymapper_only (cat_name : string) (opt : Columns) : option (list CatRow) :=
  if String.eqb cat_name "SkyMapper" then Some crowded_catalogue else None.

(** A catalogue service whose SDSS table has one row, of poor quality, for
    the field; the other catalogues have it. *)
Definition poor_sdss (cat_name : string) (opt : Columns) : option (list CatRow) :=
  if String.eqb cat_name "SDSS" then Some [mkCatRow 10 1 12 0.01 1]%float
  else Some crowded_catalogue.

(** A catalogue service that finds nothing. *)
Definition no_service (cat_name : string) (opt : Columns) : option (list CatRow) := None.

(** The two uncrowded rows of [crowded_catalogue], as APASS data and far
    away from the candidates as well. *)
Definition apass_field : CatData :=
  mkCatData "APASS" [10; 10]%float [2; 3]%float [14; 15]%float [0.01; 0.01]%float.

Definition distant_field : CatData :=
  mkCatData "APASS" [20; 20]%float [2; 3]%float [14; 15]%float [0.01; 0.01]%float.

(** * Theorems *)

(** ** Order facts about binary64 comparisons

    [<?] on floats is a strict order in which NaN compares with nothing;
    read off [SFcompare] through the specification of the primitives. *)
Module FloatOrder.

Definition sf_lt (a b : spec_float) : Prop := SFcompare a b = Some Lt.

Ltac cmp_cases :=
  repeat match goal with
  | |- context [Z.compare ?a ?b] => destruct (Z.compare_spec a b)
  | H : context [Z.compare ?a ?b] |- _ => destruct (Z.compare_spec a b)
  | |- context [Pos.compare_cont Eq ?a ?b] =>
      change (Pos.compare_cont Eq a b) with (Pos.compare a b);
      destruct (Pos.compare_spec a b)
  | H : context [Pos.compare_cont Eq ?a ?b] |- _ =>
      change (Pos.compare_cont Eq a b) with (Pos.compare a b) in H;
      destruct (Pos.compare_spec a b)
  end.

Ltac sf_auto :=
  simpl in *; try discriminate; try tauto; try congruence;
  cmp_cases; simpl in *; subst; try discriminate; try tauto; try congruence; try lia.

Lemma sf_lt_asym (a b : spec_float) : sf_lt a b -> ~ sf_lt b a.
Proof.
  unfold sf_lt.
  destruct a as [[]|[]| |[] ma ea], b as [[]|[]| |[] mb eb]; sf_auto.
Qed.

Lemma sf_lt_negtrans (a b c : spec_float) :
  b <> S754_nan -> sf_lt c a -> sf_lt c b \/ sf_lt b a.
Proof.
  unfold sf_lt.
  destruct a as [[]|[]| |[] ma ea], b as [[]|[]| |[] mb eb], c as [[]|[]| |[] mc ec];
    intros Hb H; try congruence; try discriminate H; simpl; auto; sf_auto.
Qed.

Lemma is_nan_spec (x : float) : PrimFloat.is_nan x = true <-> Prim2SF x = S754_nan.
Proof.
  unfold PrimFloat.is_nan. rewrite eqb_spec. unfold SFeqb.
  destruct (Prim2SF x) as [[]|[]| |[] m e] eqn:E; simpl;
    try (split; [discriminate | congruence]); try tauto.
  all: rewrite Z.compare_refl;
    change (Pos.compare_cont Eq m m) with (Pos.compare m m);
    rewrite Pos.compare_refl; simpl; split; [discriminate | congruence].
Qed.

Lemma is_nan_false (x : float) : PrimFloat.is_nan x = false <-> Prim2SF x <> S754_nan.
Proof.
  rewrite <- is_nan_spec. destruct (PrimFloat.is_nan x); split; congruence.
Qed.

Lemma ltb_iff (x y : float) : (x <? y)%float = true <-> sf_lt (Prim2SF x) (Prim2SF y).
Proof.
  rewrite ltb_spec. unfold SFltb, sf_lt.
  destruct (SFcompare (Prim2SF x) (Prim2SF y)) as [[]|]; split; congruence.
Qed.

Lemma ltb_not_nan (x y : float) :
  (x <? y)%float = true -> PrimFloat.is_nan x = false /\ PrimFloat.is_nan y = false.
Proof.
  rewrite ltb_iff, !is_nan_false. unfold sf_lt.
  destruct (Prim2SF x), (Prim2SF y); simpl; intros H; split; congruence.
Qed.

Lemma ltb_asym (x y : float) : (x <? y)%float = true -> (y <? x)%float = false.
Proof.
  intros H. apply ltb_iff in H. apply sf_lt_asym in H.
  destruct (y <? x)%float eqn:E; [| reflexivity].
  apply ltb_iff in E. contradiction.
Qed.

Lemma ltb_irrefl (x : float) : (x <? x)%float = false.
Proof.
  destruct (x <? x)%float eqn:E; [| reflexivity].
  pose proof (ltb_asym _ _ E) as H. congruence.
Qed.

Lemma ltb_negtrans (a b c : float) :
  PrimFloat.is_nan b = false -> (c <? a)%float = true ->
  (c <? b)%float = true \/ (b <? a)%float = true.
Proof.
  rewrite is_nan_false, !ltb_iff. apply sf_lt_negtrans.
Qed.

Lemma ltb_trans (a b c : float) :
  (a <? b)%float = true -> (b <? c)%float = true -> (a <? c)%float = true.
Proof.
  intros Hab Hbc.
  destruct (ltb_not_nan _ _ Hbc) as [_ Hc].
  destruct (ltb_negtrans b c a Hc Hab) as [H | H]; [assumption |].
  apply ltb_asym in Hbc. congruence.
Qed.

Lemma ltb_false_leb (a b : float) :
  PrimFloat.is_nan a = false -> PrimFloat.is_nan b = false ->
  (a <? b)%float = false -> (b <=? a)%float = true.
Proof.
  rewrite !is_nan_false, ltb_spec, leb_spec. unfold SFltb, SFleb.
  destruct (Prim2SF a) as [[]|[]| |[] ma ea], (Prim2SF b) as [[]|[]| |[] mb eb];
    intros Ha Hb; try congruence; simpl; try congruence; try reflexivity;
    cmp_cases; simpl; subst; try congruence; try reflexivity; try lia.
Qed.

Lemma eqb_nan_r (x : float) : (x =? PrimFloat.nan)%float = false.
Proof.
  rewrite eqb_spec. unfold SFeqb.
  destruct (Prim2SF x); reflexivity.
Qed.

End FloatOrder.

(** ** Results *)

Lemma bind_Ok {A B : Type} (r : Result A) (k : A -> Result B) (b : B) :
  bind r k = Ok b -> exists a, r = Ok a /\ k a = Ok b.
Proof.
  destruct r as [a | e]; simpl; intros H; [eauto | discriminate].
Qed.

Lemma bind_Raise {A B : Type} (r : Result A) (k : A -> Result B) (e : exn) :
  bind r k = Raise e -> r = Raise e \/ exists a, r = Ok a /\ k a = Raise e.
Proof.
  destruct r as [a | e']; simpl; intros H; [right; eauto | left; congruence].
Qed.

Lemma mapM_Ok {A B : Type} (f : A -> Result B) (xs : list A) (ys : list B) :
  mapM f xs = Ok ys -> Forall2 (fun x y => f x = Ok y) xs ys.
Proof.
  revert ys. induction xs as [| x xs IH]; simpl; intros ys H.
  - injection H as <-. constructor.
  - apply bind_Ok in H as (y & Hy & H).
    apply bind_Ok in H as (ys' & Hys & H).
    injection H as <-. constructor; auto.
Qed.

Lemma mapM_Raise {A B : Type} (f : A -> Result B) (xs : list A) (e : exn) :
  mapM f xs = Raise e -> exists x, In x xs /\ f x = Raise e.
Proof.
  induction xs as [| x xs IH]; simpl; intros H; [discriminate |].
  apply bind_Raise in H as [H | (y & _ & H)]; [eauto |].
  apply bind_Raise in H as [H | (ys & _ & H)]; [| discriminate].
  destruct (IH H) as (x' & Hin & Hx'). eauto.
Qed.

Lemma getitem_Raise {A : Type} (xs : list A) (i : nat) (e : exn) :
  getitem xs i = Raise e -> e = IndexError.
Proof.
  unfold getitem. destruct (nth_error xs i); congruence.
Qed.

Lemma getitem2_Raise (comparisons : list (list PhotRow)) (q j : nat) (e : exn) :
  getitem2 comparisons q j = Raise e -> e = IndexError.
Proof.
  unfold getitem2. intros H.
  apply bind_Raise in H as [H | (frame & _ & H)]; eapply getitem_Raise; eauto.
Qed.

(** ** [calculate_comparison_variation] and the NaN test *)

(** [x == np.nan] is false for every [x], NaN included, so line 190 is never
    reached: the only exceptions the function can raise are the IndexError of
    an index out of range and, on a table with no frame, the ValueError of
    line 175. *)
Lemma calculate_comparison_variation_raises (log10 : float -> float)
    (comparisons : list (list PhotRow)) (fileCount : list float) (e : exn) :
  calculate_comparison_variation log10 comparisons fileCount = Raise e ->
  e = IndexError \/ (e = ValueError /\ comparisons = []).
Proof.
  unfold calculate_comparison_variation.
  destruct comparisons as [| frame0 rest]; [intros H; right; split; congruence |].
  intros H. left.
  apply bind_Raise in H as [H | (rows & _ & H)]; [| discriminate].
  apply mapM_Raise in H as (j & _ & H).
  apply bind_Raise in H as [H | (ref & _ & H)]; [eapply getitem2_Raise; eauto |].
  apply bind_Raise in H as [H | (mags & _ & H)].
  - apply mapM_Raise in H as ([q count] & _ & H).
    apply bind_Raise in H as [H | (row & _ & H)]; [| discriminate].
    eapply getitem2_Raise; eauto.
  - rewrite FloatOrder.eqb_nan_r in H. discriminate.
Qed.

Lemma calculate_comparison_variation_never_exits (log10 : float -> float)
    (comparisons : list (list PhotRow)) (fileCount : list float) :
  calculate_comparison_variation log10 comparisons fileCount <> Raise SystemExit.
Proof.
  intros H. apply calculate_comparison_variation_raises in H as [H | [H _]]; discriminate.
Qed.

(** C3 (what the code does on the failing input): the differential magnitudes
    of the second candidate of [nan_frames] are minus infinity and a finite
    number, their standard deviation is NaN, and
    [calculate_comparison_variation] returns normally with that NaN recorded
    as the candidate's score instead of ending the run. *)
Theorem C3_nan_score_is_recorded :
  exists scores sortStars,
    calculate_comparison_variation Libm.log10 nan_frames (ensemble_counts nan_frames)
      = Ok (scores, sortStars)
    /\ map np.isnan scores = [false; true]
    /\ map (fun s => np.isnan (ss_std s)) sortStars = [false; true].
Proof.
  eexists. eexists. split; [vm_compute; reflexivity |].
  split; vm_compute; reflexivity.
Qed.

(** ** The filter lookup of [find_comparisons_calibrated] *)

Lemma dict_getitem_missing {V : Type} (d : dict V) (key : string) :
  ~ In key (map fst d) -> dict_getitem d key = Raise (KeyError key).
Proof.
  induction d as [| [k v] d IH]; simpl; intros H; [reflexivity |].
  destruct (String.eqb_spec k key) as [-> | Hne]; [tauto |].
  apply IH. tauto.
Qed.

(** A band that is not a key of [FILTERS] leaves the function as the KeyError
    of the dict lookup: the handler of line 406 names IndexError. *)
Lemma filter_catalogues_unsupported (filterCode : string) :
  ~ In filterCode (map fst FILTERS) ->
  filter_catalogues filterCode = Raise (KeyError filterCode).
Proof.
  intros H. unfold filter_catalogues.
  rewrite (dict_getitem_missing FILTERS filterCode H). reflexivity.
Qed.

Lemma dict_getitem_raises {V : Type} (d : dict V) (key : string) (e : exn) :
  dict_getitem d key = Raise e -> e = KeyError key.
Proof.
  induction d as [| [k v] d IH]; simpl; [congruence |].
  destruct (String.eqb k key); [discriminate | exact IH].
Qed.

Lemma filter_catalogues_never_astrosource (filterCode msg : string) :
  filter_catalogues filterCode <> Raise (AstrosourceException msg).
Proof.
  unfold filter_catalogues.
  destruct (dict_getitem FILTERS filterCode) as [v | e] eqn:E; [discriminate |].
  apply dict_getitem_raises in E. subst e. discriminate.
Qed.

(** C8 (what the code does on the failing input): for the band ["R"], which
    [FILTERS] does not list, the lookup raises [KeyError "R"] and nothing
    turns it into the AstrosourceException of line 407. *)
Theorem C8_unsupported_band_is_a_KeyError :
  ~ In "R" (map fst FILTERS)
  /\ filter_catalogues "R" = Raise (KeyError "R")
  /\ filter_catalogues "R" <> Raise (AstrosourceException "R is not accepted at present").
Proof.
  split; [| split].
  - simpl. intros H. repeat (destruct H as [H | H]; [discriminate H |]). exact H.
  - reflexivity.
  - discriminate.
Qed.

(** ** The calibration uncertainty *)

Lemma Forall2_map_r {A B C : Type} (P : A -> C -> Prop) (f : B -> C)
    (xs : list A) (ys : list B) :
  Forall2 (fun x y => P x (f y)) xs ys -> Forall2 P xs (map f ys).
Proof.
  induction 1; simpl; constructor; auto.
Qed.

Lemma calibrated_star_std (compUsedFile : option CompUsed)
    (calibStands calibCompUsed : list (list float)) (r : nat) (y : float * list float) :
  calibrated_star compUsedFile calibStands calibCompUsed r = Ok y ->
  exists col, column calibCompUsed r = Ok col /\ fst y = np.std col.
Proof.
  unfold calibrated_star. intros H.
  apply bind_Ok in H as (col & Hcol & H). exists col. split; [assumption |].
  destruct compUsedFile as [[[[a d] v] | rows] |]; [| | discriminate].
  - apply bind_Ok in H as (stand & _ & H). apply bind_Ok in H as (emag & _ & H).
    injection H as <-. reflexivity.
  - apply bind_Ok in H as ([[a d] v] & _ & H). injection H as <-. reflexivity.
Qed.

(** C4 (amended): whenever the aggregation of lines 541-559 completes,
    [sumStd] holds, for each comparison star (each column of
    [calibCompUsed]), the standard deviation of that star's calibrated
    magnitudes over the frames, and the reported uncertainty [errCalib] is
    the median of [sumStd] divided by the square root of the number of
    comparison stars, the length of a row of [calibCompUsed]. *)
Theorem C4_uncertainty_divides_by_sqrt_of_star_count
    (compUsedFile : option CompUsed) (calibStands calibCompUsed : list (list float))
    (c : Calibration) :
  calibration_summary compUsedFile calibStands calibCompUsed = Ok c ->
  exists first,
    nth_error calibCompUsed 0 = Some first
    /\ Forall2 (fun r s => exists col, column calibCompUsed r = Ok col /\ s = np.std col)
         (seq 0 (length first)) (sumStd c)
    /\ length (sumStd c) = length first
    /\ errCalib c
       = (np.median (sumStd c) / pow_half (float_of_nat (length first)))%float.
Proof.
  unfold calibration_summary. intros H.
  apply bind_Ok in H as (first & Hfirst & H).
  apply bind_Ok in H as (stars & Hstars & H).
  injection H as <-. simpl.
  exists first. unfold getitem in Hfirst.
  destruct (nth_error calibCompUsed 0) as [f |] eqn:E; [| discriminate].
  injection Hfirst as ->.
  apply mapM_Ok in Hstars.
  assert (HF : Forall2 (fun r s => exists col, column calibCompUsed r = Ok col /\ s = np.std col)
                 (seq 0 (length first)) (map fst stars)).
  { apply Forall2_map_r.
    eapply Forall2_impl; [| exact Hstars].
    intros r y Hy. simpl in Hy. apply calibrated_star_std in Hy. exact Hy. }
  repeat split; try assumption.
  apply Forall2_length in HF. rewrite length_seq in HF. congruence.
Qed.

Lemma C4_witness :
  exists first,
    nth_error two_frames_four_stars 0 = Some first
    /\ Forall2 (fun r s => exists col, column two_frames_four_stars r = Ok col
                                       /\ s = np.std col)
         (seq 0 (length first)) [1; 1; 1; 1]%float
    /\ length [1; 1; 1; 1]%float = length first
    /\ 0.5%float = (np.median [1; 1; 1; 1] / pow_half (float_of_nat (length first)))%float.
Proof.
  exact (C4_uncertainty_divides_by_sqrt_of_star_count
           (Some four_comps) [] two_frames_four_stars
           (mkCalibration
              [ [10; 1; 0.1; 2; 1]; [10; 2; 0.1; 6; 1];
                [10; 3; 0.1; 11; 1]; [10; 4; 0.1; 21; 1] ]%float
              [1; 1; 1; 1]%float 0.5%float)
           eq_refl).
Defined.

(** C4 (counterexample): with two frames and four comparison stars every
    star's standard deviation is 1, so their median is 1; the code reports
    [0.5 = 1 / sqrt 4], which differs from [1 / sqrt 2], the median over the
    square root of the number of frames. *)
Lemma C4_counterexample_uncertainty_ignores_frame_count :
  exists c,
    calibration_summary (Some four_comps) [] two_frames_four_stars = Ok c
    /\ length two_frames_four_stars = 2
    /\ sumStd c = [1; 1; 1; 1]%float
    /\ errCalib c = 0.5%float
    /\ (errCalib c =? np.median (sumStd c) / pow_half (float_of_nat 2))%float = false.
Proof.
  eexists. split; [vm_compute; reflexivity |].
  repeat split; vm_compute; reflexivity.
Qed.

(** ** The target exclusion of [catalogue_call] *)

Lemma getitem_app_mid {A : Type} (pre : list A) (x : A) (post : list A) :
  getitem (pre ++ x :: post) (length pre) = Ok x.
Proof.
  unfold getitem. rewrite nth_error_app2 by lia.
  rewrite Nat.sub_diag. reflexivity.
Qed.

Lemma take_rows_where (f : CatRow -> bool) (pre resp : list CatRow) :
  mapM (getitem (pre ++ resp))
       (map fst (filter (fun e => snd e) (enumerate_from (length pre) (map f resp))))
  = Ok (filter f resp).
Proof.
  revert pre. induction resp as [| r resp IH]; intros pre; simpl; [reflexivity |].
  assert (Hnext : mapM (getitem (pre ++ r :: resp))
            (map fst (filter (fun e => snd e)
               (enumerate_from (S (length pre)) (map f resp))))
          = Ok (filter f resp)).
  { specialize (IH (pre ++ [r])).
    rewrite <- app_assoc in IH. simpl in IH.
    rewrite length_app in IH. simpl in IH.
    rewrite Nat.add_1_r in IH. exact IH. }
  destruct (f r); simpl.
  - rewrite getitem_app_mid. simpl. rewrite Hnext. reflexivity.
  - exact Hnext.
Qed.

(** What line 323 keeps: the rows that differ from the target by more than
    0.0014 degrees in declination.  The right-ascension test is computed and
    dropped by [and]. *)
Lemma exclude_target_keeps (tg : Target) (resp : list CatRow) :
  exclude_target tg resp
  = Ok (filter (fun r => (0.0014 <? abs (cat_dec r - tg_dec tg))%float) resp).
Proof.
  unfold exclude_target, take_rows, tuple_and, where_, enumerate.
  exact (take_rows_where (fun r => (0.0014 <? abs (cat_dec r - tg_dec tg))%float) [] resp).
Qed.

Lemma exclude_targets_keeps (targets : list Target) (resp : list CatRow) :
  exclude_targets targets resp
  = Ok (filter (fun r => forallb (fun tg => (0.0014 <? abs (cat_dec r - tg_dec tg))%float)
                           targets) resp).
Proof.
  revert resp. induction targets as [| tg targets IH]; intros resp; simpl.
  - f_equal. induction resp as [| r resp IHr]; simpl; congruence.
  - rewrite exclude_target_keeps. simpl. rewrite IH. f_equal.
    induction resp as [| r resp IHr]; simpl; [reflexivity |].
    destruct (0.0014 <? abs (cat_dec r - tg_dec tg))%float; simpl.
    + destruct (forallb _ targets); simpl; congruence.
    + exact IHr.
Qed.

(** Every row that survives the exclusion is more than 0.0014 degrees from
    every target in declination. *)
Lemma exclude_targets_declination (targets : list Target) (resp kept : list CatRow) :
  exclude_targets targets resp = Ok kept ->
  forall r tg, In r kept -> In tg targets ->
    (0.0014 <? abs (cat_dec r - tg_dec tg))%float = true.
Proof.
  rewrite exclude_targets_keeps. intros H r tg Hr Htg.
  injection H as <-. apply filter_In in Hr as [_ Hr].
  rewrite forallb_forall in Hr. exact (Hr tg Htg).
Qed.


(** The test is on the declination alone: an entry with the right ascension
    of the target, 0.2 degrees from it in declination, is kept. *)
Example exclude_targets_keeps_entry_on_target_meridian :
  exclude_targets (target_rows (SingleTarget (mkTarget 10 20 0 0)))
    [mkCatRow 10 20.2 12 0.01 0]
  = Ok [mkCatRow 10 20.2 12 0.01 0]
  /\ (0.0014 <? abs (cat_ra (mkCatRow 10 20.2 12 0.01 0) - tg_ra (mkTarget 10 20 0 0)))%float
     = false.
Proof.
  split; vm_compute; reflexivity.
Qed.

(** ** The rejection loop of [find_comparisons] *)

Lemma list_bool_eqb_true (a b : list bool) : list_bool_eqb a b = true <-> a = b.
Proof.
  unfold list_bool_eqb. destruct (list_eq_dec bool_dec a b); split; congruence.
Qed.

Lemma list_bool_eqb_refl (a : list bool) : list_bool_eqb a a = true.
Proof. apply list_bool_eqb_true. reflexivity. Qed.

Lemma repeat_true_false (n : nat) : 0 < n -> list_bool_eqb (repeat true n) (repeat false n) = false.
Proof.
  intros Hn. destruct (list_bool_eqb _ _) eqn:E; [| reflexivity].
  apply list_bool_eqb_true in E. destruct n; [lia | discriminate].
Qed.

Lemma select_length {A : Type} (c : list A) (mask : list bool) :
  length (np.select c mask) <= length c.
Proof.
  revert mask. induction c as [| x c IH]; intros [| [] mask]; simpl; try lia;
    specialize (IH mask); lia.
Qed.

Lemma select_all_true {A : Type} (c : list A) :
  np.select c (repeat true (length c)) = c.
Proof.
  induction c as [| x c IH]; simpl; congruence.
Qed.

(** A mask that drops nothing is all true. *)
Lemma select_full {A : Type} (c : list A) (mask : list bool) :
  length c = length mask -> length (np.select c mask) = length c ->
  mask = repeat true (length c).
Proof.
  revert mask. induction c as [| x c IH]; intros [| b mask]; simpl; try discriminate;
    intros Hlen Hsel; [reflexivity |].
  injection Hlen as Hlen. destruct b.
  - simpl in Hsel. injection Hsel as Hsel. f_equal. auto.
  - pose proof (select_length c mask). lia.
Qed.

(** A mask that keeps nothing is all false. *)
Lemma select_empty {A : Type} (c : list A) (mask : list bool) :
  length c = length mask -> np.select c mask = [] ->
  mask = repeat false (length c).
Proof.
  revert mask. induction c as [| x c IH]; intros [| b mask]; simpl; try discriminate;
    intros Hlen Hsel; [reflexivity |].
  injection Hlen as Hlen. destruct b; [discriminate |]. f_equal. auto.
Qed.

Lemma bool_index_Ok {A : Type} (c kept : list A) (mask : list bool) :
  np.bool_index c mask = Ok kept -> length c = length mask /\ kept = np.select c mask.
Proof.
  unfold np.bool_index. destruct (Nat.eqb_spec (length c) (length mask)); [| discriminate].
  intros H. injection H as <-. auto.
Qed.

Lemma bool_index_Raise {A : Type} (c : list A) (mask : list bool) (e : exn) :
  np.bool_index c mask = Raise e -> length c <> length mask /\ e = IndexError.
Proof.
  unfold np.bool_index. destruct (Nat.eqb_spec (length c) (length mask)); [discriminate |].
  intros H. injection H as <-. auto.
Qed.

Lemma setitem_length {A : Type} (xs ys : list A) (i : nat) (v : A) :
  setitem xs i v = Ok ys -> length ys = length xs.
Proof.
  revert ys i. induction xs as [| x xs IH]; intros ys [| i]; simpl; try discriminate.
  - intros H. injection H as <-. reflexivity.
  - intros H. apply bind_Ok in H as (zs & Hzs & H). injection H as <-.
    simpl. f_equal. eauto.
Qed.

Lemma setitem_Raise {A : Type} (xs : list A) (i : nat) (v : A) (e : exn) :
  setitem xs i v = Raise e -> length xs <= i /\ e = IndexError.
Proof.
  revert i. induction xs as [| x xs IH]; intros [| i]; simpl; try discriminate.
  - intros H. injection H as <-. split; [lia | reflexivity].
  - intros H. injection H as <-. split; [lia | reflexivity].
  - intros H. apply bind_Raise in H as [H | (zs & _ & H)]; [| discriminate].
    apply IH in H as [Hlen ->]. split; [lia | reflexivity].
Qed.

Lemma mark_rejects_length (threshold : float) (scores : list (nat * float))
    (starRejecter marked : list bool) :
  mark_rejects threshold scores starRejecter = Ok marked ->
  length marked = length starRejecter.
Proof.
  revert starRejecter. induction scores as [| [j s] scores IH]; intros starRejecter; simpl.
  - intros H. injection H as <-. reflexivity.
  - destruct ((threshold <? s)%float || np.isnan s); [| apply IH].
    intros H. apply bind_Ok in H as (m & Hm & H).
    apply IH in H. apply setitem_length in Hm. congruence.
Qed.

(** The parts of a pass that ran to its end. *)
Lemma rejection_pass_Ok (log10 : float -> float) (stdMultiplier variabilityMultiplier : float)
    (fileCount : list float) (comparisons : list (list PhotRow))
    (starRejecter : list bool) (p : Pass) :
  rejection_pass log10 stdMultiplier variabilityMultiplier fileCount comparisons starRejecter
    = Ok p ->
  exists stdCompStar minStd,
    calculate_comparison_variation log10 comparisons fileCount
      = Ok (stdCompStar, pass_sortStars p)
    /\ np.min stdCompStar = Ok minStd
    /\ pass_variabilityMax p = (minStd * variabilityMultiplier)%float
    /\ length (pass_starRejecter p) = length starRejecter
    /\ ((0.002 <? minStd)%float = false -> pass_starRejecter p = starRejecter)
    /\ mapM (fun c => np.bool_index c (pass_starRejecter p)) comparisons
       = Ok (pass_comparisons p).
Proof.
  unfold rejection_pass. intros H.
  apply bind_Ok in H as (frame & _ & H).
  apply bind_Ok in H as ([stdCompStar sortStars] & Hcalc & H).
  apply bind_Ok in H as (minStd & Hmin & H).
  apply bind_Ok in H as (marked & Hmarked & H).
  apply bind_Ok in H as (kept & Hkept & H).
  injection H as <-. simpl. exists stdCompStar, minStd.
  repeat split; try assumption.
  - destruct (0.002 <? minStd)%float.
    + eapply mark_rejects_length; eauto.
    + injection Hmarked as <-. reflexivity.
  - intros E. rewrite E in Hmarked. injection Hmarked as <-. reflexivity.
Qed.

Lemma calculate_comparison_variation_length (log10 : float -> float)
    (comparisons : list (list PhotRow)) (fileCount stdCompStar : list float)
    (sortStars : list SortStar) :
  calculate_comparison_variation log10 comparisons fileCount = Ok (stdCompStar, sortStars) ->
  length stdCompStar = numstars comparisons /\ length sortStars = numstars comparisons.
Proof.
  unfold calculate_comparison_variation.
  destruct comparisons as [| frame0 rest]; [discriminate |]. intros H.
  apply bind_Ok in H as (rows & Hrows & H). injection H as <- <-.
  apply mapM_Ok, Forall2_length in Hrows. rewrite length_seq in Hrows.
  rewrite !length_map. auto.
Qed.

Lemma mark_rejects_Raise (threshold : float) (scores : list (nat * float))
    (starRejecter : list bool) (e : exn) :
  mark_rejects threshold scores starRejecter = Raise e -> e = IndexError.
Proof.
  revert starRejecter. induction scores as [| [j s] scores IH]; intros starRejecter; simpl;
    [discriminate |].
  destruct ((threshold <? s)%float || np.isnan s); [| apply IH].
  intros H. apply bind_Raise in H as [H | (m & _ & H)]; [| eapply IH; eauto].
  apply setitem_Raise in H as [_ ->]. reflexivity.
Qed.

(** A pass raises IndexError, or, when there is no candidate at all, the
    ValueError of [np.min]. *)
Lemma rejection_pass_Raise (log10 : float -> float)
    (stdMultiplier variabilityMultiplier : float) (fileCount : list float)
    (comparisons : list (list PhotRow)) (starRejecter : list bool) (e : exn) :
  rejection_pass log10 stdMultiplier variabilityMultiplier fileCount comparisons starRejecter
    = Raise e ->
  e = IndexError \/ (e = ValueError /\ numstars comparisons = 0).
Proof.
  unfold rejection_pass. intros H.
  apply bind_Raise in H as [H | (frame & _ & H)];
    [left; eapply getitem_Raise; eauto |].
  apply bind_Raise in H as [H | ([stdCompStar sortStars] & Hcalc & H)].
  { apply calculate_comparison_variation_raises in H as [H | [H ->]]; [left | right]; auto. }
  apply calculate_comparison_variation_length in Hcalc as [Hlen _].
  apply bind_Raise in H as [H | (minStd & _ & H)].
  { right. destruct stdCompStar; [| discriminate].
    injection H as <-. simpl in Hlen. auto. }
  apply bind_Raise in H as [H | (marked & _ & H)].
  { left. destruct (0.002 <? minStd)%float; [| discriminate].
    eapply mark_rejects_Raise; eauto. }
  apply bind_Raise in H as [H | (kept & _ & H)]; [| discriminate].
  apply mapM_Raise in H as (c & _ & H). apply bool_index_Raise in H as [_ ->]. auto.
Qed.

(** A pass needs a candidate: [np.min] has nothing to reduce otherwise. *)
Lemma rejection_pass_numstars (log10 : float -> float)
    (stdMultiplier variabilityMultiplier : float) (fileCount : list float)
    (comparisons : list (list PhotRow)) (starRejecter : list bool) (p : Pass) :
  rejection_pass log10 stdMultiplier variabilityMultiplier fileCount comparisons starRejecter
    = Ok p ->
  0 < numstars comparisons.
Proof.
  intros H. apply rejection_pass_Ok in H as (scores & m & Hcalc & Hmin & _).
  apply calculate_comparison_variation_length in Hcalc as [Hlen _].
  destruct scores; [discriminate | simpl in Hlen; lia].
Qed.

(** A mask that is all true gives every frame back. *)
Lemma mapM_bool_index_all_true (comparisons kept : list (list PhotRow)) (n : nat) :
  mapM (fun c => np.bool_index c (repeat true n)) comparisons = Ok kept ->
  kept = comparisons.
Proof.
  intros H. apply mapM_Ok in H.
  induction H as [| c k cs ks Hck _ IH]; [reflexivity |].
  apply bool_index_Ok in Hck as [Hlen ->]. rewrite repeat_length in Hlen.
  subst n. rewrite select_all_true. congruence.
Qed.

(** The number of candidate columns never grows over a pass. *)
Lemma rejection_pass_numstars_le (log10 : float -> float)
    (stdMultiplier variabilityMultiplier : float) (fileCount : list float)
    (comparisons : list (list PhotRow)) (starRejecter : list bool) (p : Pass) :
  rejection_pass log10 stdMultiplier variabilityMultiplier fileCount comparisons starRejecter
    = Ok p ->
  numstars (pass_comparisons p) <= numstars comparisons.
Proof.
  intros H. apply rejection_pass_Ok in H as (_ & _ & _ & _ & _ & _ & _ & H).
  apply mapM_Ok in H. destruct H as [| c k cs ks Hck _]; simpl; [lia |].
  apply bool_index_Ok in Hck as [_ ->]. apply select_length.
Qed.

(** C7 (amended): if the first pass of the rejection loop completes and
    rejects no candidate (the keep mask [starRejecter] is still all true),
    the loop does not break on that pass, because the mask differs from the
    all-false [oldrejects] it starts with; the second pass recomputes the same
    scores on the same table, finds the mask equal to the previous one and
    breaks.  The loop makes exactly two passes and leaves the table
    unchanged. *)
Theorem C7_no_rejection_breaks_after_two_passes (log10 : float -> float)
    (stdMultiplier variabilityMultiplier : float) (comparisons : list (list PhotRow))
    (p : Pass) (fuel : nat) :
  rejection_pass log10 stdMultiplier variabilityMultiplier (ensemble_counts comparisons)
    comparisons (repeat true (numstars comparisons)) = Ok p ->
  pass_starRejecter p = repeat true (numstars comparisons) ->
  stable_candidates log10 1 stdMultiplier variabilityMultiplier comparisons = None
  /\ stable_candidates log10 (S (S fuel)) stdMultiplier variabilityMultiplier comparisons
     = Some (Ok (mkConverged comparisons (pass_sortStars p) (pass_variabilityMax p)
                   (repeat true (numstars comparisons)) 2)).
Proof.
  intros Hpass Hmask.
  pose proof (rejection_pass_numstars _ _ _ _ _ _ _ Hpass) as Hn.
  assert (Hkept : pass_comparisons p = comparisons).
  { pose proof (rejection_pass_Ok _ _ _ _ _ _ _ Hpass) as (_ & _ & _ & _ & _ & _ & _ & H).
    rewrite Hmask in H. eapply mapM_bool_index_all_true; eauto. }
  unfold stable_candidates. split.
  - simpl. rewrite Hpass, Hmask, (repeat_true_false _ Hn). reflexivity.
  - cbn [rejection_loop]. rewrite Hpass, Hmask, (repeat_true_false _ Hn), Hkept.
    rewrite Hpass, Hmask, list_bool_eqb_refl, Hkept. reflexivity.
Qed.

Lemma C7_witness :
  stable_candidates Libm.log10 1 2.5 2.5 one_frame_two_stars = None
  /\ stable_candidates Libm.log10 2 2.5 2.5 one_frame_two_stars
     = Some (Ok (mkConverged one_frame_two_stars
                   [mkSortStar 10 1 0; mkSortStar 10 2 0]%float 0%float [true; true] 2)).
Proof.
  exact (C7_no_rejection_breaks_after_two_passes Libm.log10 2.5 2.5
           one_frame_two_stars one_frame_pass 0 eq_refl eq_refl).
Defined.

(** C7 (counterexample): on [one_frame_two_stars] the first pass rejects no
    candidate, yet the loop has not broken after one pass and breaks on the
    second. *)
Lemma C7_counterexample_first_pass_does_not_break :
  (exists p,
     rejection_pass Libm.log10 2.5 2.5 (ensemble_counts one_frame_two_stars)
       one_frame_two_stars [true; true] = Ok p
     /\ pass_starRejecter p = [true; true])
  /\ stable_candidates Libm.log10 1 2.5 2.5 one_frame_two_stars = None
  /\ exists c, stable_candidates Libm.log10 2 2.5 2.5 one_frame_two_stars = Some (Ok c)
               /\ iterations c = 2.
Proof.
  split; [| split].
  - eexists. split; vm_compute; reflexivity.
  - vm_compute. reflexivity.
  - eexists. split; vm_compute; reflexivity.
Qed.

(** *** Termination and the mask that is never resized *)

Lemma mapM_bool_index_frames (comparisons kept : list (list PhotRow)) (mask : list bool) :
  mapM (fun c => np.bool_index c mask) comparisons = Ok kept ->
  Forall (fun c => length c = length mask) comparisons
  /\ kept = map (fun c => np.select c mask) comparisons.
Proof.
  intros H. apply mapM_Ok in H.
  induction H as [| c k cs ks Hck _ [IH1 IH2]]; [split; [constructor | reflexivity] |].
  apply bool_index_Ok in Hck as [Hlen ->]. split; [constructor; assumption |].
  simpl. congruence.
Qed.

(** After a first pass that rejected some candidate, the table is narrower
    than the mask, which keeps its first length: the second pass cannot index
    the table with it. *)
Lemma second_pass_needs_full_mask (log10 : float -> float)
    (stdMultiplier variabilityMultiplier : float) (fileCount : list float)
    (comparisons : list (list PhotRow)) (p p2 : Pass) :
  rejection_pass log10 stdMultiplier variabilityMultiplier fileCount comparisons
    (repeat true (numstars comparisons)) = Ok p ->
  rejection_pass log10 stdMultiplier variabilityMultiplier fileCount (pass_comparisons p)
    (pass_starRejecter p) = Ok p2 ->
  pass_starRejecter p = repeat true (numstars comparisons).
Proof.
  intros H1 H2.
  pose proof (rejection_pass_numstars _ _ _ _ _ _ _ H1) as Hn.
  apply rejection_pass_Ok in H1 as (_ & _ & _ & _ & _ & Hlen1 & _ & Hk1).
  apply rejection_pass_Ok in H2 as (_ & _ & _ & _ & _ & Hlen2 & _ & Hk2).
  rewrite repeat_length in Hlen1.
  apply mapM_bool_index_frames in Hk1 as [Hf1 Hk1].
  apply mapM_bool_index_frames in Hk2 as [Hf2 _].
  destruct comparisons as [| c cs]; [simpl in Hn; lia |].
  simpl in *. rewrite Hk1 in Hf2. simpl in Hf2.
  inversion Hf1 as [| ? ? Hc _]; subst.
  inversion Hf2 as [| ? ? Hc2 _]; subst.
  rewrite <- Hlen1. rewrite <- Hc. apply select_full; [assumption |].
  congruence.
Qed.

(** X7: the loop always ends within two passes: a first pass that breaks, a
    second pass that raises, or a second pass that repeats the first. *)
Theorem rejection_loop_ends_within_two_passes (log10 : float -> float)
    (stdMultiplier variabilityMultiplier : float) (comparisons : list (list PhotRow))
    (fuel : nat) :
  exists r,
    stable_candidates log10 (S (S fuel)) stdMultiplier variabilityMultiplier comparisons
    = Some r.
Proof.
  unfold stable_candidates. cbn [rejection_loop].
  destruct (rejection_pass log10 stdMultiplier variabilityMultiplier
              (ensemble_counts comparisons) comparisons
              (repeat true (numstars comparisons))) as [p | e] eqn:H1; [| eauto].
  destruct (list_bool_eqb (pass_starRejecter p) (repeat false (numstars comparisons)));
    [eauto |].
  destruct (rejection_pass log10 stdMultiplier variabilityMultiplier
              (ensemble_counts comparisons) (pass_comparisons p)
              (pass_starRejecter p)) as [p2 | e] eqn:H2; [| eauto].
  pose proof (second_pass_needs_full_mask _ _ _ _ _ _ _ H1 H2) as Hmask.
  assert (Hkept : pass_comparisons p = comparisons).
  { pose proof (rejection_pass_Ok _ _ _ _ _ _ _ H1) as (_ & _ & _ & _ & _ & _ & _ & H).
    rewrite Hmask in H. eapply mapM_bool_index_all_true; eauto. }
  rewrite Hkept, Hmask in H2. rewrite H1 in H2. injection H2 as <-.
  rewrite list_bool_eqb_refl. eauto.
Qed.

(** The only ways the loop reaches its end without an exception: the first
    pass rejected every candidate, or no pass rejected any. *)
Theorem stable_candidates_outcomes (log10 : float -> float)
    (stdMultiplier variabilityMultiplier : float) (comparisons : list (list PhotRow))
    (fuel : nat) (c : Converged) :
  stable_candidates log10 (S (S fuel)) stdMultiplier variabilityMultiplier comparisons
    = Some (Ok c) ->
  (iterations c = 1
   /\ final_starRejecter c = repeat false (numstars comparisons))
  \/ (iterations c = 2
      /\ final_starRejecter c = repeat true (numstars comparisons)
      /\ final_comparisons c = comparisons).
Proof.
  unfold stable_candidates. cbn [rejection_loop].
  destruct (rejection_pass log10 stdMultiplier variabilityMultiplier
              (ensemble_counts comparisons) comparisons
              (repeat true (numstars comparisons))) as [p | e] eqn:H1; [| discriminate].
  destruct (list_bool_eqb (pass_starRejecter p) (repeat false (numstars comparisons)))
    eqn:E.
  { intros H. injection H as <-. simpl. left. split; [reflexivity |].
    apply list_bool_eqb_true. exact E. }
  destruct (rejection_pass log10 stdMultiplier variabilityMultiplier
              (ensemble_counts comparisons) (pass_comparisons p)
              (pass_starRejecter p)) as [p2 | e] eqn:H2; [| discriminate].
  pose proof (second_pass_needs_full_mask _ _ _ _ _ _ _ H1 H2) as Hmask.
  assert (Hkept : pass_comparisons p = comparisons).
  { pose proof (rejection_pass_Ok _ _ _ _ _ _ _ H1) as (_ & _ & _ & _ & _ & _ & _ & H).
    rewrite Hmask in H. eapply mapM_bool_index_all_true; eauto. }
  rewrite Hkept, Hmask in H2. rewrite H1 in H2. injection H2 as <-.
  rewrite list_bool_eqb_refl. intros H. injection H as <-. simpl. right. auto.
Qed.

(** X8: a first pass that rejects some candidates but not all of them is
    followed by a second pass that raises IndexError: the loop ends in that
    exception, not at a fixed point. *)
Theorem partial_rejection_raises (log10 : float -> float)
    (stdMultiplier variabilityMultiplier : float) (comparisons : list (list PhotRow))
    (p : Pass) (fuel : nat) :
  rejection_pass log10 stdMultiplier variabilityMultiplier (ensemble_counts comparisons)
    comparisons (repeat true (numstars comparisons)) = Ok p ->
  pass_starRejecter p <> repeat true (numstars comparisons) ->
  pass_starRejecter p <> repeat false (numstars comparisons) ->
  stable_candidates log10 (S (S fuel)) stdMultiplier variabilityMultiplier comparisons
  = Some (Raise IndexError).
Proof.
  intros H1 Hnot_all Hnot_none.
  unfold stable_candidates. cbn [rejection_loop]. rewrite H1.
  destruct (list_bool_eqb (pass_starRejecter p) (repeat false (numstars comparisons))) eqn:E.
  { apply list_bool_eqb_true in E. contradiction. }
  destruct (rejection_pass log10 stdMultiplier variabilityMultiplier
              (ensemble_counts comparisons) (pass_comparisons p)
              (pass_starRejecter p)) as [p2 | e] eqn:H2.
  { pose proof (second_pass_needs_full_mask _ _ _ _ _ _ _ H1 H2). contradiction. }
  apply rejection_pass_Raise in H2 as [-> | [_ Hzero]]; [reflexivity |].
  exfalso. apply Hnot_none.
  pose proof (rejection_pass_numstars _ _ _ _ _ _ _ H1) as Hn.
  apply rejection_pass_Ok in H1 as (_ & _ & _ & _ & _ & Hlen & _ & Hk).
  rewrite repeat_length in Hlen.
  apply mapM_bool_index_frames in Hk as [Hf Hk].
  destruct comparisons as [| c0 cs]; [simpl in Hn; lia |].
  inversion Hf as [| ? ? Hc _]; subst. rewrite Hk in Hzero. simpl in Hzero, Hlen |- *.
  apply select_empty; [assumption |]. apply length_zero_iff_nil. assumption.
Qed.

(** C1 (what the code does on the failing input): on [six_stars], with the
    default multipliers, the first pass rejects the sixth candidate and leaves
    five columns; the loop goes on, and the second pass raises IndexError when
    it indexes the five-row frames with the six-entry mask.  The loop, and
    with it [find_comparisons], ends in that exception, whatever the fuel,
    and reaches no fixed point. *)
Theorem C1_rejection_then_IndexError :
  (exists p,
     rejection_pass Libm.log10 2.5 2.5 (ensemble_counts six_stars) six_stars
       (repeat true 6) = Ok p
     /\ pass_starRejecter p = [true; true; true; true; true; false]
     /\ map (@length PhotRow) (pass_comparisons p) = [5; 5])
  /\ stable_candidates Libm.log10 2 2.5 2.5 six_stars = Some (Raise IndexError)
  /\ stable_candidates Libm.log10 100 2.5 2.5 six_stars = Some (Raise IndexError)
  /\ find_comparisons Libm.log10 Sky.separation 100 [(10.5, 3.5)%float] (TargetTable [])
       six_stars 2.5 10000000 2.5 true 1
     = Some (Raise IndexError).
Proof.
  split; [| split; [| split]].
  - eexists. split; [vm_compute; reflexivity |]. split; vm_compute; reflexivity.
  - vm_compute. reflexivity.
  - vm_compute. reflexivity.
  - vm_compute. reflexivity.
Qed.

(** ** [remove_stars_targets] *)

(** A table of six columns never has the shape line 229 asks about. *)
Lemma is_pair_shape_false (compFile : list PhotRow) : is_pair_shape compFile = false.
Proof.
  unfold is_pair_shape.
  destruct (Nat.eqb_spec (length compFile) 2) as [E | _]; [| reflexivity].
  rewrite E. reflexivity.
Qed.

(** The test of line 247 in terms of the separation: zero is compared as 0,
    anything else (NaN included) as 1. *)
Lemma variable_star_match_cases (acceptDistance d2dcomp : float) :
  variable_star_match acceptDistance d2dcomp
  = if (d2dcomp =? 0)%float then (0 <? acceptDistance)%float
    else (1 <? acceptDistance)%float.
Proof.
  unfold variable_star_match, float_any, float_of_bool.
  destruct (d2dcomp =? 0)%float; reflexivity.
Qed.

Lemma match_to_catalog_sky_total (separation : SkyCoord -> SkyCoord -> float)
    (coord : SkyCoord) (catalog : list SkyCoord) :
  catalog <> [] -> exists idx d2d, match_to_catalog_sky separation coord catalog = Ok (idx, d2d).
Proof.
  unfold match_to_catalog_sky, enumerate.
  destruct catalog as [| c rest]; [congruence |]. intros _. simpl.
  destruct (fold_left (closer separation coord) (enumerate_from 1 rest)
              (0, separation coord c)) as [idx d2d].
  eauto.
Qed.

Lemma vsx_step_cases (separation : SkyCoord -> SkyCoord -> float) (acceptDistance : float)
    (compFile : list PhotRow) (raCat_size : nat) (mask : list bool) (compCoord : SkyCoord) :
  compFile <> [] ->
  vsx_step separation acceptDistance compFile raCat_size mask compCoord
  = if passes_match_test separation acceptDistance compFile compCoord
    then Raise (NameError "varStarReject") else Ok mask.
Proof.
  intros Hne. unfold vsx_step, passes_match_test.
  rewrite is_pair_shape_false. simpl negb. cbv iota.
  destruct (match_to_catalog_sky_total separation compCoord (coords_of compFile))
    as (idx & d2d & E).
  { destruct compFile; [congruence | discriminate]. }
  rewrite E. simpl.
  destruct (variable_star_match acceptDistance d2d); reflexivity.
Qed.

Lemma vsx_loop_cases (separation : SkyCoord -> SkyCoord -> float) (acceptDistance : float)
    (compFile : list PhotRow) (raCat_size : nat) (mask : list bool)
    (variableResult : list SkyCoord) :
  compFile <> [] ->
  vsx_loop separation acceptDistance compFile raCat_size mask variableResult
  = if existsb (passes_match_test separation acceptDistance compFile) variableResult
    then Raise (NameError "varStarReject") else Ok mask.
Proof.
  intros Hne. induction variableResult as [| c rest IH]; simpl; [reflexivity |].
  rewrite vsx_step_cases by assumption.
  destruct (passes_match_test separation acceptDistance compFile c); simpl; auto.
Qed.

(** X19: with at least one candidate, [remove_stars_targets] ends in the
    NameError of the unbound [varStarReject] exactly when some VSX entry
    passes the test of line 247 as it is written, against its nearest
    candidate; when it returns normally no entry passed.  The test as written
    compares the truth value of "the separation is not zero" with the
    acceptance distance: it passes at separation zero when the distance is
    above 0, and at any other separation when the distance is above 1. *)
Theorem remove_stars_targets_NameError_exactly_when_the_test_passes
    (separation : SkyCoord -> SkyCoord -> float) (variableResult : list SkyCoord)
    (photlist : list (list PhotRow)) (compFile : list PhotRow) (acceptDistance : float)
    (targetFile : Targets) (removeTargets : bool) :
  nth_error photlist 0 = Some compFile ->
  compFile <> [] ->
  (existsb (passes_match_test separation acceptDistance compFile) variableResult = true
   <-> remove_stars_targets separation variableResult photlist acceptDistance
         targetFile removeTargets = Raise (NameError "varStarReject"))
  /\ (forall kept,
        remove_stars_targets separation variableResult photlist acceptDistance
          targetFile removeTargets = Ok kept ->
        forallb (fun c => negb (passes_match_test separation acceptDistance compFile c))
          variableResult = true)
  /\ (forall d2dcomp,
        variable_star_match acceptDistance d2dcomp
        = if (d2dcomp =? 0)%float then (0 <? acceptDistance)%float
          else (1 <? acceptDistance)%float).
Proof.
  intros Hfirst Hne.
  assert (Hrun : remove_stars_targets separation variableResult photlist acceptDistance
                   targetFile removeTargets
                 = if existsb (passes_match_test separation acceptDistance compFile)
                        variableResult
                   then Raise (NameError "varStarReject")
                   else (kept <- mapM (fun c => np.bool_index c
                                         (repeat true (length compFile))) photlist ;;
                         if (length compFile =? 1)%nat
                         then Raise (NameError "parentPath") else Ok kept)).
  { unfold remove_stars_targets, getitem. rewrite Hfirst. simpl bind.
    rewrite vsx_loop_cases by assumption.
    destruct (existsb _ variableResult); [reflexivity |]. simpl bind.
    destruct (mapM _ photlist); simpl; [| reflexivity].
    destruct (length compFile =? 1)%nat; reflexivity. }
  split; [| split].
  - rewrite Hrun.
    destruct (existsb _ variableResult); split; try reflexivity; try discriminate.
    intros H. exfalso.
    destruct (mapM _ photlist) as [kept | e] eqn:E; simpl in H.
    + destruct (length compFile =? 1)%nat; discriminate.
    + apply mapM_Raise in E as (c & _ & E). apply bool_index_Raise in E as [_ ->].
      discriminate.
  - intros kept. rewrite Hrun.
    destruct (existsb _ variableResult) eqn:E; [discriminate |]. intros _.
    apply forallb_forall. intros c Hc.
    destruct (passes_match_test separation acceptDistance compFile c) eqn:Ec; [| reflexivity].
    assert (existsb (passes_match_test separation acceptDistance compFile) variableResult
            = true) by (apply existsb_exists; eauto).
    congruence.
  - apply variable_star_match_cases.
Qed.

(** A VSX entry at the position of the first candidate: separation zero. *)
Lemma remove_stars_targets_NameError_exactly_when_the_test_passes_witness :
  remove_stars_targets Sky.separation [(10, 1)%float] two_candidates 1
    (TargetTable []) true
  = Raise (NameError "varStarReject").
Proof.
  refine (proj1 (proj1 (remove_stars_targets_NameError_exactly_when_the_test_passes
                          Sky.separation
                          [(10, 1)%float] two_candidates
                          [ mkRow 10 1 100 100 4000 60; mkRow 10 2 200 200 3000 50 ]%float
                          1 (TargetTable []) true _ _)) _).
  - reflexivity.
  - discriminate.
  - vm_compute. reflexivity.
Defined.

(** C10 (what the code does on the failing input): a VSX entry 0.45
    arcseconds from the first candidate, inside the acceptance distance of
    one arcsecond, does not pass the test of line 247, which applies [.any()]
    to the separation before comparing ([True < 1.0] is false): the entry is
    not matched, no NameError is raised and the function returns the frames
    unchanged. *)
Theorem C10_entry_within_acceptDistance_is_not_matched :
  (exists idx d2dcomp,
     match_to_catalog_sky Sky.separation (10, 1.000125)%float
       (coords_of [ mkRow 10 1 100 100 4000 60; mkRow 10 2 200 200 3000 50 ]%float)
     = Ok (idx, d2dcomp)
     /\ idx = 0
     /\ (d2dcomp <? 1)%float = true
     /\ variable_star_match 1 d2dcomp = false)
  /\ remove_stars_targets Sky.separation [(10, 1.000125)%float] two_candidates 1
       (TargetTable []) true
     = Ok two_candidates.
Proof.
  split.
  - eexists. eexists. split; [vm_compute; reflexivity |].
    repeat split; vm_compute; reflexivity.
  - vm_compute. reflexivity.
Qed.

(** C9 (amended): when the first frame holds exactly one candidate,
    [remove_stars_targets] never returns: whatever the VSX catalogue holds,
    the call ends by raising an exception. *)
Theorem C9_single_candidate_always_raises
    (separation : SkyCoord -> SkyCoord -> float) (variableResult : list SkyCoord)
    (photlist : list (list PhotRow)) (star : PhotRow) (acceptDistance : float)
    (targetFile : Targets) (removeTargets : bool) :
  nth_error photlist 0 = Some [star] ->
  exists e,
    remove_stars_targets separation variableResult photlist acceptDistance
      targetFile removeTargets = Raise e.
Proof.
  intros Hfirst. unfold remove_stars_targets, getitem. rewrite Hfirst. simpl bind.
  destruct (vsx_loop _ _ _ _ _ variableResult) as [mask | e]; simpl; [| eauto].
  destruct (mapM _ photlist) as [kept | e]; simpl; eauto.
Qed.

Lemma C9_witness :
  exists e,
    remove_stars_targets Sky.separation [] single_candidate 1 (TargetTable []) true
    = Raise e.
Proof.
  exact (C9_single_candidate_always_raises Sky.separation [] single_candidate
           (mkRow 10 1 100 100 4000 60) 1 (TargetTable []) true eq_refl).
Defined.

(** C9 (counterexample): with one candidate and an empty VSX catalogue the run
    is aborted; the exception is the NameError of the unbound [parentPath] of
    line 265, raised before anything is saved and before the
    AstrosourceException of line 269. *)
Lemma C9_counterexample_single_candidate_aborts :
  remove_stars_targets Sky.separation [] single_candidate 1 (TargetTable []) true
  = Raise (NameError "parentPath").
Proof.
  vm_compute. reflexivity.
Qed.

(** ** The crowding loop of [catalogue_call] *)

Lemma enumerate_from_snd {A : Type} (i : nat) (xs : list A) :
  map snd (enumerate_from i xs) = xs.
Proof.
  revert i. induction xs as [| x xs IH]; intros i; simpl; [reflexivity |].
  f_equal. apply IH.
Qed.

Lemma enumerate_from_nth {A : Type} (i k : nat) (xs : list A) (x : A) :
  nth_error xs k = Some x -> In (i + k, x) (enumerate_from i xs).
Proof.
  revert i k. induction xs as [| y xs IH]; intros i [| k]; simpl; try discriminate.
  - intros H. injection H as ->. left. f_equal. lia.
  - intros H. right. replace (i + S k) with (S i + k) by lia. apply IH. assumption.
Qed.

Lemma Forall2_In_left {A B : Type} (R : A -> B -> Prop) (xs : list A) (ys : list B)
    (x : A) :
  Forall2 R xs ys -> In x xs -> exists y, In y ys /\ R x y.
Proof.
  induction 1 as [| x' y' xs ys Hxy _ IH]; simpl; [tauto |].
  intros [-> | Hin]; [eauto |].
  destruct (IH Hin) as (y & Hy & Hr). eauto.
Qed.

Section Crowding.

Variable separation : SkyCoord -> SkyCoord -> float.

(** The matcher returns the least separation: no entry is closer, and the
    value is a number when all separations are. *)
Lemma closer_fold_least (coord : SkyCoord) (entries : list (nat * SkyCoord))
    (best : nat * float) :
  PrimFloat.is_nan (snd best) = false ->
  Forall (fun e => PrimFloat.is_nan (separation coord (snd e)) = false) entries ->
  PrimFloat.is_nan (snd (fold_left (closer separation coord) entries best)) = false
  /\ (snd best <? snd (fold_left (closer separation coord) entries best))%float = false
  /\ Forall (fun e => (separation coord (snd e)
                       <? snd (fold_left (closer separation coord) entries best))%float
                      = false) entries.
Proof.
  intros Hbest Hall. revert best Hbest.
  induction Hall as [| e entries He _ IH]; intros best Hbest; simpl.
  - split; [assumption |]. split; [apply FloatOrder.ltb_irrefl | constructor].
  - destruct (separation coord (snd e) <? snd best)%float eqn:E.
    + assert (Hstep : closer separation coord best e = (fst e, separation coord (snd e)))
        by (unfold closer; rewrite E; reflexivity).
      rewrite Hstep.
      destruct (IH (fst e, separation coord (snd e)) He) as (Hn & Hle & Hrest).
      simpl in Hle. split; [assumption |]. split; [| constructor; assumption].
      destruct (snd best <? _)%float eqn:E2; [| reflexivity].
      pose proof (FloatOrder.ltb_trans _ _ _ E E2). congruence.
    + assert (Hstep : closer separation coord best e = best)
        by (unfold closer; rewrite E; reflexivity).
      rewrite Hstep.
      destruct (IH best Hbest) as (Hn & Hle & Hrest).
      split; [assumption |]. split; [assumption |]. constructor; [| assumption].
      destruct (separation coord (snd e) <? snd (fold_left _ _ _))%float eqn:E2;
        [| reflexivity].
      destruct (FloatOrder.ltb_negtrans _ (snd best) _ Hbest E2); congruence.
Qed.

Lemma match_to_catalog_sky_least (coord : SkyCoord) (catalog : list SkyCoord)
    (idx : nat) (d2d : float) :
  Forall (fun c => PrimFloat.is_nan (separation coord c) = false) catalog ->
  match_to_catalog_sky separation coord catalog = Ok (idx, d2d) ->
  PrimFloat.is_nan d2d = false
  /\ Forall (fun c => (separation coord c <? d2d)%float = false) catalog.
Proof.
  unfold match_to_catalog_sky, enumerate.
  destruct catalog as [| c rest]; [discriminate |]. simpl.
  intros Hall H. injection H as H. inversion Hall as [| ? ? Hc Hrest]; subst.
  assert (Hentries : Forall (fun e => PrimFloat.is_nan (separation coord (snd e)) = false)
                       (enumerate_from 1 rest)).
  { apply Forall_forall. intros e He. rewrite Forall_forall in Hrest. apply Hrest.
    rewrite <- (enumerate_from_snd 1 rest). apply in_map. assumption. }
  destruct (closer_fold_least coord (enumerate_from 1 rest) (0, separation coord c) Hc Hentries)
    as (Hn & Hle & Hall').
  rewrite H in Hn, Hle, Hall'. simpl in *.
  split; [assumption |]. constructor; [assumption |].
  apply Forall_forall. intros c' Hc'. rewrite Forall_forall in Hall'.
  rewrite <- (enumerate_from_snd 1 rest) in Hc'. apply in_map_iff in Hc' as (e & <- & He).
  apply Hall'. assumption.
Qed.

Lemma others_In (catalog : list SkyCoord) (i j : nat) (b : SkyCoord) :
  i <> j -> nth_error catalog j = Some b -> In b (others i catalog).
Proof.
  intros Hij Hj. unfold others. apply in_or_app.
  destruct (Nat.lt_ge_cases j i) as [Hlt | Hge].
  - left. apply nth_error_In with (n := j). rewrite nth_error_firstn.
    destruct (Nat.ltb_spec j i); [assumption | lia].
  - right. apply nth_error_In with (n := j - S i). rewrite nth_error_skipn.
    replace (S i + (j - S i)) with j by lia. assumption.
Qed.

Lemma others_incl (catalog : list SkyCoord) (q : nat) (c : SkyCoord) :
  In c (others q catalog) -> In c catalog.
Proof.
  unfold others. intros H. apply in_app_or in H as [H | H].
  - rewrite <- (firstn_skipn q catalog). apply in_or_app. auto.
  - rewrite <- (firstn_skipn (S q) catalog). apply in_or_app. auto.
Qed.

Lemma numbers_spec (catalog : list SkyCoord) (a b : SkyCoord) :
  numbers separation catalog = true -> In a catalog -> In b catalog ->
  PrimFloat.is_nan (separation a b) = false.
Proof.
  unfold numbers. rewrite forallb_forall. intros H Ha Hb.
  specialize (H a Ha). rewrite forallb_forall in H. specialize (H b Hb).
  destruct (PrimFloat.is_nan (separation a b)); [discriminate | reflexivity].
Qed.

Lemma numbers_incl (catalog sub : list SkyCoord) :
  incl sub catalog -> numbers separation catalog = true -> numbers separation sub = true.
Proof.
  intros Hincl H. unfold numbers. apply forallb_forall. intros a Ha.
  apply forallb_forall. intros b Hb.
  rewrite (numbers_spec catalog a b H (Hincl a Ha) (Hincl b Hb)). reflexivity.
Qed.

Lemma filter_enumerate_nil {A : Type} (f : nat * A -> bool) (i : nat) (xs : list A) :
  map fst (filter f (enumerate_from i xs)) = [] ->
  Forall (fun e => f e = false) (enumerate_from i xs).
Proof.
  revert i. induction xs as [| x xs IH]; intros i; simpl; [constructor |].
  destruct (f (i, x)) eqn:E; [discriminate |]. intros H. constructor; auto.
Qed.

(** When an iteration rejects nothing, no two distinct rows are closer than
    [closerejectd]. *)
Lemma no_rejects_no_close_pair (closerejectd : float) (resp : list CatRow) :
  numbers separation (cat_coords resp) = true ->
  crowding_rejects separation closerejectd resp = Ok [] ->
  forall i j a b, i <> j ->
    nth_error (cat_coords resp) i = Some a -> nth_error (cat_coords resp) j = Some b ->
    (separation a b <? closerejectd)%float = false.
Proof.
  intros Hnum Hrej i j a b Hij Ha Hb.
  unfold crowding_rejects in Hrej.
  apply bind_Ok in Hrej as (d2d & Hd2d & Hrej). injection Hrej as Hrej.
  apply filter_enumerate_nil in Hrej.
  unfold match_to_catalog_sky_nth2 in Hd2d.
  assert (Hmap : mapM (fun '(q, c) =>
                    '(_, d) <- match_to_catalog_sky separation c (others q (cat_coords resp)) ;;
                    Ok d) (enumerate (cat_coords resp)) = Ok d2d).
  { destruct (cat_coords resp) as [| c0 [| c1 rest]]; try discriminate. exact Hd2d. }
  clear Hd2d. apply mapM_Ok in Hmap.
  pose proof (enumerate_from_nth 0 i (cat_coords resp) a Ha) as Hin. simpl in Hin.
  fold (enumerate (cat_coords resp)) in Hin.
  destruct (Forall2_In_left _ _ _ _ Hmap Hin) as (d & Hd_in & Hd).
  simpl in Hd. apply bind_Ok in Hd as ([idx d'] & Hmatch & Hd). injection Hd as ->.
  assert (Hnum' : Forall (fun c => PrimFloat.is_nan (separation a c) = false)
                    (others i (cat_coords resp))).
  { apply Forall_forall. intros c Hc. apply (numbers_spec (cat_coords resp)); auto.
    - eapply nth_error_In; eauto.
    - eapply others_incl; eauto. }
  destruct (match_to_catalog_sky_least a _ idx d Hnum' Hmatch) as (Hdn & Hleast).
  rewrite Forall_forall in Hleast.
  specialize (Hleast b (others_In _ i j b Hij Hb)).
  assert (Hd_far : (d <? closerejectd)%float = false).
  { apply In_nth_error in Hd_in as (k & Hk).
    pose proof (enumerate_from_nth 0 k d2d d Hk) as Hin_d. simpl in Hin_d.
    rewrite Forall_forall in Hrej. exact (Hrej _ Hin_d). }
  destruct (separation a b <? closerejectd)%float eqn:E; [| reflexivity].
  destruct (FloatOrder.ltb_negtrans _ d _ Hdn E); congruence.
Qed.

End Crowding.

Lemma delete_rows_incl (resp : list CatRow) (catReject : list nat) :
  incl (delete_rows resp catReject) resp.
Proof.
  unfold delete_rows, enumerate. intros r Hr.
  apply in_map_iff in Hr as (e & <- & He). apply filter_In in He as [He _].
  rewrite <- (enumerate_from_snd 0 resp). apply in_map. assumption.
Qed.

Lemma enumerate_from_index {A : Type} (i : nat) (xs : list A) (e : nat * A) :
  In e (enumerate_from i xs) -> i <= fst e < i + length xs.
Proof.
  revert i. induction xs as [| x xs IH]; intros i; simpl; [tauto |].
  intros [<- | H]; simpl; [lia |]. apply IH in H. lia.
Qed.

Lemma filter_enumerate_length {A : Type} (f : nat * A -> bool) (i : nat) (xs : list A) :
  length (filter f (enumerate_from i xs)) <= length xs.
Proof.
  revert i. induction xs as [| x xs IH]; intros i; simpl; [lia |].
  specialize (IH (S i)). destruct (f (i, x)); simpl; lia.
Qed.

(** Deleting a row that exists shortens the table. *)
Lemma delete_rows_shorter (resp : list CatRow) (catReject : list nat) (q : nat) :
  In q catReject -> q < length resp ->
  length (delete_rows resp catReject) < length resp.
Proof.
  unfold delete_rows, enumerate. rewrite length_map. intros Hq Hlt.
  assert (Hgen : forall (xs : list CatRow) (i : nat), i <= q < i + length xs ->
            length (filter (fun e => negb (existsb (Nat.eqb (fst e)) catReject))
                      (enumerate_from i xs)) < length xs).
  { induction xs as [| x xs IH]; intros i Hi; simpl in *; [lia |].
    destruct (Nat.eq_dec i q) as [-> | Hne].
    - assert (E : existsb (Nat.eqb q) catReject = true).
      { apply existsb_exists. exists q. split; [assumption | apply Nat.eqb_refl]. }
      rewrite E. simpl.
      pose proof (filter_enumerate_length
                    (fun e : nat * CatRow => negb (existsb (Nat.eqb (fst e)) catReject))
                    (S q) xs).
      lia.
    - assert (Hi' : S i <= q < S i + length xs) by lia.
      specialize (IH (S i) Hi').
      destruct (negb (existsb (Nat.eqb i) catReject)); simpl; lia. }
  apply Hgen. lia.
Qed.

Lemma crowding_rejects_in_range (separation : SkyCoord -> SkyCoord -> float)
    (closerejectd : float) (resp : list CatRow) (catReject : list nat) (q : nat) :
  crowding_rejects separation closerejectd resp = Ok catReject ->
  In q catReject -> q < length resp.
Proof.
  unfold crowding_rejects. intros H Hq.
  apply bind_Ok in H as (d2d & Hd2d & H). injection H as <-.
  apply in_map_iff in Hq as (e & <- & He). apply filter_In in He as [He _].
  apply enumerate_from_index in He.
  assert (Hlen : length d2d = length resp).
  { unfold match_to_catalog_sky_nth2 in Hd2d.
    assert (Hmap : exists f, mapM f (enumerate (cat_coords resp)) = Ok d2d).
    { destruct (cat_coords resp) as [| c0 [| c1 rest]]; try discriminate. eauto. }
    destruct Hmap as (f & Hmap). apply mapM_Ok, Forall2_length in Hmap.
    rewrite <- Hmap. unfold enumerate, cat_coords.
    rewrite <- (length_map snd), enumerate_from_snd, length_map. reflexivity. }
  lia.
Qed.

(** The crowding loop ends: every pass that does not break deletes a row. *)
Theorem crowding_loop_terminates (separation : SkyCoord -> SkyCoord -> float)
    (closerejectd : float) (resp : list CatRow) (fuel : nat) :
  length resp < fuel ->
  exists r, crowding_loop separation fuel closerejectd resp = Some r.
Proof.
  revert resp. induction fuel as [| fuel IH]; intros resp Hlen; [lia |].
  simpl. destruct (crowding_rejects separation closerejectd resp) as [[| q rej] | e] eqn:E;
    [eauto | | eauto].
  apply IH.
  pose proof (crowding_rejects_in_range _ _ _ _ q E (or_introl eq_refl)) as Hq.
  pose proof (delete_rows_shorter resp (q :: rej) q (or_introl eq_refl) Hq). lia.
Qed.

Lemma crowding_loop_exit (separation : SkyCoord -> SkyCoord -> float)
    (closerejectd : float) (fuel : nat) (resp kept : list CatRow) :
  crowding_loop separation fuel closerejectd resp = Some (Ok kept) ->
  incl kept resp /\ crowding_rejects separation closerejectd kept = Ok [].
Proof.
  revert resp. induction fuel as [| fuel IH]; intros resp; simpl; [discriminate |].
  destruct (crowding_rejects separation closerejectd resp) as [[| q rej] | e] eqn:E;
    [| | discriminate].
  - intros H. injection H as <-. split; [apply incl_refl | assumption].
  - intros H. apply IH in H as [Hincl Hrej]. split; [| assumption].
    eapply incl_tran; [exact Hincl | apply delete_rows_incl].
Qed.

(** C5: when the crowding loop of lines 328-338 breaks, the pass that broke
    it rejected no row, and no two distinct surviving rows are closer than
    [closerejectd] arcseconds: every separation between them is at least
    [closerejectd].  The loop breaks exactly on a pass whose [catReject] is
    empty and otherwise goes on with the rejected rows deleted.  (Separations
    between catalogue positions are taken to be numbers.) *)
Theorem C5_crowding_loop_leaves_no_close_pair
    (separation : SkyCoord -> SkyCoord -> float) (closerejectd : float)
    (resp kept : list CatRow) (fuel : nat) :
  numbers separation (cat_coords resp) = true ->
  crowding_loop separation fuel closerejectd resp = Some (Ok kept) ->
  crowding_rejects separation closerejectd kept = Ok []
  /\ (forall i j a b, i <> j ->
        nth_error (cat_coords kept) i = Some a ->
        nth_error (cat_coords kept) j = Some b ->
        (separation a b <? closerejectd)%float = false
        /\ (PrimFloat.is_nan closerejectd = false ->
            (closerejectd <=? separation a b)%float = true))
  /\ (forall fuel' r,
        crowding_rejects separation closerejectd r = Ok [] ->
        crowding_loop separation (S fuel') closerejectd r = Some (Ok r))
  /\ (forall fuel' r q catReject,
        crowding_rejects separation closerejectd r = Ok (q :: catReject) ->
        crowding_loop separation (S fuel') closerejectd r
        = crowding_loop separation fuel' closerejectd (delete_rows r (q :: catReject))).
Proof.
  intros Hnum Hloop. apply crowding_loop_exit in Hloop as [Hincl Hrej].
  assert (Hnum' : numbers separation (cat_coords kept) = true).
  { eapply numbers_incl; [| exact Hnum]. unfold cat_coords.
    intros c Hc. apply in_map_iff in Hc as (r & <- & Hr).
    apply (in_map (fun r => (cat_ra r, cat_dec r))). auto. }
  split; [assumption |]. split; [| split].
  - intros i j a b Hij Ha Hb.
    pose proof (no_rejects_no_close_pair separation closerejectd kept Hnum' Hrej
                  i j a b Hij Ha Hb) as Hfar.
    split; [assumption |]. intros Hthr.
    apply FloatOrder.ltb_false_leb; [| assumption | assumption].
    apply (numbers_spec separation (cat_coords kept)); [assumption | |];
      eapply nth_error_In; eauto.
  - intros fuel' r E. simpl. rewrite E. reflexivity.
  - intros fuel' r q catReject E. simpl. rewrite E. reflexivity.
Qed.

Lemma C5_witness :
  crowding_rejects Sky.separation 5
    [ mkCatRow 10 2 14 0.01 0; mkCatRow 10 3 15 0.01 0 ]%float = Ok []
  /\ (Sky.separation (10, 2)%float (10, 3)%float <? 5)%float = false
  /\ (5 <=? Sky.separation (10, 2)%float (10, 3)%float)%float = true.
Proof.
  destruct (C5_crowding_loop_leaves_no_close_pair Sky.separation 5 crowded_catalogue
              [ mkCatRow 10 2 14 0.01 0; mkCatRow 10 3 15 0.01 0 ]%float 5
              eq_refl eq_refl) as (Hrej & Hpairs & _).
  destruct (Hpairs 0 1 (10, 2)%float (10, 3)%float
              (fun H => O_S 0 H) eq_refl eq_refl) as (Hfar & Hge).
  exact (conj Hrej (conj Hfar (Hge eq_refl))).
Defined.

(** ** [argsort] walks the keys in ascending order *)

Lemma np_le_spec (a b : float) :
  np_le a b = true
  <-> (b <? a)%float = false /\ (np.isnan a = true -> np.isnan b = true).
Proof.
  unfold np_le, np.lt.
  destruct (b <? a)%float, (np.isnan a), (np.isnan b); simpl; split; intros H;
    try discriminate; try reflexivity; try (split; [reflexivity | tauto]).
  all: try (destruct H as [H _]; discriminate).
  destruct H as [_ H]. specialize (H eq_refl). discriminate.
Qed.

Lemma np_lt_le (a b : float) : np.lt a b = true -> np_le a b = true.
Proof.
  unfold np_le, np.lt, np.isnan. intros H.
  apply orb_true_iff in H as [H | H].
  - destruct (FloatOrder.ltb_not_nan _ _ H) as [Ha Hb].
    rewrite (FloatOrder.ltb_asym _ _ H), Ha. reflexivity.
  - apply andb_true_iff in H as [Hb Ha]. apply negb_true_iff in Ha.
    rewrite Ha. simpl. rewrite orb_false_r.
    destruct (b <? a)%float eqn:E; [| reflexivity].
    apply FloatOrder.ltb_not_nan in E as [E _]. congruence.
Qed.

Lemma np_le_trans (a b c : float) :
  np_le a b = true -> np_le b c = true -> np_le a c = true.
Proof.
  rewrite !np_le_spec. unfold np.isnan. intros [Hba Hab] [Hcb Hbc]. split; [| tauto].
  destruct (c <? a)%float eqn:E; [| reflexivity].
  destruct (FloatOrder.ltb_not_nan _ _ E) as [Hc Ha].
  destruct (PrimFloat.is_nan b) eqn:Hb.
  - specialize (Hbc eq_refl). congruence.
  - destruct (FloatOrder.ltb_negtrans a b c Hb E); congruence.
Qed.

Section Argsort.

Variable keys : list float.

Lemma insert_index_perm (i : nat) (l : list nat) :
  Permutation (np.insert_index keys i l) (i :: l).
Proof.
  induction l as [| j l IH]; simpl; [apply Permutation_refl |].
  destruct (np.lt _ _); [apply Permutation_refl |].
  eapply perm_trans; [apply perm_skip, IH | apply perm_swap].
Qed.

Lemma insert_index_sorted (i : nat) (l : list nat) :
  StronglySorted (key_le keys) l -> StronglySorted (key_le keys) (np.insert_index keys i l).
Proof.
  induction 1 as [| j l Hsorted IH Hall]; simpl.
  - constructor; constructor.
  - destruct (np.lt (nth i keys PrimFloat.nan) (nth j keys PrimFloat.nan)) eqn:E.
    + constructor; [constructor; assumption |].
      apply np_lt_le in E. constructor; [exact E |].
      eapply Forall_impl; [| exact Hall]. intros k Hk.
      unfold key_le in *. eapply np_le_trans; eauto.
    + constructor; [assumption |].
      assert (Hji : (key_le keys) j i) by (unfold key_le, np_le; rewrite E; reflexivity).
      rewrite Forall_forall. intros k Hk.
      apply (Permutation_in _ (insert_index_perm i l)) in Hk as [<- | Hk]; [assumption |].
      rewrite Forall_forall in Hall. auto.
Qed.

Lemma fold_insert_perm (xs acc : list nat) :
  Permutation (fold_left (fun acc i => np.insert_index keys i acc) xs acc) (xs ++ acc).
Proof.
  revert acc. induction xs as [| x xs IH]; intros acc; simpl; [apply Permutation_refl |].
  eapply perm_trans; [apply IH |].
  eapply perm_trans; [apply Permutation_app_head, insert_index_perm |].
  apply Permutation_sym, Permutation_middle.
Qed.

Lemma fold_insert_sorted (xs acc : list nat) :
  StronglySorted (key_le keys) acc ->
  StronglySorted (key_le keys) (fold_left (fun acc i => np.insert_index keys i acc) xs acc).
Proof.
  revert acc. induction xs as [| x xs IH]; intros acc Hacc; simpl; [assumption |].
  apply IH, insert_index_sorted, Hacc.
Qed.

(** [argsort] returns every index once. *)
Lemma argsort_perm : Permutation (np.argsort keys) (seq 0 (length keys)).
Proof.
  unfold np.argsort. rewrite <- (app_nil_r (seq 0 (length keys))) at 2.
  apply fold_insert_perm.
Qed.

(** [argsort] returns the indices in ascending order of key, NaN last. *)
Lemma argsort_sorted : StronglySorted (key_le keys) (np.argsort keys).
Proof.
  apply fold_insert_sorted. constructor.
Qed.

End Argsort.

(** ** [final_candidate_catalogue] *)

Section Selection.

Variable separation : SkyCoord -> SkyCoord -> float.

Lemma select_step_Ok (sortorder_len : nat) (sortStars : list SortStar)
    (referenceFrame : list PhotRow) (thresholdCounts variabilityMax : float)
    (st st' : Selection) (j : nat) :
  select_step separation false sortorder_len sortStars referenceFrame
    thresholdCounts variabilityMax st j = Ok st' ->
  exists star flux,
    nth_error sortStars j = Some star
    /\ contribution separation referenceFrame star flux
    /\ compFile st'
       = compFile st
         ++ selector_spec thresholdCounts variabilityMax (sortorder_len =? 1)%nat
              (tempCountCounter st) [(star, flux)]
    /\ tempCountCounter st' = (tempCountCounter st + flux)%float.
Proof.
  unfold select_step. intros H.
  apply bind_Ok in H as (star & Hstar & H).
  apply bind_Ok in H as ([idx d2d] & Hmatch & H).
  apply bind_Ok in H as (row & Hrow & H).
  injection H as <-. simpl.
  unfold getitem in Hstar, Hrow.
  destruct (nth_error sortStars j) as [s |] eqn:Es; [| discriminate].
  destruct (nth_error referenceFrame idx) as [r |] eqn:Er; [| discriminate].
  injection Hstar as ->. injection Hrow as ->.
  exists star, (counts row). split; [reflexivity |].
  split; [exists idx, d2d, row; auto |].
  split; [| reflexivity].
  destruct ((tempCountCounter st <? thresholdCounts)%float
            && ((sortorder_len =? 1)%nat || (ss_std star <? variabilityMax)%float));
    [reflexivity | symmetry; apply app_nil_r].
Qed.

Lemma selector_spec_app (thresholdCounts variabilityMax : float) (single : bool)
    (running : float) (walk1 walk2 : list (SortStar * float)) :
  selector_spec thresholdCounts variabilityMax single running (walk1 ++ walk2)
  = selector_spec thresholdCounts variabilityMax single running walk1
    ++ selector_spec thresholdCounts variabilityMax single
         (fold_left PrimFloat.add (map snd walk1) running) walk2.
Proof.
  revert running. induction walk1 as [| [star flux] walk1 IH]; intros running; simpl;
    [reflexivity |].
  rewrite IH. destruct (_ && _); reflexivity.
Qed.

Lemma select_loop_Ok (sortorder_len : nat) (sortStars : list SortStar)
    (referenceFrame : list PhotRow) (thresholdCounts variabilityMax : float)
    (sortorder : list nat) (st st' : Selection) :
  select_loop separation false sortorder_len sortStars referenceFrame
    thresholdCounts variabilityMax st sortorder = Ok st' ->
  exists walk,
    Forall2 (fun j e => nth_error sortStars j = Some (fst e)
                        /\ contribution separation referenceFrame (fst e) (snd e)) sortorder walk
    /\ compFile st'
       = compFile st
         ++ selector_spec thresholdCounts variabilityMax (sortorder_len =? 1)%nat
              (tempCountCounter st) walk
    /\ tempCountCounter st'
       = fold_left PrimFloat.add (map snd walk) (tempCountCounter st).
Proof.
  revert st. induction sortorder as [| j rest IH]; intros st; simpl.
  - intros H. injection H as <-. exists []. split; [constructor |].
    split; [symmetry; apply app_nil_r | reflexivity].
  - intros H. apply bind_Ok in H as (st1 & Hstep & H).
    apply select_step_Ok in Hstep as (star & flux & Hstar & Hflux & Hcomp & Htemp).
    apply IH in H as (walk & Hwalk & Hcomp' & Htemp').
    exists ((star, flux) :: walk). split; [constructor; auto |].
    rewrite Hcomp', Htemp', Hcomp, Htemp. split; [| reflexivity].
    rewrite <- app_assoc. f_equal.
    change ((star, flux) :: walk) with ([(star, flux)] ++ walk).
    rewrite selector_spec_app. reflexivity.
Qed.

(** Who is accepted: exactly the candidates met while the running sum is
    below the threshold that are alone or below the ceiling. *)
Lemma selector_spec_In (thresholdCounts variabilityMax : float) (single : bool)
    (walk : list (SortStar * float)) (running : float) (c : float * float * float) :
  In c (selector_spec thresholdCounts variabilityMax single running walk)
  <-> exists k star flux,
        nth_error walk k = Some (star, flux)
        /\ c = triple star
        /\ (fold_left PrimFloat.add (map snd (firstn k walk)) running <? thresholdCounts)%float
           = true
        /\ (single = true \/ (ss_std star <? variabilityMax)%float = true).
Proof.
  revert running. induction walk as [| [star flux] walk IH]; intros running; simpl.
  - split; [tauto |]. intros (k & s & f & H & _). destruct k; discriminate.
  - split.
    + intros H.
      assert (Hcases :
        (c = triple star
         /\ (running <? thresholdCounts)%float = true
         /\ (single = true \/ (ss_std star <? variabilityMax)%float = true))
        \/ In c (selector_spec thresholdCounts variabilityMax single
                   (running + flux)%float walk)).
      { destruct (running <? thresholdCounts)%float; simpl in H; [| auto].
        destruct single; simpl in H.
        - destruct H as [<- | H]; auto.
        - destruct (ss_std star <? variabilityMax)%float; simpl in H; [| auto].
          destruct H as [<- | H]; auto. }
      destruct Hcases as [(-> & Hrun & Hok) | Hlater].
      * exists 0, star, flux. simpl. auto.
      * apply IH in Hlater as (k & s & f & Hk & Hc & Hrun & Hok).
        exists (S k), s, f. simpl. auto.
    + intros (k & s & f & Hk & Hc & Hrun & Hok).
      destruct k as [| k]; simpl in Hk, Hrun.
      * injection Hk as <- <-. rewrite Hrun. simpl.
        assert (E : single || (ss_std star <? variabilityMax)%float = true).
        { destruct Hok as [-> | ->]; [reflexivity | apply orb_true_r]. }
        rewrite E. left. auto.
      * assert (Hlater : In c (selector_spec thresholdCounts variabilityMax single
                                  (running + flux)%float walk)).
        { apply IH. exists k, s, f. auto. }
        destruct (_ && _); [right |]; assumption.
Qed.

End Selection.

Lemma map_nth_seq {A : Type} (l : list A) (d : A) :
  map (fun j => nth j l d) (seq 0 (length l)) = l.
Proof.
  induction l as [| x l IH]; simpl; [reflexivity |].
  f_equal. rewrite <- seq_shift, map_map. exact IH.
Qed.

Lemma StronglySorted_map {A B : Type} (R : B -> B -> Prop) (f : A -> B) (l : list A) :
  StronglySorted (fun a b => R (f a) (f b)) l -> StronglySorted R (map f l).
Proof.
  induction 1 as [| a l _ IH Hall]; simpl; constructor; [assumption |].
  rewrite Forall_map. exact Hall.
Qed.

Lemma StronglySorted_weaken {A : Type} (R R' : A -> A -> Prop) (l : list A) :
  (forall a b, R a b -> R' a b) -> StronglySorted R l -> StronglySorted R' l.
Proof.
  intros Himp. induction 1 as [| a l _ IH Hall]; constructor; [assumption |].
  eapply Forall_impl; [| exact Hall]. intros b. apply Himp.
Qed.

Lemma walk_candidates {P : SortStar * float -> Prop} (sortStars : list SortStar)
    (d : SortStar) (sortorder : list nat) (walk : list (SortStar * float)) :
  Forall2 (fun j e => nth_error sortStars j = Some (fst e) /\ P e) sortorder walk ->
  map fst walk = map (fun j => nth j sortStars d) sortorder /\ Forall P walk.
Proof.
  induction 1 as [| j e sortorder walk [Hj He] _ [IH1 IH2]]; simpl;
    [split; [reflexivity | constructor] |].
  split; [| constructor; assumption].
  f_equal; [| assumption]. symmetry. apply nth_error_nth. assumption.
Qed.

(** With exactly one candidate, line 138 wraps the one-row table in a list
    and line 147 indexes past its only row: the function raises before it
    accepts anything. *)
Lemma final_candidate_catalogue_single (separation : SkyCoord -> SkyCoord -> float)
    (comparisons : list (list PhotRow)) (referenceFrame : list PhotRow) (star : SortStar)
    (thresholdCounts variabilityMax : float) :
  nth_error comparisons 0 = Some referenceFrame ->
  final_candidate_catalogue separation comparisons [star] thresholdCounts variabilityMax
  = Raise IndexError.
Proof.
  intros H. unfold final_candidate_catalogue, getitem. rewrite H. reflexivity.
Qed.

(** C2: whenever [final_candidate_catalogue] returns, its walk visits every
    candidate once in ascending order of variability score; [compFile] holds,
    in that order, exactly the candidates met while the running sum of the
    contributions of all earlier candidates (accepted or not) was below
    [thresholdCounts] and that were the only candidate or had a score below
    [variabilityMax]; so unless there is exactly one candidate every accepted
    score is below [variabilityMax]. *)
Theorem C2_selection_walk (separation : SkyCoord -> SkyCoord -> float)
    (comparisons : list (list PhotRow)) (sortStars : list SortStar)
    (thresholdCounts variabilityMax : float)
    (accepted : list (float * float * float)) (n : nat) :
  final_candidate_catalogue separation comparisons sortStars thresholdCounts variabilityMax
    = Ok (accepted, n) ->
  exists referenceFrame walk,
    nth_error comparisons 0 = Some referenceFrame
    /\ Permutation (map fst walk) sortStars
    /\ StronglySorted (fun a b => np_le (ss_std a) (ss_std b) = true) (map fst walk)
    /\ Forall (fun e => contribution separation referenceFrame (fst e) (snd e)) walk
    /\ accepted
       = selector_spec thresholdCounts variabilityMax (length walk =? 1)%nat 0%float walk
    /\ n = length accepted
    /\ (forall c,
          In c accepted
          <-> exists k star flux,
                nth_error walk k = Some (star, flux)
                /\ c = triple star
                /\ (running_sum walk k <? thresholdCounts)%float = true
                /\ (length walk = 1 \/ (ss_std star <? variabilityMax)%float = true))
    /\ (length sortStars <> 1 ->
        Forall (fun c => (snd c <? variabilityMax)%float = true) accepted).
Proof.
  unfold final_candidate_catalogue. intros H.
  apply bind_Ok in H as (referenceFrame & Href & H).
  apply bind_Ok in H as ([] & _ & H).
  apply bind_Ok in H as (st & Hloop & H). injection H as <- <-.
  set (keys := map ss_std sortStars) in *.
  pose proof (argsort_perm keys) as Hperm.
  pose proof (argsort_sorted keys) as Hsorted.
  assert (Hlen : length (np.argsort keys) = length sortStars).
  { rewrite (Permutation_length Hperm), length_seq. unfold keys. apply length_map. }
  rewrite Hlen in Hloop.
  assert (Hwrapped : (sortStars_columns * length sortStars =? 13)%nat
                     && (length sortStars =? 1)%nat = false).
  { destruct (Nat.eqb_spec (length sortStars) 1) as [E | _]; [| apply andb_false_r].
    exfalso. rewrite E in Hloop. simpl in Hloop.
    destruct (np.argsort keys) as [| j rest]; [rewrite E in Hlen; discriminate |].
    simpl in Hloop. discriminate. }
  rewrite Hwrapped in Hloop.
  apply select_loop_Ok in Hloop as (walk & Hwalk & Hcomp & _). simpl in Hcomp.
  pose proof (Forall2_length Hwalk) as Hwlen. rewrite Hlen in Hwlen.
  apply (walk_candidates sortStars (mkSortStar PrimFloat.nan PrimFloat.nan PrimFloat.nan))
    in Hwalk as [Hfst Hcontrib].
  rewrite Hwlen in Hcomp.
  unfold getitem in Href.
  destruct (nth_error comparisons 0) as [r |]; [| discriminate]. injection Href as ->.
  exists referenceFrame, walk. split; [reflexivity |].
  split; [| split; [| split; [exact Hcontrib | split; [exact Hcomp | split; [reflexivity |]]]]].
  - rewrite Hfst. unfold keys in Hperm. rewrite length_map in Hperm.
    eapply perm_trans; [apply Permutation_map; exact Hperm |].
    rewrite map_nth_seq. apply Permutation_refl.
  - rewrite Hfst. apply StronglySorted_map.
    eapply StronglySorted_weaken; [| exact Hsorted].
    intros i j Hij. unfold key_le, keys in Hij.
    change PrimFloat.nan
      with (ss_std (mkSortStar PrimFloat.nan PrimFloat.nan PrimFloat.nan)) in Hij.
    rewrite !map_nth in Hij. exact Hij.
  - assert (Hin : forall c,
              In c (compFile st)
              <-> exists k star flux,
                    nth_error walk k = Some (star, flux)
                    /\ c = triple star
                    /\ (running_sum walk k <? thresholdCounts)%float = true
                    /\ (length walk = 1 \/ (ss_std star <? variabilityMax)%float = true)).
    { intros c. rewrite Hcomp, selector_spec_In. unfold running_sum.
      split; intros (k & star & flux & Hk & Hc & Hrun & Hok);
        exists k, star, flux; repeat split; try assumption.
      - destruct Hok as [Hok | Hok]; [left; apply Nat.eqb_eq; exact Hok | right; exact Hok].
      - destruct Hok as [Hok | Hok]; [left; apply Nat.eqb_eq; exact Hok | right; exact Hok]. }
    split; [exact Hin |].
    intros Hne. apply Forall_forall. intros c Hc.
    apply Hin in Hc as (k & star & flux & _ & -> & _ & [Hone | Hok]); [| exact Hok].
    congruence.
Qed.

(** With a threshold of 7000 counts the walk accepts the second and the
    third candidate and meets the first one at a running sum of 8000. *)
Lemma C2_witness :
  final_candidate_catalogue Sky.separation three_stars three_scores 7000 0.025
  = Ok ([(10, 2, 0.01); (10, 3, 0.02)]%float, 2)
  /\ Forall (fun c => (snd c <? 0.025)%float = true) [(10, 2, 0.01); (10, 3, 0.02)]%float.
Proof.
  split; [reflexivity |].
  destruct (C2_selection_walk Sky.separation three_stars three_scores 7000 0.025
              [(10, 2, 0.01); (10, 3, 0.02)]%float 2 eq_refl)
    as (referenceFrame & walk & _ & _ & _ & _ & _ & _ & _ & Hceiling).
  apply Hceiling. discriminate.
Defined.

Section SelectionReturns.

Variable separation : SkyCoord -> SkyCoord -> float.

Lemma closer_fold_index (coord : SkyCoord) (entries : list (nat * SkyCoord))
    (best : nat * float) (bound : nat) :
  fst best < bound -> Forall (fun e => fst e < bound) entries ->
  fst (fold_left (closer separation coord) entries best) < bound.
Proof.
  intros Hbest Hall. revert best Hbest.
  induction Hall as [| e entries He _ IH]; intros best Hbest; simpl; [assumption |].
  apply IH. unfold closer. destruct (_ <? _)%float; assumption.
Qed.

Lemma match_to_catalog_sky_index (coord : SkyCoord) (catalog : list SkyCoord)
    (idx : nat) (d2d : float) :
  match_to_catalog_sky separation coord catalog = Ok (idx, d2d) -> idx < length catalog.
Proof.
  unfold match_to_catalog_sky, enumerate. destruct catalog as [| c rest]; [discriminate |].
  simpl. intros H. injection H as H.
  change idx with (fst (idx, d2d)). rewrite <- H.
  apply closer_fold_index; simpl; [lia |].
  apply Forall_forall. intros e He. apply enumerate_from_index in He. lia.
Qed.


End SelectionReturns.

(** ** The whole of [find_comparisons] on a quiet field

    Three candidates in two frames, none an outlier: the loop makes its two
    passes, [variabilityMax] is 2.5 times the least score, and the selection
    keeps the one candidate below it. *)
Example find_comparisons_quiet_field :
  exists score,
    find_comparisons Libm.log10 Sky.separation 2 [(10.5, 3.5)%float] (TargetTable [])
      quiet_frames 2.5 10000000 2.5 true 1
    = Some (Ok ([(10, 3, score)]%float, 1))
    /\ (0.005 <? score)%float = true
    /\ (score <? 0.0052)%float = true.
Proof.
  eexists. split; [vm_compute; reflexivity |]. split; vm_compute; reflexivity.
Qed.

(** * Further properties of the code *)

(** ** [calculate_comparison_variation] on a well-formed table *)

Lemma mapM_returns {A B : Type} (f : A -> Result B) (xs : list A) :
  Forall (fun x => exists y, f x = Ok y) xs -> exists ys, mapM f xs = Ok ys.
Proof.
  induction 1 as [| x xs (y & Hy) _ (ys & Hys)]; simpl; [eauto |].
  rewrite Hy, Hys. simpl. eauto.
Qed.

Lemma getitem_Ok {A : Type} (xs : list A) (i : nat) (x : A) :
  getitem xs i = Ok x <-> nth_error xs i = Some x.
Proof.
  unfold getitem. destruct (nth_error xs i); split; congruence.
Qed.

Lemma getitem_in_range {A : Type} (xs : list A) (i : nat) :
  i < length xs -> exists x, getitem xs i = Ok x.
Proof.
  intros H. unfold getitem. destruct (nth_error xs i) eqn:E; [eauto |].
  apply nth_error_None in E. lia.
Qed.

(** The scores and the [sortStars] rows of a result go together: row [j] of
    [sortStars] carries score [j]. *)
Lemma calculate_comparison_variation_scores (log10 : float -> float)
    (comparisons : list (list PhotRow)) (fileCount stdCompStar : list float)
    (sortStars : list SortStar) :
  calculate_comparison_variation log10 comparisons fileCount = Ok (stdCompStar, sortStars) ->
  map ss_std sortStars = stdCompStar.
Proof.
  unfold calculate_comparison_variation.
  destruct comparisons as [| frame0 rest]; [discriminate |]. intros H.
  apply bind_Ok in H as (rows & Hrows & H). injection H as <- <-.
  apply mapM_Ok in Hrows.
  induction Hrows as [| j row js rows Hrow _ IH]; simpl; [reflexivity |].
  f_equal; [| exact IH].
  apply bind_Ok in Hrow as (ref & _ & Hrow).
  apply bind_Ok in Hrow as (mags & _ & Hrow).
  destruct (np.std mags =? PrimFloat.nan)%float; [discriminate |].
  injection Hrow as <-. reflexivity.
Qed.

(** X1: on a table of at least one frame in which every frame has as many
    rows as the first one, and with no more ensemble counts than frames,
    [calculate_comparison_variation] returns; it gives one score and one
    [sortStars] row per candidate, the row holding the candidate's position
    in the first frame and its score. *)
Theorem calculate_comparison_variation_returns (log10 : float -> float)
    (comparisons : list (list PhotRow)) (fileCount : list float) :
  comparisons <> [] ->
  Forall (fun frame => length frame = numstars comparisons) comparisons ->
  length fileCount <= length comparisons ->
  exists stdCompStar sortStars,
    calculate_comparison_variation log10 comparisons fileCount = Ok (stdCompStar, sortStars)
    /\ length stdCompStar = numstars comparisons
    /\ map ss_std sortStars = stdCompStar
    /\ map (fun s => (ss_ra s, ss_dec s)) sortStars = coords_of (hd [] comparisons).
Proof.
  intros Hframes Hreg Hcount.
  assert (Hcell : forall q j, q < length comparisons -> j < numstars comparisons ->
            exists row, getitem2 comparisons q j = Ok row).
  { intros q j Hq Hj. unfold getitem2.
    destruct (getitem_in_range comparisons q Hq) as (frame & Hframe).
    rewrite Hframe. simpl. apply getitem_in_range.
    rewrite Forall_forall in Hreg. rewrite (Hreg frame); [assumption |].
    apply getitem_Ok in Hframe. eapply nth_error_In; eauto. }
  assert (Hrows : exists rows,
            mapM (fun j =>
                ref <- getitem2 comparisons 0 j ;;
                compDiffMags <- mapM (fun '(q, count) =>
                    row <- getitem2 comparisons q j ;;
                    Ok (2.5 * log10 (counts row / count))%float)
                  (enumerate fileCount) ;;
                if (np.std compDiffMags =? PrimFloat.nan)%float then Raise SystemExit
                else Ok (np.std compDiffMags,
                         mkSortStar (ra ref) (dec ref) (np.std compDiffMags)))
              (seq 0 (numstars comparisons)) = Ok rows
            /\ map (fun r => (ss_ra (snd r), ss_dec (snd r))) rows
               = coords_of (hd [] comparisons)).
  { destruct comparisons as [| frame0 rest]; [congruence |].
    simpl numstars in *. simpl hd.
    assert (Hgen : forall (pre post : list PhotRow), frame0 = pre ++ post ->
              exists rows,
                mapM (fun j =>
                    ref <- getitem2 (frame0 :: rest) 0 j ;;
                    compDiffMags <- mapM (fun '(q, count) =>
                        row <- getitem2 (frame0 :: rest) q j ;;
                        Ok (2.5 * log10 (counts row / count))%float)
                      (enumerate fileCount) ;;
                    if (np.std compDiffMags =? PrimFloat.nan)%float then Raise SystemExit
                    else Ok (np.std compDiffMags,
                             mkSortStar (ra ref) (dec ref) (np.std compDiffMags)))
                  (seq (length pre) (length post)) = Ok rows
                /\ map (fun r => (ss_ra (snd r), ss_dec (snd r))) rows = coords_of post).
    { intros pre post. revert pre.
      induction post as [| row post IH]; intros pre Hsplit; simpl; [exists []; auto |].
      assert (Hj : length pre < length frame0).
      { rewrite Hsplit, length_app. simpl. lia. }
      assert (Href : getitem2 (frame0 :: rest) 0 (length pre) = Ok row).
      { unfold getitem2. simpl. rewrite Hsplit. apply getitem_app_mid. }
      rewrite Href. cbn [bind].
      destruct (mapM_returns
                  (fun '(q, count) =>
                     row <- getitem2 (frame0 :: rest) q (length pre) ;;
                     Ok (2.5 * log10 (counts row / count))%float)
                  (enumerate fileCount)) as (mags & Hmags).
      { apply Forall_forall. intros [q count] Hin.
        apply enumerate_from_index in Hin. simpl in Hin.
        destruct (Hcell q (length pre)) as (r & Hr); [lia | assumption |].
        rewrite Hr. simpl. eauto. }
      rewrite Hmags. cbn [bind]. rewrite FloatOrder.eqb_nan_r.
      destruct (IH (pre ++ [row])) as (rows & Hrows & Hcoords).
      { rewrite <- app_assoc. exact Hsplit. }
      rewrite length_app, Nat.add_1_r in Hrows. rewrite Hrows. cbn [bind].
      eexists. split; [reflexivity |]. simpl. f_equal. exact Hcoords. }
    exact (Hgen [] frame0 eq_refl). }
  destruct Hrows as (rows & Hrows & Hcoords).
  exists (map fst rows), (map snd rows).
  assert (Hcalc : calculate_comparison_variation log10 comparisons fileCount
                  = Ok (map fst rows, map snd rows)).
  { unfold calculate_comparison_variation.
    destruct comparisons as [| frame0 rest]; [congruence |]. rewrite Hrows. reflexivity. }
  split; [exact Hcalc |].
  split; [exact (proj1 (calculate_comparison_variation_length _ _ _ _ _ Hcalc)) |].
  split; [exact (calculate_comparison_variation_scores _ _ _ _ _ Hcalc) |].
  rewrite map_map. exact Hcoords.
Qed.

Lemma calculate_comparison_variation_returns_witness :
  exists stdCompStar sortStars,
    calculate_comparison_variation Libm.log10 quiet_frames (ensemble_counts quiet_frames)
      = Ok (stdCompStar, sortStars)
    /\ length stdCompStar = numstars quiet_frames
    /\ map ss_std sortStars = stdCompStar
    /\ map (fun s => (ss_ra s, ss_dec s)) sortStars = coords_of (hd [] quiet_frames).
Proof.
  apply (calculate_comparison_variation_returns Libm.log10 quiet_frames
           (ensemble_counts quiet_frames)).
  - discriminate.
  - repeat constructor.
  - simpl. lia.
Defined.

(** ** [remove_stars_targets] never removes a star *)

Lemma vsx_step_keeps_mask (separation : SkyCoord -> SkyCoord -> float)
    (acceptDistance : float) (compFile : list PhotRow) (raCat_size : nat)
    (mask mask' : list bool) (compCoord : SkyCoord) :
  vsx_step separation acceptDistance compFile raCat_size mask compCoord = Ok mask' ->
  mask' = mask.
Proof.
  unfold vsx_step. intros H.
  apply bind_Ok in H as ([idx d2d] & _ & H).
  destruct (variable_star_match acceptDistance d2d); [discriminate |].
  injection H as <-. reflexivity.
Qed.

Lemma vsx_loop_keeps_mask (separation : SkyCoord -> SkyCoord -> float)
    (acceptDistance : float) (compFile : list PhotRow) (raCat_size : nat)
    (variableResult : list SkyCoord) (mask mask' : list bool) :
  vsx_loop separation acceptDistance compFile raCat_size mask variableResult = Ok mask' ->
  mask' = mask.
Proof.
  revert mask. induction variableResult as [| c rest IH]; intros mask; simpl.
  - intros H. injection H as <-. reflexivity.
  - intros H. apply bind_Ok in H as (m & Hm & H).
    apply vsx_step_keeps_mask in Hm. subst m. auto.
Qed.

(** X2: whenever [remove_stars_targets] returns, it returns the frames it was
    given, unchanged: a variable-star match ends in the NameError before the
    mask is touched, so the mask that filters the frames is still all true.
    The first frame then has no single row, and all frames have its
    length. *)
Theorem remove_stars_targets_returns_its_input
    (separation : SkyCoord -> SkyCoord -> float) (variableResult : list SkyCoord)
    (photlist kept : list (list PhotRow)) (acceptDistance : float)
    (targetFile : Targets) (removeTargets : bool) :
  remove_stars_targets separation variableResult photlist acceptDistance
    targetFile removeTargets = Ok kept ->
  kept = photlist
  /\ numstars photlist <> 1
  /\ Forall (fun frame => length frame = numstars photlist) photlist.
Proof.
  unfold remove_stars_targets. intros H.
  apply bind_Ok in H as (compFile & HcompFile & H).
  apply bind_Ok in H as (mask & Hmask & H).
  apply bind_Ok in H as (frames & Hframes & H).
  apply vsx_loop_keeps_mask in Hmask. subst mask.
  assert (Hn : numstars photlist = length compFile).
  { apply getitem_Ok in HcompFile. destruct photlist; [discriminate |].
    simpl in *. congruence. }
  destruct (Nat.eqb_spec (length compFile) 1) as [E | Hne]; [discriminate |].
  injection H as <-.
  pose proof (mapM_bool_index_all_true _ _ _ Hframes) as ->.
  apply mapM_bool_index_frames in Hframes as [Hlen _].
  rewrite repeat_length in Hlen. rewrite Hn. auto.
Qed.

Lemma remove_stars_targets_returns_its_input_witness :
  two_candidates = two_candidates
  /\ numstars two_candidates <> 1
  /\ Forall (fun frame => length frame = numstars two_candidates) two_candidates.
Proof.
  exact (remove_stars_targets_returns_its_input Sky.separation [(10, 1.000125)%float]
           two_candidates two_candidates 1 (TargetTable []) true eq_refl).
Defined.

(** ** [find_comparisons] as a whole *)

Lemma select_none {A : Type} (c : list A) (n : nat) : np.select c (repeat false n) = [].
Proof.
  revert n. induction c as [| x c IH]; intros [| n]; simpl; auto.
Qed.

(** What the loop hands over when it breaks. *)
Lemma stable_candidates_Ok (log10 : float -> float)
    (stdMultiplier variabilityMultiplier : float) (comparisons : list (list PhotRow))
    (fuel : nat) (c : Converged) :
  stable_candidates log10 (S (S fuel)) stdMultiplier variabilityMultiplier comparisons
    = Some (Ok c) ->
  exists p,
    rejection_pass log10 stdMultiplier variabilityMultiplier (ensemble_counts comparisons)
      comparisons (repeat true (numstars comparisons)) = Ok p
    /\ final_comparisons c = pass_comparisons p
    /\ final_sortStars c = pass_sortStars p
    /\ final_variabilityMax c = pass_variabilityMax p
    /\ final_starRejecter c = pass_starRejecter p
    /\ ((iterations c = 1 /\ pass_starRejecter p = repeat false (numstars comparisons))
        \/ (iterations c = 2 /\ pass_starRejecter p = repeat true (numstars comparisons)
            /\ pass_comparisons p = comparisons)).
Proof.
  unfold stable_candidates. cbn [rejection_loop].
  destruct (rejection_pass log10 stdMultiplier variabilityMultiplier
              (ensemble_counts comparisons) comparisons
              (repeat true (numstars comparisons))) as [p | e] eqn:H1; [| discriminate].
  destruct (list_bool_eqb (pass_starRejecter p) (repeat false (numstars comparisons)))
    eqn:E.
  { intros H. injection H as <-. simpl. exists p. repeat split; try reflexivity.
    left. split; [reflexivity |]. apply list_bool_eqb_true. exact E. }
  destruct (rejection_pass log10 stdMultiplier variabilityMultiplier
              (ensemble_counts comparisons) (pass_comparisons p)
              (pass_starRejecter p)) as [p2 | e] eqn:H2; [| discriminate].
  pose proof (second_pass_needs_full_mask _ _ _ _ _ _ _ H1 H2) as Hmask.
  assert (Hkept : pass_comparisons p = comparisons).
  { pose proof (rejection_pass_Ok _ _ _ _ _ _ _ H1) as (_ & _ & _ & _ & _ & _ & _ & H).
    rewrite Hmask in H. eapply mapM_bool_index_all_true; eauto. }
  rewrite Hkept, Hmask in H2. rewrite H1 in H2. injection H2 as <-.
  rewrite list_bool_eqb_refl. intros H. injection H as <-. simpl.
  exists p. repeat split; try reflexivity. right. auto.
Qed.

(** With no row in the reference frame the selection cannot match a
    candidate and raises. *)
Lemma final_candidate_catalogue_empty_frame (separation : SkyCoord -> SkyCoord -> float)
    (comparisons : list (list PhotRow)) (sortStars : list SortStar)
    (thresholdCounts variabilityMax : float) :
  nth_error comparisons 0 = Some [] ->
  exists e,
    final_candidate_catalogue separation comparisons sortStars thresholdCounts variabilityMax
    = Raise e.
Proof.
  intros Href. unfold final_candidate_catalogue, getitem. rewrite Href. cbn [bind].
  destruct (Nat.eqb_spec (length sortStars) 0) as [E | Hne]; cbn [bind]; [eauto |].
  pose proof (argsort_perm (map ss_std sortStars)) as Hperm.
  apply Permutation_length in Hperm. rewrite length_seq, length_map in Hperm.
  destruct (np.argsort (map ss_std sortStars)) as [| j rest]; [simpl in Hperm; lia |].
  cbn [select_loop]. unfold select_step.
  destruct (_ && _); cbn [bind]; [eauto |].
  destruct (getitem sortStars j) as [star | e]; simpl; eauto.
Qed.

Lemma selector_spec_ceiling (thresholdCounts variabilityMax running : float)
    (walk : list (SortStar * float)) :
  Forall (fun c => (snd c <? variabilityMax)%float = true)
    (selector_spec thresholdCounts variabilityMax false running walk).
Proof.
  revert running. induction walk as [| [star flux] walk IH]; intros running; simpl;
    [constructor |].
  destruct (running <? thresholdCounts)%float; simpl; [| apply IH].
  destruct (ss_std star <? variabilityMax)%float eqn:E; [| apply IH].
  constructor; [exact E | apply IH].
Qed.

(** Every star a returning selection accepts has a score below the ceiling,
    and the count it returns is the number of accepted stars. *)
Lemma final_candidate_catalogue_ceiling (separation : SkyCoord -> SkyCoord -> float)
    (comparisons : list (list PhotRow)) (sortStars : list SortStar)
    (thresholdCounts variabilityMax : float) (accepted : list (float * float * float))
    (n : nat) :
  final_candidate_catalogue separation comparisons sortStars thresholdCounts variabilityMax
    = Ok (accepted, n) ->
  n = length accepted
  /\ Forall (fun c => (snd c <? variabilityMax)%float = true) accepted.
Proof.
  unfold final_candidate_catalogue. intros H.
  apply bind_Ok in H as (referenceFrame & _ & H).
  apply bind_Ok in H as ([] & _ & H).
  apply bind_Ok in H as (st & Hloop & H). injection H as <- <-.
  split; [reflexivity |].
  pose proof (argsort_perm (map ss_std sortStars)) as Hperm.
  apply Permutation_length in Hperm. rewrite length_seq, length_map in Hperm.
  rewrite Hperm in Hloop.
  destruct (Nat.eqb_spec (length sortStars) 1) as [E | Hne].
  - exfalso. rewrite E in Hloop. simpl in Hloop.
    destruct (np.argsort (map ss_std sortStars)) as [| j rest]; [simpl in Hperm; lia |].
    simpl in Hloop. discriminate.
  - rewrite andb_false_r in Hloop.
    apply select_loop_Ok in Hloop as (walk & _ & Hcomp & _). simpl in Hcomp.
    apply Nat.eqb_neq in Hne. rewrite Hne in Hcomp.
    rewrite Hcomp. apply selector_spec_ceiling.
Qed.

(** X3: whenever [find_comparisons] returns, the rejection loop rejected
    nobody: it made exactly two passes, its mask is all true, and the
    selection ran on the frames as they were given.  The count returned is
    the number of accepted stars, and every accepted score is below
    [variabilityMultiplier] times the least score of the candidates. *)
Theorem find_comparisons_returns_only_without_rejection
    (log10 : float -> float) (separation : SkyCoord -> SkyCoord -> float)
    (fuel : nat) (variableResult : list SkyCoord) (targets : Targets)
    (photlist : list (list PhotRow))
    (stdMultiplier thresholdCounts variabilityMultiplier : float)
    (removeTargets : bool) (acceptDistance : float)
    (accepted : list (float * float * float)) (n : nat) :
  find_comparisons log10 separation (S (S fuel)) variableResult targets photlist
    stdMultiplier thresholdCounts variabilityMultiplier removeTargets acceptDistance
    = Some (Ok (accepted, n)) ->
  exists c least,
    stable_candidates log10 (S (S fuel)) stdMultiplier variabilityMultiplier photlist
      = Some (Ok c)
    /\ iterations c = 2
    /\ final_starRejecter c = repeat true (numstars photlist)
    /\ final_comparisons c = photlist
    /\ np.min (map ss_std (final_sortStars c)) = Ok least
    /\ final_variabilityMax c = (least * variabilityMultiplier)%float
    /\ n = length accepted
    /\ Forall (fun a => (snd a <? least * variabilityMultiplier)%float = true) accepted.
Proof.
  unfold find_comparisons. intros H.
  destruct (remove_stars_targets separation variableResult photlist acceptDistance
              targets removeTargets) as [comparisons | e] eqn:Hremove; [| discriminate].
  apply remove_stars_targets_returns_its_input in Hremove as (-> & _ & _).
  destruct (stable_candidates log10 (S (S fuel)) stdMultiplier variabilityMultiplier
              photlist) as [[c | e] |] eqn:Hloop; try discriminate.
  injection H as Hfinal.
  destruct (stable_candidates_Ok _ _ _ _ _ _ Hloop)
    as (p & Hpass & Hcomp & Hsort & Hmax & Hmask & Hcases).
  pose proof (rejection_pass_numstars _ _ _ _ _ _ _ Hpass) as Hn.
  pose proof (rejection_pass_Ok _ _ _ _ _ _ _ Hpass)
    as (scores & least & Hcalc & Hmin & Hvar & _ & _ & Hkept).
  apply calculate_comparison_variation_scores in Hcalc.
  destruct Hcases as [[_ Hnone] | (Hiter & Hall & Hsame)].
  - exfalso. rewrite Hnone in Hkept.
    apply mapM_bool_index_frames in Hkept as [_ Hkept].
    destruct photlist as [| frame0 rest]; [simpl in Hn; lia |].
    assert (Hempty : nth_error (final_comparisons c) 0 = Some []).
    { rewrite Hcomp, Hkept. simpl. rewrite select_none. reflexivity. }
    destruct (final_candidate_catalogue_empty_frame separation (final_comparisons c)
                (final_sortStars c) thresholdCounts (final_variabilityMax c) Hempty)
      as (e & He).
    congruence.
  - exists c, least.
    apply final_candidate_catalogue_ceiling in Hfinal as [Hcount Hceiling].
    rewrite Hsort, Hcalc, Hmax, Hvar in *.
    repeat split; try assumption; congruence.
Qed.

Lemma find_comparisons_returns_only_without_rejection_witness :
  exists c least,
    stable_candidates Libm.log10 2 2.5 2.5 quiet_frames = Some (Ok c)
    /\ iterations c = 2
    /\ final_starRejecter c = repeat true (numstars quiet_frames)
    /\ final_comparisons c = quiet_frames
    /\ np.min (map ss_std (final_sortStars c)) = Ok least
    /\ final_variabilityMax c = (least * 2.5)%float
    /\ 1 = length [(10, 3, 0.0051949497139471834)]%float
    /\ Forall (fun a => (snd a <? least * 2.5)%float = true)
         [(10, 3, 0.0051949497139471834)]%float.
Proof.
  exact (find_comparisons_returns_only_without_rejection Libm.log10 Sky.separation 0
           [(10.5, 3.5)%float] (TargetTable []) quiet_frames 2.5 10000000 2.5 true 1
           [(10, 3, 0.0051949497139471834)]%float 1 eq_refl).
Defined.

(** ** [catalogue_call] *)

(** X4: the target exclusion of lines 320-323 never raises, and it keeps, in
    their order, exactly the rows whose declination differs by more than
    0.0014 degrees from the declination of every target; the right ascension
    of a row plays no part. *)
Theorem exclude_targets_filters_on_declination (targets : list Target)
    (resp : list CatRow) :
  exists kept,
    exclude_targets targets resp = Ok kept
    /\ kept = filter (fun r => forallb (fun tg => (0.0014 <? abs (cat_dec r - tg_dec tg))%float)
                                 targets) resp
    /\ (forall r, In r kept
                  <-> In r resp
                      /\ forall tg, In tg targets ->
                                    (0.0014 <? abs (cat_dec r - tg_dec tg))%float = true)
    /\ (forall f : float -> float,
          exclude_targets targets
            (map (fun r => mkCatRow (f (cat_ra r)) (cat_dec r) (cat_mag r) (cat_emag r)
                             (cat_quality r)) resp)
          = Ok (map (fun r => mkCatRow (f (cat_ra r)) (cat_dec r) (cat_mag r) (cat_emag r)
                                (cat_quality r)) kept)).
Proof.
  eexists. split; [apply exclude_targets_keeps |]. split; [reflexivity |]. split.
  - intros r. rewrite filter_In, forallb_forall. reflexivity.
  - intros f. rewrite exclude_targets_keeps. f_equal.
    induction resp as [| r resp IH]; simpl; [reflexivity |].
    destruct (forallb _ targets); simpl; rewrite IH; reflexivity.
Qed.

Lemma quality_filter_incl (cat_name : string) (resp : list CatRow) :
  incl (quality_filter cat_name resp) resp.
Proof.
  unfold quality_filter.
  destruct (String.eqb cat_name "PanSTARRS");
    [intros r Hr; apply filter_In in Hr; tauto |].
  destruct (String.eqb cat_name "SDSS");
    [intros r Hr; apply filter_In in Hr; tauto |].
  destruct (String.eqb cat_name "SkyMapper");
    [intros r Hr; apply filter_In in Hr; tauto | apply incl_refl].
Qed.

Lemma crowding_rejects_Ok_rows (separation : SkyCoord -> SkyCoord -> float)
    (closerejectd : float) (resp : list CatRow) (catReject : list nat) :
  crowding_rejects separation closerejectd resp = Ok catReject -> 2 <= length resp.
Proof.
  unfold crowding_rejects, match_to_catalog_sky_nth2. intros H.
  apply bind_Ok in H as (d2d & H & _).
  destruct resp as [| r0 [| r1 rest]]; simpl in *; try discriminate. lia.
Qed.

(** X5: a catalogue that [catalogue_call] returns carries the name asked
    for and four columns of one length, taken from at least two rows of the
    query that passed the quality filter of that catalogue and differ from
    every target by more than 0.0014 degrees in declination; on those rows
    the crowding test rejects nothing, so that (for separations that are
    numbers) no two of them are closer than [closerejectd]. *)
Theorem catalogue_call_returns_a_clean_catalogue
    (separation : SkyCoord -> SkyCoord -> float) (fuel : nat)
    (query : option (list CatRow)) (cat_name : string) (targets : Targets)
    (closerejectd : float) (data : CatData) :
  catalogue_call separation fuel query cat_name targets closerejectd = Some (Ok data) ->
  exists resp kept,
    query = Some resp
    /\ data = mkCatData cat_name (map cat_ra kept) (map cat_dec kept)
                (map cat_mag kept) (map cat_emag kept)
    /\ 2 <= length kept
    /\ incl kept (quality_filter cat_name resp)
    /\ (forall r tg, In r kept -> In tg (target_rows targets) ->
          (0.0014 <? abs (cat_dec r - tg_dec tg))%float = true)
    /\ crowding_rejects separation closerejectd kept = Ok []
    /\ (numbers separation (cat_coords resp) = true ->
        forall i j a b, i <> j ->
          nth_error (cat_coords kept) i = Some a ->
          nth_error (cat_coords kept) j = Some b ->
          (separation a b <? closerejectd)%float = false).
Proof.
  unfold catalogue_call. intros H.
  destruct query as [resp |]; [| discriminate].
  destruct (exclude_targets (target_rows targets) (quality_filter cat_name resp))
    as [resp' | e] eqn:Hex; [| discriminate].
  destruct (crowding_loop separation fuel closerejectd resp') as [[kept | e] |] eqn:Hloop;
    try discriminate.
  injection H as <-.
  apply crowding_loop_exit in Hloop as [Hincl Hrej].
  pose proof (exclude_targets_declination _ _ _ Hex) as Hdec.
  rewrite exclude_targets_keeps in Hex. injection Hex as <-.
  assert (Hincl' : incl kept (quality_filter cat_name resp)).
  { intros r Hr. apply Hincl in Hr. apply filter_In in Hr. tauto. }
  exists resp, kept. split; [reflexivity |]. split; [reflexivity |].
  split; [eapply crowding_rejects_Ok_rows; eauto |].
  split; [exact Hincl' |].
  split; [intros r tg Hr Htg; apply Hdec; auto |].
  split; [exact Hrej |].
  intros Hnum. apply no_rejects_no_close_pair; [| exact Hrej].
  eapply numbers_incl; [| exact Hnum].
  intros c Hc. unfold cat_coords in *. apply in_map_iff in Hc as (r & <- & Hr).
  apply (in_map (fun r => (cat_ra r, cat_dec r))).
  apply quality_filter_incl with (cat_name := cat_name). auto.
Qed.

Lemma catalogue_call_returns_a_clean_catalogue_witness :
  exists resp kept,
    Some crowded_catalogue = Some resp
    /\ mkCatData "APASS" [10; 10]%float [2; 3]%float [14; 15]%float [0.01; 0.01]%float
       = mkCatData "APASS" (map cat_ra kept) (map cat_dec kept)
           (map cat_mag kept) (map cat_emag kept)
    /\ 2 <= length kept
    /\ incl kept (quality_filter "APASS" resp)
    /\ (forall r tg, In r kept -> In tg (target_rows (SingleTarget (mkTarget 10 1.5 0 0))) ->
          (0.0014 <? abs (cat_dec r - tg_dec tg))%float = true)
    /\ crowding_rejects Sky.separation 5 kept = Ok []
    /\ (numbers Sky.separation (cat_coords resp) = true ->
        forall i j a b, i <> j ->
          nth_error (cat_coords kept) i = Some a ->
          nth_error (cat_coords kept) j = Some b ->
          (Sky.separation a b <? 5)%float = false).
Proof.
  exact (catalogue_call_returns_a_clean_catalogue Sky.separation 5 (Some crowded_catalogue)
           "APASS" (SingleTarget (mkTarget 10 1.5 0 0)) 5
           (mkCatData "APASS" [10; 10]%float [2; 3]%float [14; 15]%float [0.01; 0.01]%float)
           eq_refl).
Defined.

(** X6: the crowding loop always ends: with more fuel than rows it breaks or
    raises, since every pass that does not break deletes at least one row. *)
Theorem crowding_loop_ends (separation : SkyCoord -> SkyCoord -> float)
    (closerejectd : float) (resp : list CatRow) (fuel : nat) :
  length resp < fuel ->
  exists r, crowding_loop separation fuel closerejectd resp = Some r.
Proof.
  apply crowding_loop_terminates.
Qed.

Lemma crowding_loop_ends_witness :
  exists r, crowding_loop Sky.separation 5 5 crowded_catalogue = Some r.
Proof.
  apply (crowding_loop_ends Sky.separation 5 crowded_catalogue 5). simpl. lia.
Defined.

(** ** The rejection loop and the selection, run *)

Lemma partial_rejection_raises_witness :
  exists p,
    rejection_pass Libm.log10 2.5 2.5 (ensemble_counts six_stars) six_stars
      (repeat true (numstars six_stars)) = Ok p
    /\ pass_starRejecter p = [true; true; true; true; true; false]
    /\ stable_candidates Libm.log10 2 2.5 2.5 six_stars = Some (Raise IndexError).
Proof.
  eexists. split; [vm_compute; reflexivity |]. split; [reflexivity |].
  eapply (partial_rejection_raises Libm.log10 2.5 2.5 six_stars _ 0);
    [vm_compute; reflexivity | vm_compute; discriminate | vm_compute; discriminate].
Defined.


(** ** The search for a catalogue, lines 411-434 *)

Section Search.

Variable separation : SkyCoord -> SkyCoord -> float.
Variable vizier : string -> Columns -> option (list CatRow).
Variable fuel : nat.
Variable targets : Targets.
Variables nopanstarrs nosdss : bool.
Variable closerejectd : float.

Lemma catalogue_call_name (query : option (list CatRow)) (cat_name : string)
    (data : CatData) :
  catalogue_call separation fuel query cat_name targets closerejectd = Some (Ok data) ->
  data_cat_name data = cat_name.
Proof.
  unfold catalogue_call. destruct query as [resp |]; [| discriminate].
  destruct (exclude_targets _ _); [| discriminate].
  destruct (crowding_loop _ _ _ _) as [[kept | e] |]; try discriminate.
  intros H. injection H as <-. reflexivity.
Qed.

(** Once a catalogue has answered, the rest of the loop changes nothing. *)
Lemma search_catalogues_found (catalogues : dict Columns) (found : Found) :
  search_catalogues separation vizier fuel targets nopanstarrs nosdss closerejectd
    catalogues (Some found) = Some (Ok (Some found)).
Proof.
  induction catalogues as [| entry rest IH]; simpl; [reflexivity | exact IH].
Qed.

Lemma search_step_passed_over (entry : string * Columns) :
  passed_over separation vizier fuel targets nopanstarrs nosdss closerejectd entry ->
  search_step separation vizier fuel targets nopanstarrs nosdss closerejectd None entry
  = Some (Ok None).
Proof.
  unfold passed_over, search_step. intros [H | (msg & H)].
  - rewrite H. reflexivity.
  - rewrite H. destruct (skipped _ _ _); reflexivity.
Qed.

Lemma search_step_cases (entry : string * Columns) :
  (passed_over separation vizier fuel targets nopanstarrs nosdss closerejectd entry
   /\ search_step separation vizier fuel targets nopanstarrs nosdss closerejectd None entry
      = Some (Ok None))
  \/ (skipped nopanstarrs nosdss (fst entry) = false
      /\ ((exists data,
             catalogue_call separation fuel (vizier (fst entry) (snd entry)) (fst entry)
               targets closerejectd = Some (Ok data)
             /\ search_step separation vizier fuel targets nopanstarrs nosdss closerejectd
                  None entry
                = Some (Ok (Some (data, catalogue_max_sep (fst entry), fst entry))))
          \/ (exists e,
                catalogue_call separation fuel (vizier (fst entry) (snd entry)) (fst entry)
                  targets closerejectd = Some (Raise e)
                /\ (forall msg, e <> AstrosourceException msg)
                /\ search_step separation vizier fuel targets nopanstarrs nosdss
                     closerejectd None entry
                   = Some (Raise e))
          \/ (catalogue_call separation fuel (vizier (fst entry) (snd entry)) (fst entry)
                targets closerejectd = None
              /\ search_step separation vizier fuel targets nopanstarrs nosdss closerejectd
                   None entry
                 = None))).
Proof.
  unfold passed_over, search_step.
  destruct (skipped nopanstarrs nosdss (fst entry)) eqn:Hskip; [left; auto |].
  destruct (catalogue_call _ _ _ _ _ _) as [[data | e] |] eqn:Hcall.
  - right. split; [reflexivity |]. left. exists data. split; [reflexivity |].
    rewrite (catalogue_call_name _ _ _ Hcall). reflexivity.
  - destruct e; try (right; split; [reflexivity |]; right; left; eexists;
                     split; [reflexivity |]; split; [discriminate | reflexivity]).
    left. split; [right; eauto | reflexivity].
  - right. split; [reflexivity |]. right. right. auto.
Qed.

(** X9: the search settles on a catalogue exactly when that catalogue is the
    first in the order of [FILTERS] that no switch excludes and whose call
    does not end in an AstrosourceException, and its call returns; the limit
    is 2.5 arcseconds for APASS and PanSTARRS and 1.5 otherwise.  It ends
    with nothing found exactly when every catalogue was passed over. *)
Theorem search_catalogues_settles_on_first_answer (catalogues : dict Columns) :
  (forall data max_sep used,
     search_catalogues separation vizier fuel targets nopanstarrs nosdss closerejectd
       catalogues None = Some (Ok (Some (data, max_sep, used)))
     <-> exists pre opt post,
           catalogues = pre ++ (used, opt) :: post
           /\ Forall (passed_over separation vizier fuel targets nopanstarrs nosdss
                        closerejectd) pre
           /\ skipped nopanstarrs nosdss used = false
           /\ catalogue_call separation fuel (vizier used opt) used targets closerejectd
              = Some (Ok data)
           /\ data_cat_name data = used
           /\ max_sep = catalogue_max_sep used)
  /\ (search_catalogues separation vizier fuel targets nopanstarrs nosdss closerejectd
        catalogues None = Some (Ok None)
      <-> Forall (passed_over separation vizier fuel targets nopanstarrs nosdss closerejectd)
            catalogues).
Proof.
  induction catalogues as [| entry rest [IHfound IHnone]].
  - split.
    + intros data max_sep used. split; [discriminate |].
      intros (pre & opt & post & H & _). destruct pre; discriminate.
    + split; [constructor | reflexivity].
  - cbn [search_catalogues].
    destruct (search_step_cases entry)
      as [[Hover ->] | [Hskip [(d & Hcall & ->) | [(e & Hcall & He & ->) | [Hcall ->]]]]].
    + split.
      * intros data max_sep used. rewrite IHfound. split.
        -- intros (pre & opt & post & -> & Hpre & H).
           exists (entry :: pre), opt, post. split; [reflexivity |]. split; [| exact H].
           constructor; assumption.
        -- intros (pre & opt & post & Heq & Hpre & Hs & Hc & H).
           destruct pre as [| e0 pre]; simpl in Heq; injection Heq as -> ->.
           ++ exfalso. destruct Hover as [Hover | (msg & Hover)]; simpl in *; congruence.
           ++ inversion Hpre; subst. exists pre, opt, post. auto.
      * rewrite IHnone. split; [intros H; constructor; assumption |].
        intros H. inversion H; assumption.
    + rewrite search_catalogues_found. split.
      * intros data max_sep used. split.
        -- intros H. injection H as <- <- <-.
           exists [], (snd entry), rest. destruct entry as [name opt]; simpl in *.
           split; [reflexivity |]. split; [constructor |]. split; [assumption |].
           split; [assumption |]. split; [eapply catalogue_call_name; eauto | reflexivity].
        -- intros (pre & opt & post & Heq & Hpre & Hs & Hc & Hn & ->).
           destruct pre as [| e0 pre]; simpl in Heq; injection Heq as -> ->.
           ++ simpl in Hcall. rewrite Hc in Hcall. injection Hcall as <-. reflexivity.
           ++ exfalso. inversion Hpre as [| ? ? [H0 | (msg & H0)] _]; subst; congruence.
      * split; [discriminate |]. intros H. exfalso.
        inversion H as [| ? ? [H0 | (msg & H0)] _]; subst; congruence.
    + split.
      * intros data max_sep used. split; [discriminate |].
        intros (pre & opt & post & Heq & Hpre & Hs & Hc & _). exfalso.
        destruct pre as [| e0 pre]; simpl in Heq; injection Heq as -> ->.
        -- simpl in Hcall. congruence.
        -- inversion Hpre as [| ? ? [H0 | (msg & H0)] _]; subst; [congruence |].
           rewrite H0 in Hcall. injection Hcall as <-. eapply He; reflexivity.
      * split; [discriminate |]. intros H. exfalso.
        inversion H as [| ? ? [H0 | (msg & H0)] _]; subst; [congruence |].
        rewrite H0 in Hcall. injection Hcall as <-. eapply He; reflexivity.
    + split.
      * intros data max_sep used. split; [discriminate |].
        intros (pre & opt & post & Heq & Hpre & Hs & Hc & _). exfalso.
        destruct pre as [| e0 pre]; simpl in Heq; injection Heq as -> ->.
        -- simpl in Hcall. congruence.
        -- inversion Hpre as [| ? ? [H0 | (msg & H0)] _]; subst; congruence.
      * split; [discriminate |]. intros H. exfalso.
        inversion H as [| ? ? [H0 | (msg & H0)] _]; subst; congruence.
Qed.

(** X10: an exception of a catalogue's call that is no AstrosourceException
    ends the search: when the first catalogue that is not passed over raises
    it, the search raises it too and the catalogues after it are not asked. *)
Theorem search_catalogues_does_not_fall_back (pre post : dict Columns) (cat_name : string)
    (opt : Columns) (e : exn) :
  Forall (passed_over separation vizier fuel targets nopanstarrs nosdss closerejectd) pre ->
  skipped nopanstarrs nosdss cat_name = false ->
  catalogue_call separation fuel (vizier cat_name opt) cat_name targets closerejectd
    = Some (Raise e) ->
  (forall msg, e <> AstrosourceException msg) ->
  search_catalogues separation vizier fuel targets nopanstarrs nosdss closerejectd
    (pre ++ (cat_name, opt) :: post) None = Some (Raise e).
Proof.
  intros Hpre Hskip Hcall He.
  induction Hpre as [| entry pre Hentry _ IH]; cbn [app search_catalogues].
  - unfold search_step. cbn [fst snd]. rewrite Hskip, Hcall.
    destruct e; try reflexivity. exfalso. eapply He; reflexivity.
  - rewrite (search_step_passed_over _ Hentry). exact IH.
Qed.

End Search.

Lemma search_catalogues_does_not_fall_back_witness :
  filter_catalogues "gp"
    = Ok ([] ++ ("SDSS", mkColumns "gmag" "e_mag")
             :: [("SkyMapper", mkColumns "gPSF" "e_gPSF");
                 ("PanSTARRS", mkColumns "gmag" "e_gmag")])
  /\ search_catalogues Sky.separation poor_sdss 5 (TargetTable []) false false 5
       ([] ++ ("SDSS", mkColumns "gmag" "e_mag")
           :: [("SkyMapper", mkColumns "gPSF" "e_gPSF");
               ("PanSTARRS", mkColumns "gmag" "e_gmag")]) None
     = Some (Raise ValueError).
Proof.
  split; [reflexivity |].
  apply (search_catalogues_does_not_fall_back Sky.separation poor_sdss 5 (TargetTable [])
           false false 5 [] _ "SDSS" (mkColumns "gmag" "e_mag") ValueError);
    [constructor | reflexivity | reflexivity | discriminate].
Defined.

(** X11: when every catalogue of the band is passed over, the function
    raises the AstrosourceException of line 434, which names the band. *)
Theorem find_comparisons_calibrated_without_catalogue (log10 : float -> float)
    (separation : SkyCoord -> SkyCoord -> float)
    (vizier : string -> Columns -> option (list CatRow)) (fuel : nat)
    (compUsedFile : option CompUsed) (targets : Targets) (filterCode : string)
    (photFiles : list (list PhotRow)) (compFile : list SortStar) (nopanstarrs nosdss : bool)
    (closerejectd variabilityMultiplier : float) (catalogues : dict Columns) :
  filter_catalogues filterCode = Ok catalogues ->
  Forall (passed_over separation vizier fuel targets nopanstarrs nosdss closerejectd)
    catalogues ->
  find_comparisons_calibrated log10 separation vizier fuel compUsedFile targets filterCode
    photFiles compFile nopanstarrs nosdss closerejectd variabilityMultiplier
  = Some (Raise (AstrosourceException
                   ("Could not find coordinate match in any catalogues for " ++ filterCode)%string)).
Proof.
  intros Hband Hover. unfold find_comparisons_calibrated. rewrite Hband.
  apply (search_catalogues_settles_on_first_answer separation vizier fuel targets nopanstarrs
           nosdss closerejectd catalogues) in Hover.
  rewrite Hover. reflexivity.
Qed.

Lemma find_comparisons_calibrated_without_catalogue_witness :
  find_comparisons_calibrated Libm.log10 Sky.separation skymapper_only 5 (Some four_comps)
    (TargetTable []) "V" quiet_frames three_scores false false 5 2.5
  = Some (Raise (AstrosourceException
                   "Could not find coordinate match in any catalogues for V")).
Proof.
  apply (find_comparisons_calibrated_without_catalogue Libm.log10 Sky.separation
           skymapper_only 5 (Some four_comps) (TargetTable []) "V" quiet_frames three_scores
           false false 5 2.5 [("APASS", mkColumns "Vmag" "e_Vmag")] eq_refl).
  constructor; [| constructor]. right. eexists. reflexivity.
Defined.

(** ** The calibration standards, lines 441-471 *)

Lemma enumerate_from_unique {A : Type} (k i : nat) (xs : list A) (x y : A) :
  In (i, x) (enumerate_from k xs) -> In (i, y) (enumerate_from k xs) -> x = y.
Proof.
  revert k. induction xs as [| z xs IH]; intros k; simpl; [tauto |].
  intros [Hx | Hx] [Hy | Hy].
  - congruence.
  - apply enumerate_from_index in Hy. simpl in Hy. injection Hx as <- _. lia.
  - apply enumerate_from_index in Hx. simpl in Hx. injection Hy as <- _. lia.
  - eapply IH; eauto.
Qed.

Lemma filter_enumerate_snd {A : Type} (q : A -> bool) (k : nat) (xs : list A) :
  map snd (filter (fun e => q (snd e)) (enumerate_from k xs)) = filter q xs.
Proof.
  revert k. induction xs as [| x xs IH]; intros k; simpl; [reflexivity |].
  destruct (q x); simpl; rewrite IH; reflexivity.
Qed.

(** Deleting the rows at the indices where a test holds keeps, in order, the
    rows where it fails. *)
Lemma delete_at_filter {A : Type} (p : A -> bool) (rows : list A) :
  delete_at rows (map fst (filter (fun e => p (snd e)) (enumerate rows)))
  = filter (fun x => negb (p x)) rows.
Proof.
  unfold delete_at, enumerate.
  rewrite <- (filter_enumerate_snd (fun x => negb (p x)) 0 rows). f_equal.
  apply filter_ext_in. intros [i x] He. cbn [fst snd]. f_equal.
  apply Bool.eq_iff_eq_true. rewrite existsb_exists. split.
  - intros (j & Hj & Hij). apply Nat.eqb_eq in Hij. subst j.
    apply in_map_iff in Hj as ([i' y] & Hi & Hy). simpl in Hi. subst i'.
    apply filter_In in Hy as [Hy Hp]. simpl in Hp.
    rewrite (enumerate_from_unique _ _ _ _ _ He Hy). exact Hp.
  - intros Hp. exists i. split; [| apply Nat.eqb_refl].
    apply (in_map fst _ (i, x)). apply filter_In. auto.
Qed.

Section Standards.

Variable separation : SkyCoord -> SkyCoord -> float.
Variable coords : CatData.
Variable max_sep : float.

Lemma match_standard_cases (star : SortStar) (rows : list CalibStand) :
  match_standard separation coords max_sep star = Ok rows ->
  (rows = [] /\ unmatched separation coords max_sep star)
  \/ (exists s, rows = [s] /\ standard_of separation coords max_sep star s).
Proof.
  unfold match_standard, unmatched, standard_of. intros H.
  apply bind_Ok in H as ([idx d2d] & Hmatch & H). rewrite Hmatch.
  destruct (d2d <? max_sep)%float eqn:Hsep.
  - apply bind_Ok in H as (mag & Hmag & H). apply getitem_Ok in Hmag.
    destruct (np.isnan mag) eqn:Hnan; cbn [negb] in H.
    + injection H as <-. left. split; [reflexivity |]. exists idx, d2d.
      split; [reflexivity |]. right. eauto.
    + apply bind_Ok in H as (emag & Hemag & H). apply getitem_Ok in Hemag.
      injection H as <-. right. eexists. split; [reflexivity |].
      exists idx, d2d. simpl. auto 7.
  - injection H as <-. left. split; [reflexivity |]. exists idx, d2d. auto.
Qed.

Lemma match_standard_unmatched (star : SortStar) :
  unmatched separation coords max_sep star ->
  match_standard separation coords max_sep star = Ok [].
Proof.
  unfold unmatched, match_standard. intros (idx & d2d & -> & H). cbn [bind].
  destruct (d2d <? max_sep)%float; [| reflexivity].
  destruct H as [H | (mag & Hmag & Hnan)]; [discriminate |].
  apply getitem_Ok in Hmag. rewrite Hmag. cbn [bind]. unfold np.isnan. rewrite Hnan.
  reflexivity.
Qed.

Lemma match_standard_standard (star : SortStar) (s : CalibStand) :
  standard_of separation coords max_sep star s ->
  match_standard separation coords max_sep star = Ok [s].
Proof.
  unfold standard_of, match_standard.
  intros (idx & d2d & -> & Hsep & Hmag & Hnan & Hemag & Hs). cbn [bind]. rewrite Hsep.
  apply getitem_Ok in Hmag, Hemag. rewrite Hmag. cbn [bind]. unfold np.isnan.
  rewrite Hnan. cbn [negb]. rewrite Hemag. cbn [bind]. f_equal. f_equal. symmetry. exact Hs.
Qed.

Lemma match_standard_raises (star : SortStar) (e : exn) :
  match_standard separation coords max_sep star = Raise e ->
  e = ValueError \/ e = IndexError.
Proof.
  unfold match_standard. intros H.
  apply bind_Raise in H as [H | ([idx d2d] & _ & H)].
  - unfold match_to_catalog_sky in H. destruct (enumerate _) as [| [i c] rest]; [| discriminate].
    left. congruence.
  - destruct (d2d <? max_sep)%float; [| discriminate].
    apply bind_Raise in H as [H | (mag & _ & H)];
      [right; eapply getitem_Raise; eauto |].
    destruct (negb (np.isnan mag)); [| discriminate].
    apply bind_Raise in H as [H | (emag & _ & H)]; [| discriminate].
    right. eapply getitem_Raise; eauto.
Qed.

Lemma matched_rows (compFile : list SortStar) (matched : list (list CalibStand)) :
  Forall2 (fun star rows => match_standard separation coords max_sep star = Ok rows)
    compFile matched ->
  forall s, In s (concat matched)
            <-> exists star, In star compFile
                             /\ standard_of separation coords max_sep star s.
Proof.
  induction 1 as [| star rows compFile matched Hstar _ IH]; intros s; simpl.
  - split; [tauto | intros (star & [] & _)].
  - rewrite in_app_iff, IH. split.
    + intros [Hs | (star' & Hin & Hs)]; [| eauto].
      apply match_standard_cases in Hstar as [[-> _] | (s' & -> & Hs')]; [destruct Hs |].
      destruct Hs as [<- | []]. eauto.
    + intros (star' & [<- | Hin] & Hs); [| eauto].
      apply match_standard_standard in Hs. rewrite Hs in Hstar. injection Hstar as <-.
      left. left. reflexivity.
Qed.

(** X12: the calibration standards that are returned are the candidates of
    [compFile] whose nearest catalogue entry lies within [max_sep] and has a
    magnitude that is a number, less those whose score is above
    [variabilityMultiplier] times the least score among them; there was at
    least one such candidate. *)
Theorem calibration_standards_returns (compFile : list SortStar)
    (variabilityMultiplier : float) (calibStands : list CalibStand) :
  calibration_standards separation coords max_sep compFile variabilityMultiplier
    = Ok calibStands ->
  exists matched least,
    matched <> []
    /\ (forall s, In s matched
                  <-> exists star, In star compFile
                                   /\ standard_of separation coords max_sep star s)
    /\ np.min (map cs_std matched) = Ok least
    /\ calibStands
       = filter (fun s => negb (least * variabilityMultiplier <? cs_std s)%float) matched.
Proof.
  unfold calibration_standards. intros H.
  apply bind_Ok in H as (matched & Hmatched & H). apply mapM_Ok in Hmatched.
  destruct (Nat.eqb_spec (length (concat matched)) 0) as [_ | Hne]; [discriminate |].
  apply bind_Ok in H as (least & Hleast & H). injection H as <-.
  exists (concat matched), least.
  split; [intros E; rewrite E in Hne; apply Hne; reflexivity |].
  split; [apply matched_rows; assumption |].
  split; [assumption |].
  apply (delete_at_filter (fun s => (least * variabilityMultiplier <? cs_std s)%float)).
Qed.

(** X13: the function ends in an AstrosourceException here exactly when no
    candidate of [compFile] has a usable catalogue entry within [max_sep],
    and the message is then that the stars are too dim to calibrate to. *)
Theorem calibration_standards_too_dim (compFile : list SortStar)
    (variabilityMultiplier : float) (msg : string) :
  calibration_standards separation coords max_sep compFile variabilityMultiplier
    = Raise (AstrosourceException msg)
  <-> msg = "Stars are too dim to calibrate to."
      /\ Forall (unmatched separation coords max_sep) compFile.
Proof.
  unfold calibration_standards. split.
  - intros H. apply bind_Raise in H as [H | (matched & Hmatched & H)].
    + apply mapM_Raise in H as (star & _ & H).
      apply match_standard_raises in H as [H | H]; discriminate.
    + destruct (Nat.eqb_spec (length (concat matched)) 0) as [Hzero | _].
      * injection H as <-. split; [reflexivity |].
        apply mapM_Ok in Hmatched. apply length_zero_iff_nil in Hzero.
        induction Hmatched as [| star rows compFile matched Hstar _ IH]; [constructor |].
        simpl in Hzero. apply app_eq_nil in Hzero as [-> Hzero].
        constructor; [| apply IH; assumption].
        apply match_standard_cases in Hstar as [[_ Hstar] | (s & Hs & _)];
          [assumption | discriminate].
      * apply bind_Raise in H as [H | (least & _ & H)]; [| discriminate].
        unfold np.min in H. destruct (map cs_std (concat matched)); discriminate.
  - intros [-> Hall].
    assert (Hmatched : mapM (match_standard separation coords max_sep) compFile
                       = Ok (map (fun _ => []) compFile)).
    { induction Hall as [| star compFile Hstar _ IH]; simpl; [reflexivity |].
      rewrite (match_standard_unmatched _ Hstar), IH. reflexivity. }
    rewrite Hmatched. cbn [bind].
    assert (Hnone : concat (map (fun _ : SortStar => @nil CalibStand) compFile) = []).
    { clear. induction compFile; simpl; auto. }
    rewrite Hnone. reflexivity.
Qed.

End Standards.

Lemma calibration_standards_returns_witness :
  exists matched least,
    matched <> []
    /\ (forall s, In s matched
                  <-> exists star, In star three_scores
                                   /\ standard_of Sky.separation apass_field 2.5 star s)
    /\ np.min (map cs_std matched) = Ok least
    /\ [mkCalibStand 10 2 0.01 14 0.01]%float
       = filter (fun s => negb (least * 1.5 <? cs_std s)%float) matched.
Proof.
  exact (calibration_standards_returns Sky.separation apass_field 2.5 three_scores 1.5
           [mkCalibStand 10 2 0.01 14 0.01]%float eq_refl).
Defined.

(** ** Calibrating a frame, lines 483-511 *)

(** X14: a frame with at least one row is always calibrated.  The positions
    are kept, every magnitude is [-2.5 log10] of the counts plus one zero
    point, every error is [1.0857] times the old error over the old counts,
    and the zero point is the median, over the standards, of the catalogue
    magnitude less the instrumental magnitude of a row of the frame. *)
Theorem calibrate_frame_returns (log10 : float -> float)
    (separation : SkyCoord -> SkyCoord -> float) (calibStands : list CalibStand)
    (photFile : list PhotRow) :
  photFile <> [] ->
  exists tempDiff,
    Forall2 (fun s d => exists r, In r photFile
                                  /\ d = (cs_mag s - -2.5 * log10 (counts r))%float)
      calibStands tempDiff
    /\ calibrate_frame log10 separation calibStands photFile
       = Ok (map (fun r => mkRow (ra r) (dec r) (xcen r) (ycen r)
                             (-2.5 * log10 (counts r) + np.median tempDiff)%float
                             (1.0857 * (counts_err r / counts r))%float) photFile).
Proof.
  intros Hne. unfold calibrate_frame.
  assert (Hnear : forall s, exists r,
             In r photFile
             /\ nearest_magnitude separation (coords_of photFile)
                  (map (instrumental log10) photFile) (cs_ra s, cs_dec s)
                = Ok (-2.5 * log10 (counts r))%float).
  { intros s. unfold nearest_magnitude.
    destruct (match_to_catalog_sky_total separation (cs_ra s, cs_dec s) (coords_of photFile))
      as (idx & d2d & Hmatch).
    { unfold coords_of. destruct photFile; [congruence | discriminate]. }
    rewrite Hmatch. cbn [bind].
    apply match_to_catalog_sky_index in Hmatch. unfold coords_of in Hmatch.
    rewrite length_map in Hmatch.
    destruct (nth_error photFile idx) as [r |] eqn:Hr;
      [| apply nth_error_None in Hr; lia].
    exists r. split; [eapply nth_error_In; eauto |].
    unfold getitem. rewrite nth_error_map, Hr. reflexivity. }
  destruct (mapM_returns
              (fun s => m <- nearest_magnitude separation (coords_of photFile)
                              (map (instrumental log10) photFile) (cs_ra s, cs_dec s) ;;
                        Ok (cs_mag s - m)%float) calibStands) as (tempDiff & Hdiff).
  { apply Forall_forall. intros s _. destruct (Hnear s) as (r & _ & ->). cbn [bind]. eauto. }
  exists tempDiff. split.
  - apply mapM_Ok in Hdiff. eapply Forall2_impl; [| exact Hdiff].
    intros s d H. cbv beta in H. destruct (Hnear s) as (r & Hr & Hm).
    rewrite Hm in H. cbn [bind] in H. injection H as <-. eauto.
  - rewrite Hdiff. cbn [bind]. rewrite map_map. reflexivity.
Qed.

Lemma calibrate_frame_returns_witness :
  exists tempDiff,
    Forall2 (fun s d => exists r, In r (hd [] quiet_frames)
                                  /\ d = (cs_mag s - -2.5 * Libm.log10 (counts r))%float)
      [mkCalibStand 10 2 0.01 14 0.01; mkCalibStand 10 3 0.02 15 0.01]%float tempDiff
    /\ calibrate_frame Libm.log10 Sky.separation
         [mkCalibStand 10 2 0.01 14 0.01; mkCalibStand 10 3 0.02 15 0.01]%float
         (hd [] quiet_frames)
       = Ok (map (fun r => mkRow (ra r) (dec r) (xcen r) (ycen r)
                             (-2.5 * Libm.log10 (counts r) + np.median tempDiff)%float
                             (1.0857 * (counts_err r / counts r))%float)
               (hd [] quiet_frames)).
Proof.
  apply (calibrate_frame_returns Libm.log10 Sky.separation
           [mkCalibStand 10 2 0.01 14 0.01; mkCalibStand 10 3 0.02 15 0.01]%float
           (hd [] quiet_frames)).
  discriminate.
Defined.

(** ** [find_comparisons_calibrated] as a whole *)

Lemma Forall2_seq_nth {A B : Type} (P : A -> B -> Prop) (pre l : list A) (ys : list B) :
  Forall2 (fun r y => exists c, nth_error (pre ++ l) r = Some c /\ P c y)
    (seq (length pre) (length l)) ys ->
  Forall2 P l ys.
Proof.
  revert pre ys. induction l as [| x l IH]; intros pre ys H; simpl in H.
  - inversion H. constructor.
  - inversion H as [| r y rs ys' (c & Hc & Hp) Hrest]; subst.
    rewrite nth_error_app2, Nat.sub_diag in Hc by lia. simpl in Hc. injection Hc as <-.
    constructor; [assumption |].
    apply (IH (pre ++ [x])). rewrite <- app_assoc, length_app. simpl.
    rewrite Nat.add_1_r. exact Hrest.
Qed.

Lemma quality_filter_length (cat_name : string) (resp : list CatRow) :
  length (quality_filter cat_name resp) <= length resp.
Proof.
  unfold quality_filter.
  destruct (String.eqb cat_name "PanSTARRS"); [apply filter_length_le |].
  destruct (String.eqb cat_name "SDSS"); [apply filter_length_le |].
  destruct (String.eqb cat_name "SkyMapper"); [apply filter_length_le | lia].
Qed.

(** With more fuel than the table has rows, [catalogue_call] ends. *)
Lemma catalogue_call_terminates (separation : SkyCoord -> SkyCoord -> float) (fuel : nat)
    (query : option (list CatRow)) (cat_name : string) (targets : Targets)
    (closerejectd : float) :
  (forall resp, query = Some resp -> length resp < fuel) ->
  exists r, catalogue_call separation fuel query cat_name targets closerejectd = Some r.
Proof.
  intros Hfuel. unfold catalogue_call. destruct query as [resp |]; [| eauto].
  rewrite exclude_targets_keeps.
  destruct (crowding_loop_terminates separation closerejectd
              (filter (fun r => forallb (fun tg => (0.0014 <? abs (cat_dec r - tg_dec tg))%float)
                                  (target_rows targets))
                 (quality_filter cat_name resp)) fuel) as ([kept | e] & ->); [| eauto | eauto].
  specialize (Hfuel resp eq_refl).
  pose proof (filter_length_le
                (fun r => forallb (fun tg => (0.0014 <? abs (cat_dec r - tg_dec tg))%float)
                            (target_rows targets)) (quality_filter cat_name resp)).
  pose proof (quality_filter_length cat_name resp). lia.
Qed.

(** With more fuel than any table of the service has rows, the search
    ends. *)
Lemma search_catalogues_terminates (separation : SkyCoord -> SkyCoord -> float)
    (vizier : string -> Columns -> option (list CatRow)) (fuel : nat) (targets : Targets)
    (nopanstarrs nosdss : bool) (closerejectd : float) (catalogues : dict Columns)
    (coords : option Found) :
  (forall cat_name opt resp, vizier cat_name opt = Some resp -> length resp < fuel) ->
  exists r,
    search_catalogues separation vizier fuel targets nopanstarrs nosdss closerejectd
      catalogues coords = Some r.
Proof.
  intros Hfuel. destruct coords as [found |]; [rewrite search_catalogues_found; eauto |].
  induction catalogues as [| entry rest IH]; cbn [search_catalogues]; [eauto |].
  destruct (search_step_cases separation vizier fuel targets nopanstarrs nosdss closerejectd
              entry)
    as [[_ ->] | [_ [(d & _ & ->) | [(e & _ & _ & ->) | [Hcall _]]]]].
  - exact IH.
  - rewrite search_catalogues_found. eauto.
  - eauto.
  - exfalso.
    destruct (catalogue_call_terminates separation fuel (vizier (fst entry) (snd entry))
                (fst entry) targets closerejectd (Hfuel (fst entry) (snd entry)))
      as (r & Hr).
    congruence.
Qed.

(** Whatever the fuel, the function as written does not return: the first
    frame ends in an exception, and without a frame the summary does. *)
Lemma find_comparisons_calibrated_unbound_name (log10 : float -> float)
    (separation : SkyCoord -> SkyCoord -> float)
    (vizier : string -> Columns -> option (list CatRow)) (fuel : nat)
    (targets : Targets) (filterCode : string)
    (photFiles : list (list PhotRow)) (compFile : list SortStar) (nopanstarrs nosdss : bool)
    (closerejectd variabilityMultiplier : float) (out : list (list float)) :
  find_comparisons_calibrated log10 separation vizier fuel None targets filterCode
    photFiles compFile nopanstarrs nosdss closerejectd variabilityMultiplier
  <> Some (Ok out).
Proof.
  unfold find_comparisons_calibrated.
  destruct (filter_catalogues filterCode) as [catalogues | e]; [| discriminate].
  destruct (search_catalogues _ _ _ _ _ _ _ _ _) as [[[[[data max_sep] used] |] | e] |];
    try discriminate.
  intros H. injection H as H.
  apply bind_Ok in H as (calibStands & _ & H).
  apply bind_Ok in H as (calibCompUsed & Hused & H).
  apply bind_Ok in H as (summary & Hsummary & _).
  destruct photFiles as [| photFile rest].
  - injection Hused as <-. discriminate.
  - simpl in Hused. apply bind_Ok in Hused as (line & Hline & _).
    unfold calibrate_file in Hline. apply bind_Ok in Hline as (calibrated & _ & Hline).
    discriminate.
Qed.

(** X15: no statement of the module binds [compUsedFile], so the function as
    written never returns: whatever the inputs and the catalogues' answers,
    it ends in an exception.  (The crowding loops end when given more fuel
    than any table of the service has rows.) *)
Theorem find_comparisons_calibrated_never_returns (log10 : float -> float)
    (separation : SkyCoord -> SkyCoord -> float)
    (vizier : string -> Columns -> option (list CatRow)) (fuel : nat)
    (targets : Targets) (filterCode : string)
    (photFiles : list (list PhotRow)) (compFile : list SortStar) (nopanstarrs nosdss : bool)
    (closerejectd variabilityMultiplier : float) :
  (forall cat_name opt resp, vizier cat_name opt = Some resp -> length resp < fuel) ->
  exists e,
    find_comparisons_calibrated log10 separation vizier fuel None targets filterCode
      photFiles compFile nopanstarrs nosdss closerejectd variabilityMultiplier
    = Some (Raise e).
Proof.
  intros Hfuel.
  destruct (find_comparisons_calibrated log10 separation vizier fuel None targets filterCode
              photFiles compFile nopanstarrs nosdss closerejectd variabilityMultiplier)
    as [[out | e] |] eqn:Hrun.
  - exfalso. eapply find_comparisons_calibrated_unbound_name; eauto.
  - eauto.
  - exfalso. unfold find_comparisons_calibrated in Hrun.
    destruct (filter_catalogues filterCode) as [catalogues | e]; [| discriminate].
    destruct (search_catalogues_terminates separation vizier fuel targets nopanstarrs nosdss
                closerejectd catalogues None Hfuel) as (r & Hr).
    rewrite Hr in Hrun. destruct r as [[[[data max_sep] used] |] | e]; discriminate.
Qed.

Lemma find_comparisons_calibrated_never_returns_witness :
  exists e,
    find_comparisons_calibrated Libm.log10 Sky.separation skymapper_only 5 None
      (SingleTarget (mkTarget 10 1.5 0 0)) "gp" quiet_frames three_scores false false 5 2.5
    = Some (Raise e).
Proof.
  apply (find_comparisons_calibrated_never_returns Libm.log10 Sky.separation skymapper_only
           5 (SingleTarget (mkTarget 10 1.5 0 0)) "gp" quiet_frames three_scores false false
           5 2.5).
  intros cat_name opt resp. unfold skymapper_only.
  destruct (String.eqb cat_name "SkyMapper"); [| discriminate].
  intros H. injection H as <-. simpl. lia.
Defined.

(** X16: when the catalogue search and the standards succeed and the first
    frame has a row, the function as written raises NameError for
    [compUsedFile] on that frame. *)
Theorem find_comparisons_calibrated_NameError (log10 : float -> float)
    (separation : SkyCoord -> SkyCoord -> float)
    (vizier : string -> Columns -> option (list CatRow)) (fuel : nat)
    (targets : Targets) (filterCode : string) (photFile : list PhotRow)
    (photFiles : list (list PhotRow)) (compFile : list SortStar) (nopanstarrs nosdss : bool)
    (closerejectd variabilityMultiplier : float) (catalogues : dict Columns)
    (found : Found) (calibStands : list CalibStand) :
  filter_catalogues filterCode = Ok catalogues ->
  search_catalogues separation vizier fuel targets nopanstarrs nosdss closerejectd
    catalogues None = Some (Ok (Some found)) ->
  calibration_standards separation (fst (fst found)) (snd (fst found)) compFile
    variabilityMultiplier = Ok calibStands ->
  photFile <> [] ->
  find_comparisons_calibrated log10 separation vizier fuel None targets filterCode
    (photFile :: photFiles) compFile nopanstarrs nosdss closerejectd variabilityMultiplier
  = Some (Raise (NameError "compUsedFile")).
Proof.
  intros Hband Hsearch Hstands Hne. unfold find_comparisons_calibrated.
  rewrite Hband, Hsearch. destruct found as [[data max_sep] used]. simpl in Hstands.
  rewrite Hstands. cbn [bind mapM]. unfold calibrate_file.
  destruct (calibrate_frame_returns log10 separation calibStands photFile Hne)
    as (tempDiff & _ & ->).
  reflexivity.
Qed.

Lemma find_comparisons_calibrated_NameError_witness :
  find_comparisons_calibrated Libm.log10 Sky.separation skymapper_only 5 None
    (SingleTarget (mkTarget 10 1.5 0 0)) "gp" (hd [] quiet_frames :: tl quiet_frames)
    three_scores false false 5 2.5
  = Some (Raise (NameError "compUsedFile")).
Proof.
  eapply (find_comparisons_calibrated_NameError Libm.log10 Sky.separation skymapper_only 5
            (SingleTarget (mkTarget 10 1.5 0 0)) "gp" (hd [] quiet_frames) (tl quiet_frames)
            three_scores false false 5 2.5);
    [reflexivity | vm_compute; reflexivity | vm_compute; reflexivity | discriminate].
Defined.

Lemma Forall2_compose {A B C : Type} (R1 : A -> B -> Prop) (R2 : B -> C -> Prop)
    (xs : list A) (ys : list B) (zs : list C) :
  Forall2 R1 xs ys -> Forall2 R2 ys zs ->
  Forall2 (fun x z => exists y, R1 x y /\ R2 y z) xs zs.
Proof.
  intros H. revert zs. induction H as [| x y xs ys Hxy _ IH]; intros zs Hz.
  - inversion Hz. constructor.
  - inversion Hz as [| ? z ? zs' Hyz Hrest]; subst. constructor; eauto.
Qed.

Lemma Forall2_In_l {A B : Type} (R : A -> B -> Prop) (xs : list A) (ys : list B) :
  Forall2 R xs ys -> Forall2 (fun x y => In x xs /\ R x y) xs ys.
Proof.
  induction 1 as [| x y xs ys Hxy _ IH]; constructor.
  - split; [left; reflexivity | assumption].
  - eapply Forall2_impl; [| exact IH]. intros a b [Ha Hab]. split; [right |]; assumption.
Qed.

Lemma Forall2_nth {A B : Type} (R : A -> B -> Prop) (xs : list A) (ys : list B) (n : nat)
    (x : A) (y : B) :
  Forall2 R xs ys -> nth_error xs n = Some x -> nth_error ys n = Some y -> R x y.
Proof.
  intros H. revert n. induction H as [| x' y' xs ys Hxy _ IH]; intros [| n]; simpl;
    try discriminate.
  - intros Hx Hy. injection Hx as <-. injection Hy as <-. assumption.
  - apply IH.
Qed.

(** What line 529 appends for a frame: per comparison, column 4 of the row of
    the calibrated frame nearest to it. *)
Lemma calibrate_file_line (log10 : float -> float)
    (separation : SkyCoord -> SkyCoord -> float) (used : CompUsed)
    (calibStands : list CalibStand) (photFile : list PhotRow) (line : list float) :
  calibrate_file log10 separation (Some used) calibStands photFile = Ok line ->
  exists calibrated,
    calibrate_frame log10 separation calibStands photFile = Ok calibrated
    /\ Forall2 (fun c m => nearest_magnitude separation (coords_of photFile) calibrated
                             (fst (fst c), snd (fst c)) = Ok m)
         (comparisons_of used) line.
Proof.
  unfold calibrate_file. intros H. apply bind_Ok in H as (calibrated & Hframe & H).
  exists calibrated. split; [assumption |]. cbn [comparisons_used] in H.
  destruct used as [[[a d] v] | rows]; simpl.
  - apply bind_Ok in H as (m & Hm & H). injection H as <-. constructor; [assumption | constructor].
  - apply mapM_Ok in H. exact H.
Qed.

(** Column [r] of [calibCompUsed] holds the calibrated magnitudes of
    comparison [r]. *)
Lemma column_calibrated_magnitudes (log10 : float -> float)
    (separation : SkyCoord -> SkyCoord -> float) (used : CompUsed)
    (calibStands : list CalibStand) (photFiles : list (list PhotRow))
    (calibCompUsed : list (list float)) (r : nat) (c : float * float * float)
    (col : list float) :
  Forall2 (fun photFile line =>
             calibrate_file log10 separation (Some used) calibStands photFile = Ok line)
    photFiles calibCompUsed ->
  nth_error (comparisons_of used) r = Some c ->
  column calibCompUsed r = Ok col ->
  calibrated_magnitudes log10 separation calibStands photFiles c col.
Proof.
  intros Hlines Hc Hcol. unfold column in Hcol. apply mapM_Ok in Hcol.
  unfold calibrated_magnitudes.
  eapply Forall2_impl; [| exact (Forall2_compose _ _ _ _ _ Hlines Hcol)].
  intros photFile m (line & Hline & Hm). cbv beta in Hm. apply getitem_Ok in Hm.
  apply calibrate_file_line in Hline as (calibrated & Hframe & Hline).
  exists calibrated. split; [assumption |].
  exact (Forall2_nth _ _ _ _ _ _ Hline Hc Hm).
Qed.

(** X17: with [compUsedFile] bound from outside, a table that is returned
    lists the comparisons of [compUsedFile] in their order.  The row of a
    comparison holds its position and score unchanged, then the median over
    the frames of its calibrated magnitude (column 4 of the row of the
    calibrated frame nearest to it), then the standard deviation of these
    magnitudes or, when [compUsedFile] is a single star, the catalogue error
    of the first calibration standard.  There was at least one frame. *)
Theorem find_comparisons_calibrated_lists_the_comparisons (log10 : float -> float)
    (separation : SkyCoord -> SkyCoord -> float)
    (vizier : string -> Columns -> option (list CatRow)) (fuel : nat)
    (used : CompUsed) (targets : Targets) (filterCode : string)
    (photFiles : list (list PhotRow)) (compFile : list SortStar) (nopanstarrs nosdss : bool)
    (closerejectd variabilityMultiplier : float) (out : list (list float)) :
  find_comparisons_calibrated log10 separation vizier fuel (Some used) targets filterCode
    photFiles compFile nopanstarrs nosdss closerejectd variabilityMultiplier
  = Some (Ok out) ->
  exists catalogues found calibStands,
    filter_catalogues filterCode = Ok catalogues
    /\ search_catalogues separation vizier fuel targets nopanstarrs nosdss closerejectd
         catalogues None = Some (Ok (Some found))
    /\ calibration_standards separation (fst (fst found)) (snd (fst found)) compFile
         variabilityMultiplier = Ok calibStands
    /\ photFiles <> []
    /\ Forall2 (fun c row =>
                  exists col,
                    calibrated_magnitudes log10 separation calibStands photFiles c col
                    /\ match used with
                       | OneComp _ =>
                           exists s0, nth_error calibStands 0 = Some s0
                                      /\ row = [fst (fst c); snd (fst c); snd c;
                                                np.median col; cs_emag s0]
                       | CompTable _ =>
                           row = [fst (fst c); snd (fst c); snd c;
                                  np.median col; np.std col]
                       end)
         (comparisons_of used) out.
Proof.
  unfold find_comparisons_calibrated.
  destruct (filter_catalogues filterCode) as [catalogues | e]; [| discriminate].
  destruct (search_catalogues _ _ _ _ _ _ _ _ _) as [[[found |] | e] |] eqn:Hsearch;
    try discriminate.
  destruct found as [[data max_sep] cat_used].
  intros H. injection H as H.
  apply bind_Ok in H as (calibStands & Hstands & H).
  apply bind_Ok in H as (calibCompUsed & Hused & H).
  apply bind_Ok in H as (summary & Hsummary & H). injection H as <-.
  exists catalogues, (data, max_sep, cat_used), calibStands.
  split; [reflexivity |]. split; [exact Hsearch |]. split; [exact Hstands |].
  unfold calibration_summary in Hsummary.
  apply bind_Ok in Hsummary as (first & Hfirst & Hsummary).
  apply bind_Ok in Hsummary as (stars & Hstars & Hsummary). injection Hsummary as <-.
  cbn [finalCompUsedFile].
  apply mapM_Ok in Hused, Hstars. apply getitem_Ok in Hfirst.
  assert (Hframes : photFiles <> []).
  { destruct Hused; [discriminate | discriminate]. }
  split; [exact Hframes |].
  assert (Hlen : length first = length (comparisons_of used)).
  { destruct Hused as [| photFile line photFiles' calibCompUsed' Hline _];
      [discriminate |].
    simpl in Hfirst. injection Hfirst as ->.
    apply calibrate_file_line in Hline as (calibrated & _ & Hline).
    symmetry. eapply Forall2_length; eauto. }
  rewrite Hlen in Hstars. apply Forall2_map_r.
  apply (Forall2_seq_nth _ [] (comparisons_of used)). simpl.
  eapply Forall2_impl; [| exact (Forall2_In_l _ _ _ Hstars)].
  intros r st [Hr Hstar]. apply in_seq in Hr.
  unfold calibrated_star in Hstar. apply bind_Ok in Hstar as (col & Hcol & Hstar).
  destruct used as [[[a d] v] | rows]; simpl in Hr |- *.
  - apply bind_Ok in Hstar as (stand & Hstand & Hstar).
    apply bind_Ok in Hstar as (emag & Hemag & Hstar). injection Hstar as <-.
    assert (r = 0) by lia. subst r. exists (a, d, v). split; [reflexivity |].
    exists col. split.
    { eapply column_calibrated_magnitudes; eauto. reflexivity. }
    apply getitem_Ok in Hstand, Hemag.
    destruct calibStands as [| s0 rest]; [discriminate |].
    simpl in Hstand. injection Hstand as <-. simpl in Hemag. injection Hemag as <-.
    exists s0. split; reflexivity.
  - apply bind_Ok in Hstar as ([[a d] v] & Hc & Hstar). apply getitem_Ok in Hc.
    injection Hstar as <-. exists (a, d, v). split; [assumption |].
    exists col. split; [| reflexivity].
    eapply column_calibrated_magnitudes; eauto.
Qed.

Lemma find_comparisons_calibrated_lists_the_comparisons_witness :
  exists catalogues found calibStands,
    filter_catalogues "gp" = Ok catalogues
    /\ search_catalogues Sky.separation skymapper_only 5 (SingleTarget (mkTarget 10 1.5 0 0))
         false false 5 catalogues None = Some (Ok (Some found))
    /\ calibration_standards Sky.separation (fst (fst found)) (snd (fst found)) three_scores
         2.5 = Ok calibStands
    /\ quiet_frames <> []
    /\ Forall2 (fun c row =>
                  exists col,
                    calibrated_magnitudes Libm.log10 Sky.separation calibStands quiet_frames
                      c col
                    /\ match CompTable [(10, 3, 0.005); (10, 1, 0.05)]%float with
                       | OneComp _ =>
                           exists s0, nth_error calibStands 0 = Some s0
                                      /\ row = [fst (fst c); snd (fst c); snd c;
                                                np.median col; cs_emag s0]
                       | CompTable _ =>
                           row = [fst (fst c); snd (fst c); snd c;
                                  np.median col; np.std col]
                       end)
         (comparisons_of (CompTable [(10, 3, 0.005); (10, 1, 0.05)]%float))
         [[10; 3; 0.0050000000000000001; 14.212043225917819; 0.010645837061737495];
          [10; 1; 0.050000000000000003; 14.423869076113654; 0.041095019386043319]]%float.
Proof.
  exact (find_comparisons_calibrated_lists_the_comparisons Libm.log10 Sky.separation
           skymapper_only 5 (CompTable [(10, 3, 0.005); (10, 1, 0.05)]%float)
           (SingleTarget (mkTarget 10 1.5 0 0)) "gp" quiet_frames three_scores false false
           5 2.5
           [[10; 3; 0.0050000000000000001; 14.212043225917819; 0.010645837061737495];
            [10; 1; 0.050000000000000003; 14.423869076113654; 0.041095019386043319]]%float
           eq_refl).
Defined.
